(** * gs-orm: the query, validation and type-coercion engine

    A shallow embedding of [lib/utils.js] ([applyDefaults], [validateData],
    [filterRecords], [sortRecords], [applyQueryOptions]), of the functions
    of the two classes [Model] of [lib/model.js] that compute on rows and
    records ([_convertValueType], [_createColumnMap], [_getHeaderValues],
    [_rowToObject], [_filterRows], [_sortRows], [_selectFields], and
    [findAll], [findById], [find], [count] given the rows of the sheet) and
    of the models of a connection in [lib/orm.js] ([defineModel], [model]),
    together with the part of the JavaScript runtime these functions call.
    What reads or writes the spreadsheet is not modelled.

    Layout: [Chars] and [Num] model strings and numbers, [JS] the values of
    the language and its conversions, [Regex] the regular expressions that
    [$like] builds, [Builtins] the comparisons and string methods of the
    models, [Utils], [Model], [BaseModel] and [ORM] the library itself.
    [Reference] is a runtime on which the library can be run, [Described]
    the behaviour that the specification describes, [Notions] what the
    further properties are stated with, [Examples] the data of the test
    suites.  The facts proved about them follow the definitions; the
    claims of the specification come next, and further properties of the
    code last. *)

From Stdlib Require Import ZArith List Bool Ascii String Lia.
From Stdlib Require Import Permutation Sorted.
Import ListNotations.

Set Warnings "-register-all".

Open Scope string_scope.
Open Scope Z_scope.
Open Scope list_scope.

(** ** Characters

    A string is a sequence of code units below 256.  Functions that scan a
    string work on the list of its characters. *)
Module Chars.

Definition chars := list ascii.

Definition of_string (s : string) : chars := list_ascii_of_string s.
Definition to_string (l : chars) : string := string_of_list_ascii l.

Definition code (c : ascii) : Z := Z.of_nat (nat_of_ascii c).

Definition is_digit (c : ascii) : bool :=
  (48 <=? code c) && (code c <=? 57).

Definition digit_val (c : ascii) : Z := code c - 48.

Definition digit_char (d : Z) : ascii := ascii_of_nat (Z.to_nat (d + 48)).

(** StrWhiteSpaceChar, restricted to code units below 256: TAB, LF, VT, FF,
    CR, SP and NBSP. *)
Definition is_space (c : ascii) : bool :=
  let n := code c in
  ((9 <=? n) && (n <=? 13)) || (n =? 32) || (n =? 160).

(** LineTerminator below 256: LF and CR. *)
Definition is_line_terminator (c : ascii) : bool :=
  (code c =? 10) || (code c =? 13).

Fixpoint trim_left (l : chars) : chars :=
  match l with
  | c :: l' => if is_space c then trim_left l' else l
  | [] => []
  end.

Definition trim (l : chars) : chars :=
  rev (trim_left (rev (trim_left l))).

(** The longest prefix of decimal digits, and what follows it. *)
Fixpoint span_digits (l : chars) : chars * chars :=
  match l with
  | c :: l' =>
      if is_digit c
      then let (ds, r) := span_digits l' in (c :: ds, r)
      else ([], l)
  | [] => ([], [])
  end.

Definition all_digits (ds : chars) : Prop := forallb is_digit ds = true.

(** [span_digits] stops at [r]: at the end, or at a character that is no
    digit. *)
Definition stops (r : chars) : Prop :=
  match r with
  | [] => True
  | c :: _ => is_digit c = false
  end.

(** The value of a sequence of decimal digits. *)
Definition digits_value (ds : chars) : Z :=
  fold_left (fun acc c => 10 * acc + digit_val c) ds 0.

Fixpoint digits_fuel (fuel : nat) (n : Z) (acc : chars) : chars :=
  match fuel with
  | O => acc
  | S f =>
      let acc' := digit_char (n mod 10) :: acc in
      if n <? 10 then acc' else digits_fuel f (n / 10) acc'
  end.

(** The decimal digits of [n >= 0], most significant first. *)
Definition digits_of (n : Z) : chars :=
  digits_fuel (S (Z.to_nat (Z.log2 n))) n [].

Fixpoint prefix (p l : chars) : option chars :=
  match p, l with
  | [], _ => Some l
  | a :: p', b :: l' => if Ascii.eqb a b then prefix p' l' else None
  | _ :: _, [] => None
  end.

(** [p] occurs in [l]. *)
Fixpoint occurs (p l : chars) : bool :=
  match prefix p l with
  | Some _ => true
  | None => match l with
            | _ :: l' => occurs p l'
            | [] => false
            end
  end.

(** Case mapping of String.prototype.toLowerCase on code units below 256:
    A-Z, and the letters of the Latin-1 block (all of U+00C0..U+00DE but the
    multiplication sign). *)
Definition lower (c : ascii) : ascii :=
  let n := code c in
  if ((65 <=? n) && (n <=? 90))
     || ((192 <=? n) && (n <=? 222) && negb (n =? 215))
  then ascii_of_nat (Z.to_nat (n + 32)) else c.

(** Canonicalize of a case-insensitive regular expression (no [u] flag):
    the upper-case mapping when it is a single code unit of the same
    range; below 256 that is a-z and U+00E0..U+00FE but the division
    sign. *)
Definition canonicalize (c : ascii) : ascii :=
  let n := code c in
  if ((97 <=? n) && (n <=? 122))
     || ((224 <=? n) && (n <=? 254) && negb (n =? 247))
  then ascii_of_nat (Z.to_nat (n - 32)) else c.

Definition toLowerCase (s : string) : string :=
  to_string (map lower (of_string s)).

Fixpoint join (sep : string) (l : list string) : string :=
  match l with
  | [] => EmptyString
  | [s] => s
  | s :: l' => (s ++ sep ++ join sep l')%string
  end.

End Chars.

(** ** Numbers

    A Number is NaN, an infinity, or a finite decimal [m * 10^e].  Every
    decimal literal is a number of the model exactly: the rounding of
    IEEE 754 binary64, its overflow to the infinities and the sign of zero
    are not part of the model. *)
Module Num.
Import Chars.

Inductive number :=
| NaN
| Infty (neg : bool)
| Fin (m e : Z).

Fixpoint strip10 (fuel : nat) (m e : Z) : Z * Z :=
  match fuel with
  | O => (m, e)
  | S f => if m mod 10 =? 0 then strip10 f (m / 10) (e + 1) else (m, e)
  end.

(** The one representation of [m * 10^e] whose mantissa does not end in 0
    (and [(0, 0)] for zero). *)
Definition norm (m e : Z) : Z * Z :=
  if m =? 0 then (0, 0)
  else strip10 (S (Z.to_nat (Z.log2 (Z.abs m)))) m e.

Definition fin (m e : Z) : number :=
  let (m', e') := norm m e in Fin m' e'.

Definition normalize (x : number) : number :=
  match x with
  | Fin m e => fin m e
  | _ => x
  end.

Definition zero : number := Fin 0 0.
Definition of_Z (z : Z) : number := fin z 0.
Definition of_nat (n : nat) : number := of_Z (Z.of_nat n).
Definition of_bool (b : bool) : number := if b then Fin 1 0 else Fin 0 0.

Definition isNaN (x : number) : bool :=
  match x with NaN => true | _ => false end.

(** Both mantissas over the smaller exponent. *)
Definition align (m1 e1 m2 e2 : Z) : Z * Z :=
  let e := Z.min e1 e2 in (m1 * 10 ^ (e1 - e), m2 * 10 ^ (e2 - e)).

(** The order of two numbers; [None] when one of them is NaN. *)
Definition compare (x y : number) : option comparison :=
  match x, y with
  | NaN, _ | _, NaN => None
  | Infty a, Infty b =>
      Some (if Bool.eqb a b then Eq else if a then Lt else Gt)
  | Infty a, Fin _ _ => Some (if a then Lt else Gt)
  | Fin _ _, Infty b => Some (if b then Gt else Lt)
  | Fin m1 e1, Fin m2 e2 =>
      let (a, b) := align m1 e1 m2 e2 in Some (a ?= b)
  end.

Definition lt (x y : number) : bool :=
  match compare x y with Some Lt => true | _ => false end.
Definition gt (x y : number) : bool :=
  match compare x y with Some Gt => true | _ => false end.
Definition le (x y : number) : bool :=
  match compare x y with Some Lt | Some Eq => true | _ => false end.
Definition ge (x y : number) : bool :=
  match compare x y with Some Gt | Some Eq => true | _ => false end.
(** [x === y] on Numbers: false on NaN. *)
Definition eq (x y : number) : bool :=
  match compare x y with Some Eq => true | _ => false end.
(** SameValueZero on Numbers: NaN is the same value as NaN. *)
Definition same (x y : number) : bool :=
  match x, y with
  | NaN, NaN => true
  | _, _ => eq x y
  end.

Definition neg_num (x : number) : number :=
  match x with
  | NaN => NaN
  | Infty b => Infty (negb b)
  | Fin m e => Fin (- m) e
  end.

Definition add (x y : number) : number :=
  match x, y with
  | NaN, _ | _, NaN => NaN
  | Infty a, Infty b => if Bool.eqb a b then Infty a else NaN
  | Infty a, Fin _ _ => Infty a
  | Fin _ _, Infty b => Infty b
  | Fin m1 e1, Fin m2 e2 =>
      let (a, b) := align m1 e1 m2 e2 in fin (a + b) (Z.min e1 e2)
  end.

Definition sub (x y : number) : number := add x (neg_num y).

Definition is_zero (x : number) : bool :=
  match x with Fin m _ => m =? 0 | _ => false end.

Definition is_neg (x : number) : bool :=
  match x with Fin m _ => m <? 0 | Infty b => b | NaN => false end.

Definition mul (x y : number) : number :=
  match x, y with
  | NaN, _ | _, NaN => NaN
  | Fin m1 e1, Fin m2 e2 => fin (m1 * m2) (e1 + e2)
  | _, _ =>
      if is_zero x || is_zero y then NaN
      else Infty (xorb (is_neg x) (is_neg y))
  end.

(** truncate: the integer part of a finite number, towards zero. *)
Definition trunc (m e : Z) : Z :=
  if 0 <=? e then m * 10 ^ e else Z.quot m (10 ^ (- e)).

(** The results of ToIntegerOrInfinity. *)
Inductive integer_or_infinity :=
| Int (z : Z)
| MinusInf
| PlusInf.

Definition ToIntegerOrInfinity (x : number) : integer_or_infinity :=
  match x with
  | NaN => Int 0
  | Infty true => MinusInf
  | Infty false => PlusInf
  | Fin m e => Int (trunc m e)
  end.

(** [x] is the integer [z]. *)
Definition integer (x : number) (z : Z) : Prop :=
  exists m e, x = Fin m e /\ 0 <= e /\ z = m * 10 ^ e.

(** *** Number::toString (radix 10) *)

Definition zeros (n : Z) : chars := repeat "0"%char (Z.to_nat n).

Definition exponent_chars (ex : Z) : chars :=
  (if ex <? 0 then "-"%char else "+"%char) :: digits_of (Z.abs ex).

(** [ds] are the [k] significant digits and the value is
    [0.ds * 10^n]: the four layouts of Number::toString. *)
Definition layout (ds : chars) (n : Z) : chars :=
  let k := Z.of_nat (List.length ds) in
  if (k <=? n) && (n <=? 21) then ds ++ zeros (n - k)
  else if (0 <? n) && (n <=? 21)
  then firstn (Z.to_nat n) ds ++ "."%char :: skipn (Z.to_nat n) ds
  else if (-6 <? n) && (n <=? 0)
  then "0"%char :: "."%char :: zeros (- n) ++ ds
  else match ds with
       | [] => []
       | [d] => d :: "e"%char :: exponent_chars (n - 1)
       | d :: rest => d :: "."%char :: rest ++ "e"%char :: exponent_chars (n - 1)
       end.

Definition to_chars (x : number) : chars :=
  match x with
  | NaN => of_string "NaN"
  | Infty neg => (if neg then ["-"%char] else []) ++ of_string "Infinity"
  | Fin m e =>
      let (m', e') := norm m e in
      if m' =? 0 then ["0"%char]
      else
        let ds := digits_of (Z.abs m') in
        (if m' <? 0 then ["-"%char] else [])
          ++ layout ds (Z.of_nat (List.length ds) + e')
  end.

Definition toString (x : number) : string := Chars.to_string (to_chars x).

(** The text of a decimal literal: a sign, digits, a fraction and an
    exponent. *)
Definition literal (neg : bool) (ip : chars) (fp : option chars)
  (ex : option Z) : chars :=
  (if neg then ["-"%char] else [])
    ++ ip
    ++ match fp with Some fp => "."%char :: fp | None => [] end
    ++ match ex with Some ex => "e"%char :: exponent_chars ex | None => [] end.

Definition fraction_digits (fp : option chars) : chars :=
  match fp with Some fp => fp | None => [] end.

Definition exponent_value (ex : option Z) : Z :=
  match ex with Some ex => ex | None => 0 end.

(** *** StrDecimalLiteral *)

Definition parse_sign (l : chars) : bool * chars :=
  match l with
  | c :: l' =>
      if Ascii.eqb c "-" then (true, l')
      else if Ascii.eqb c "+" then (false, l')
      else (false, l)
  | [] => (false, l)
  end.

(** ExponentPart: [e] or [E], an optional sign and at least one digit;
    when there is none the exponent is 0 and nothing is consumed. *)
Definition parse_exponent (l : chars) : Z * chars :=
  match l with
  | c :: l' =>
      if Ascii.eqb c "e" || Ascii.eqb c "E" then
        let (neg, l2) := parse_sign l' in
        match span_digits l2 with
        | ([], _) => (0, l)
        | (ds, r) => ((if neg then - digits_value ds else digits_value ds), r)
        end
      else (0, l)
  | [] => (0, l)
  end.

Definition signed (neg : bool) (m : Z) : Z := if neg then - m else m.

(** The fraction: a point and the digits after it, which may be none. *)
Definition parse_fraction (l : chars) : chars * chars :=
  match l with
  | c :: r => if Ascii.eqb c "." then span_digits r else ([], l)
  | [] => ([], l)
  end.

(** Digits, a fraction and an exponent; one digit at least before or after
    the point. *)
Definition parse_unsigned (neg : bool) (l : chars)
  : option (number * chars) :=
  let (ip, r1) := span_digits l in
  let (fp, r2) := parse_fraction r1 in
  match ip ++ fp with
  | [] => None
  | ds =>
      let (ex, r3) := parse_exponent r2 in
      Some (fin (signed neg (digits_value ds))
                (ex - Z.of_nat (List.length fp)), r3)
  end.

(** The longest prefix that is a StrDecimalLiteral, its value, and the
    rest of the text; [None] when no prefix is one. *)
Definition parse_decimal (l : chars) : option (number * chars) :=
  let (neg, l1) := parse_sign l in
  match prefix (of_string "Infinity") l1 with
  | Some r => Some (Infty neg, r)
  | None => parse_unsigned neg l1
  end.

(** parseFloat on a string. *)
Definition parseFloat (s : string) : number :=
  match parse_decimal (trim_left (of_string s)) with
  | Some (x, _) => x
  | None => NaN
  end.

Definition hex_val (c : ascii) : option Z :=
  let n := code c in
  if (48 <=? n) && (n <=? 57) then Some (n - 48)
  else if (97 <=? n) && (n <=? 102) then Some (n - 87)
  else if (65 <=? n) && (n <=? 70) then Some (n - 55)
  else None.

Fixpoint radix_value (radix : Z) (acc : Z) (l : chars) : option Z :=
  match l with
  | [] => Some acc
  | c :: l' =>
      match hex_val c with
      | Some d => if d <? radix then radix_value radix (radix * acc + d) l'
                  else None
      | None => None
      end
  end.

(** NonDecimalIntegerLiteral: 0x, 0o or 0b and at least one digit. *)
Definition parse_radix (l : chars) : option (option Z) :=
  match l with
  | z :: p :: ds =>
      if Ascii.eqb z "0" then
        let radix :=
          if Ascii.eqb p "x" || Ascii.eqb p "X" then Some 16
          else if Ascii.eqb p "o" || Ascii.eqb p "O" then Some 8
          else if Ascii.eqb p "b" || Ascii.eqb p "B" then Some 2
          else None in
        match radix with
        | Some r => Some (match ds with
                          | [] => None
                          | _ => radix_value r 0 ds
                          end)
        | None => None
        end
      else None
  | _ => None
  end.

(** StringToNumber: the text, trimmed, is empty, a StrDecimalLiteral or a
    NonDecimalIntegerLiteral; anything else is NaN. *)
Definition of_string (s : string) : number :=
  let l := trim (Chars.of_string s) in
  match l with
  | [] => zero
  | _ =>
      match parse_radix l with
      | Some (Some z) => of_Z z
      | Some None => NaN
      | None =>
          match parse_decimal l with
          | Some (x, []) => x
          | _ => NaN
          end
      end
  end.

End Num.

(** ** Values and conversions of the language *)
Module JS.

Abbreviation number := Num.number.

(** The identity of an object: two objects are the same object when they
    have the same identity, whatever they contain. *)
Definition ident := nat.

(** The values the library handles.  A Date carries its time value (NaN for
    an invalid date), an array its elements, a plain object its own
    enumerable properties in insertion order.  Functions, symbols, BigInts,
    boxed primitives and objects with a [toString] or [valueOf] of their own
    are not values of the model. *)
Inductive value :=
| VUndefined
| VNull
| VBool (b : bool)
| VNum (n : number)
| VStr (s : string)
| VDate (id : ident) (t : number)
| VArr (id : ident) (elems : list value)
| VObj (id : ident) (props : list (string * value)).

Arguments VDate id%_nat t.
Arguments VArr id%_nat elems.
Arguments VObj id%_nat props.

(** The own properties of a plain object. *)
Definition object := list (string * value).

Inductive error :=
| TypeError
| SyntaxError
| Error (message : string).

(** What a call does: it returns, it throws, or it leaves the part of the
    runtime that is modelled ([Unmodelled]: a regular expression with
    syntax outside [Regex]). *)
Inductive outcome (A : Type) :=
| Ok (a : A)
| Throws (e : error)
| Unmodelled.
Arguments Ok {A} a.
Arguments Throws {A} e.
Arguments Unmodelled {A}.

Definition bind {A B} (x : outcome A) (f : A -> outcome B) : outcome B :=
  match x with
  | Ok a => f a
  | Throws e => Throws e
  | Unmodelled => Unmodelled
  end.

(** The runtime the library runs on, as far as its behaviour is left to the
    implementation or is too large to model: the JSON and date parsers, the
    text of a date, the collation of [localeCompare], and the state that
    default generators read and update (clock, random numbers).  Two facts
    about the parsers are laws: the JSON text [false] is the boolean, as
    ECMAScript has it, and the text [null] is no date that [Date.parse]
    recognizes. *)
Class Host := {
  world : Type;
  JSON_parse : string -> option value;
  Date_parse : string -> number;
  Date_toString : number -> string;
  localeCompare : string -> string -> Z;
  JSON_parse_false : JSON_parse "false" = Some (VBool false);
  Date_parse_null : Date_parse "null" = Num.NaN
}.

Fixpoint lookup {A} (l : list (string * A)) (k : string) : option A :=
  match l with
  | [] => None
  | (k', v) :: l' => if String.eqb k' k then Some v else lookup l' k
  end.

(** [o[k]] on a plain object (properties inherited from Object.prototype
    are not modelled: [k] is a field or operator name). *)
Definition get (o : object) (k : string) : value :=
  match lookup o k with
  | Some v => v
  | None => VUndefined
  end.

(** [o[k] = v] *)
Fixpoint set (o : object) (k : string) (v : value) : object :=
  match o with
  | [] => [(k, v)]
  | (k', v') :: o' =>
      if String.eqb k' k then (k, v) :: o' else (k', v') :: set o' k v
  end.

(** [v.k] for an operator name [k]: arrays and dates have no such
    property. *)
Definition prop (v : value) (k : string) : value :=
  match v with
  | VObj _ props => get props k
  | _ => VUndefined
  end.

Inductive type_name :=
| t_undefined | t_object | t_boolean | t_number | t_string.

Definition typeof (v : value) : type_name :=
  match v with
  | VUndefined => t_undefined
  | VBool _ => t_boolean
  | VNum _ => t_number
  | VStr _ => t_string
  | VNull | VDate _ _ | VArr _ _ | VObj _ _ => t_object
  end.

Definition is_undefined (v : value) : bool :=
  match v with VUndefined => true | _ => false end.

Definition is_null (v : value) : bool :=
  match v with VNull => true | _ => false end.

(** [typeof v === 'object' && v !== null] *)
Definition is_object (v : value) : bool :=
  match v with
  | VDate _ _ | VArr _ _ | VObj _ _ => true
  | _ => false
  end.

(** ToBoolean *)
Definition truthy (v : value) : bool :=
  match v with
  | VUndefined | VNull => false
  | VBool b => b
  | VNum n => negb (Num.isNaN n || Num.is_zero n)
  | VStr s => negb (String.eqb s "")
  | _ => true
  end.

Section Conversions.
Context `{Host}.

(** ToString; an array is the join of its elements with [","]. *)
Fixpoint ToString (v : value) : string :=
  match v with
  | VUndefined => "undefined"
  | VNull => "null"
  | VBool b => if b then "true" else "false"
  | VNum n => Num.toString n
  | VStr s => s
  | VDate _ t => Date_toString t
  | VArr _ elems =>
      Chars.join ","
        (map (fun x => match x with
                       | VUndefined | VNull => ""
                       | _ => ToString x
                       end) elems)
  | VObj _ _ => "[object Object]"
  end.

(** ToNumber; an object goes through ToPrimitive with hint number: a Date
    gives its time value, an array or plain object its string. *)
Definition ToNumber (v : value) : number :=
  match v with
  | VUndefined => Num.NaN
  | VNull => Num.zero
  | VBool b => Num.of_bool b
  | VNum n => n
  | VStr s => Num.of_string s
  | VDate _ t => t
  | VArr _ _ => Num.of_string (ToString v)
  | VObj _ _ => Num.NaN
  end.

(** The global parseFloat: ToString, then the longest decimal prefix. *)
Definition parseFloat (v : value) : number := Num.parseFloat (ToString v).

(** [Number(v)] *)
Definition Number (v : value) : number := ToNumber v.

(** [String(v)] *)
Definition String_ (v : value) : string := ToString v.

(** [x === y] *)
Definition strict_eq (x y : value) : bool :=
  match x, y with
  | VUndefined, VUndefined => true
  | VNull, VNull => true
  | VBool a, VBool b => Bool.eqb a b
  | VNum a, VNum b => Num.eq a b
  | VStr a, VStr b => String.eqb a b
  | VDate i _, VDate j _ => Nat.eqb i j
  | VArr i _, VArr j _ => Nat.eqb i j
  | VObj i _, VObj j _ => Nat.eqb i j
  | _, _ => false
  end.

(** SameValueZero, the comparison of Array.prototype.includes. *)
Definition same_value_zero (x y : value) : bool :=
  match x, y with
  | VNum a, VNum b => Num.same a b
  | _, _ => strict_eq x y
  end.

(** ToPrimitive without hint: a Date gives its text, and so do arrays and
    plain objects. *)
Definition ToPrimitive (v : value) : value :=
  if is_object v then VStr (ToString v) else v.

(** [x == y] on two primitives. *)
Definition loose_eq_prim (x y : value) : bool :=
  match x, y with
  | (VUndefined | VNull), (VUndefined | VNull) => true
  | (VUndefined | VNull), _ | _, (VUndefined | VNull) => false
  | VStr a, VStr b => String.eqb a b
  | _, _ => Num.eq (ToNumber x) (ToNumber y)
  end.

(** [x == y] (IsLooselyEqual): two objects are equal when they are the same
    object; an object against a primitive is first made primitive. *)
Definition loose_eq (x y : value) : bool :=
  if is_object x && is_object y then strict_eq x y
  else loose_eq_prim (ToPrimitive x) (ToPrimitive y).

(** The largest time value, in milliseconds from the epoch. *)
Definition latest : Z := 8640000000000000.

(** TimeClip *)
Definition TimeClip (t : number) : number :=
  match t with
  | Num.Fin m e =>
      if Num.gt (Num.Fin (Z.abs m) e) (Num.Fin latest 0)
      then Num.NaN
      else Num.of_Z (Num.trunc m e)
  | _ => Num.NaN
  end.

(** [new Date(v)], the object created having identity [fresh]. *)
Definition Date_new (fresh : ident) (v : value) : value :=
  match v with
  | VDate _ t => VDate fresh (TimeClip t)
  | _ =>
      match ToPrimitive v with
      | VStr s => VDate fresh (TimeClip (Date_parse s))
      | p => VDate fresh (TimeClip (ToNumber p))
      end
  end.

End Conversions.

(** Array.prototype.slice(start, end) *)
Definition relative_index (len : Z) (i : Num.integer_or_infinity) : Z :=
  match i with
  | Num.MinusInf => 0
  | Num.PlusInf => len
  | Num.Int z => if z <? 0 then Z.max (len + z) 0 else Z.min z len
  end.

Definition slice {A} (l : list A) (start end_ : number) : list A :=
  let len := Z.of_nat (List.length l) in
  let k := relative_index len (Num.ToIntegerOrInfinity start) in
  let final := relative_index len (Num.ToIntegerOrInfinity end_) in
  firstn (Z.to_nat (Z.max (final - k) 0)) (skipn (Z.to_nat k) l).

(** Array.prototype.sort(comparefn): the order is that of a stable
    insertion sort; a NaN from the comparator counts as 0. *)
Section Sort.
Context {A : Type} (comparefn : A -> A -> number).

Definition sort_gt (x y : A) : bool := Num.gt (comparefn x y) Num.zero.

Fixpoint insert (x : A) (sorted : list A) : list A :=
  match sorted with
  | [] => [x]
  | y :: rest => if sort_gt y x then x :: y :: rest else y :: insert x rest
  end.

Definition sort (l : list A) : list A :=
  fold_left (fun sorted x => insert x sorted) l [].

End Sort.

End JS.

(** ** Regular expressions

    [new RegExp(source, 'i')] and [RegExp.prototype.test] for the sources
    made of literal characters, [.], [^], [$] and [*] after a single
    character or [.].  The other syntax characters are [Unsupported]. *)
Module Regex.
Import Chars.

Inductive atom :=
| Char (c : ascii)
| Dot.

Inductive term :=
| One (a : atom)
| Star (a : atom)
| Bol
| Eol.

Definition regex := list term.

Inductive compiled :=
| Compiled (r : regex)
| Invalid
| Unsupported.

Definition mem (c : ascii) (s : string) : bool :=
  existsb (Ascii.eqb c) (of_string s).

(** SyntaxCharacter *)
Definition syntax_char (c : ascii) : bool := mem c "^$\.*+?()[]{}|".

Definition unsupported_char (c : ascii) : bool := mem c "\+?()[]{}|".

(** The terms of a source without unsupported characters; [None] when a
    [*] has nothing to repeat. *)
Fixpoint parse (l : chars) : option regex :=
  match l with
  | [] => Some []
  | c :: l' =>
      if Ascii.eqb c "*" then None
      else if Ascii.eqb c "^" then option_map (cons Bol) (parse l')
      else if Ascii.eqb c "$" then option_map (cons Eol) (parse l')
      else
        let a := if Ascii.eqb c "." then Dot else Char c in
        match l' with
        | q :: l'' =>
            if Ascii.eqb q "*" then option_map (cons (Star a)) (parse l'')
            else option_map (cons (One a)) (parse l')
        | [] => Some [One a]
        end
  end.

Definition compile (source : string) : compiled :=
  let l := of_string source in
  if existsb unsupported_char l then Unsupported
  else match parse l with
       | Some r => Compiled r
       | None => Invalid
       end.

(** With flag [i] and without flags [s] and [m]: a character matches
    up to case, [.] matches anything but a line terminator. *)
Definition atom_matches (a : atom) (c : ascii) : bool :=
  match a with
  | Char p => Ascii.eqb (canonicalize p) (canonicalize c)
  | Dot => negb (is_line_terminator c)
  end.

(** [matches r start s]: [r] matches a prefix of [s]; [start] tells
    whether [s] begins at the beginning of the input. *)
Fixpoint matches (r : regex) : bool -> chars -> bool :=
  match r with
  | [] => fun _ _ => true
  | Bol :: r' => fun start s => start && matches r' start s
  | Eol :: r' => fun start s =>
      match s with [] => matches r' start s | _ :: _ => false end
  | One a :: r' => fun _ s =>
      match s with
      | c :: s' => atom_matches a c && matches r' false s'
      | [] => false
      end
  | Star a :: r' =>
      fix star (start : bool) (s : chars) {struct s} : bool :=
        matches r' start s
        || match s with
           | c :: s' => atom_matches a c && star false s'
           | [] => false
           end
  end.

(** The match is tried at every position of the input. *)
Fixpoint search (r : regex) (start : bool) (s : chars) : bool :=
  matches r start s
  || match s with
     | _ :: s' => search r false s'
     | [] => false
     end.

Definition test (r : regex) (s : string) : bool :=
  search r true (of_string s).

(** [pattern.replace(/%/g, '.*')] *)
Definition replaced (p : chars) : chars :=
  flat_map (fun c => if Ascii.eqb c "%" then of_string ".*" else [c]) p.

Definition replace_percent (pattern : string) : string :=
  to_string (replaced (of_string pattern)).

End Regex.

(** ** lib/utils.js *)
Module Utils.
Import JS.

Section WithHost.
Context `{Host}.

(** A default: a value, or a generator called without arguments that may
    read and update the state of the runtime.  What a generator does to
    objects is its own affair and is left out: it has no access to the
    store. *)
Inductive default :=
| Static (v : value)
| Generated (g : world -> value * world).

(** The settings of one schema field.  [required] is the truth value of
    the property; an option is [None] when the property is undefined.
    [validate] is the function that the documentation of the library lets
    a field have, from a value to what it returns. *)
Record settings := {
  type : option string;
  required : bool;
  defaultValue : option default;
  min : option number;
  max : option number;
  minLength : option number;
  maxLength : option number;
  validate : option (value -> value)
}.

(** The schema: its fields in the order of Object.entries. *)
Definition schema := list (string * settings).

(** *** applyDefaults

    Objects live in a store so that writes are visible: an object is its
    address, and the store gives its properties. *)
Definition loc := nat.
Definition store := list object.

Definition read (h : store) (l : loc) : option object := nth_error h l.

Fixpoint write (h : store) (l : loc) (o : object) : store :=
  match h, l with
  | [], _ => []
  | _ :: h', O => o :: h'
  | x :: h', S l' => x :: write h' l' o
  end.

(** [{ ...o }]: a new object with the properties of [o]. *)
Definition spread (h : store) (o : object) : loc * store :=
  (List.length h, h ++ [o]).

(** [result[field] = v] *)
Definition assign (h : store) (result : loc) (field : string) (v : value)
  : store :=
  match read h result with
  | Some o => write h result (set o field v)
  | None => h
  end.

(** [result[field]] *)
Definition field_of (h : store) (l : loc) (field : string) : value :=
  match read h l with
  | Some o => get o field
  | None => VUndefined
  end.

(** One turn of the [forEach] over the schema. *)
Definition default_step (result : loc) (st : store * world)
  (entry : string * settings) : store * world :=
  let (h, w) := st in
  let (field, settings) := entry in
  if negb (is_undefined (field_of h result field)) then st
  else
    match defaultValue settings with
    | None => st
    | Some (Static v) =>
        if is_undefined v then st else (assign h result field v, w)
    | Some (Generated g) =>
        let (v, w') := g w in (assign h result field v, w')
    end.

(** [applyDefaults(data, schema)] in the store [h] and the state [w]: the
    address of the result, the store and the state after the call; [None]
    when [data] is not an object of the store. *)
Definition applyDefaults (data : loc) (schema : schema) (h : store)
  (w : world) : option (loc * store * world) :=
  match read h data with
  | None => None
  | Some o =>
      let (result, h1) := spread h o in
      let (h2, w2) := fold_left (default_step result) schema (h1, w) in
      Some (result, h2, w2)
  end.

(** *** validateData *)

Definition msg_required (field : string) : string :=
  ("Field '" ++ field ++ "' is required")%string.
Definition msg_type (field ty : string) : string :=
  ("Field '" ++ field ++ "' should be of type " ++ ty)%string.
Definition msg_min (field : string) (bound : number) : string :=
  ("Field '" ++ field ++ "' must be at least " ++ Num.toString bound)%string.
Definition msg_max (field : string) (bound : number) : string :=
  ("Field '" ++ field ++ "' must be at most " ++ Num.toString bound)%string.
Definition msg_minLength (field : string) (bound : number) : string :=
  ("Field '" ++ field ++ "' must be at least " ++ Num.toString bound
     ++ " characters")%string.
Definition msg_maxLength (field : string) (bound : number) : string :=
  ("Field '" ++ field ++ "' must be at most " ++ Num.toString bound
     ++ " characters")%string.

(** The [switch] on the lower-cased type name. *)
Definition type_valid (ty : string) (value : value) : bool :=
  let t := Chars.toLowerCase ty in
  if String.eqb t "string" then
    match typeof value with t_string => true | _ => false end
  else if String.eqb t "number" then
    match typeof value with
    | t_number => true
    | _ => negb (Num.isNaN (Number value))
    end
  else if String.eqb t "boolean" then
    match typeof value with
    | t_boolean => true
    | _ => strict_eq value (VStr "true") || strict_eq value (VStr "false")
           || strict_eq value (VStr "1") || strict_eq value (VStr "0")
    end
  else if String.eqb t "date" then
    match value with
    | VDate _ _ => true
    | _ => negb (Num.isNaN (Date_parse (ToString value)))
    end
  else true.

Definition push (errors : list string) (e : string) : list string :=
  errors ++ [e].

Definition push_if (c : bool) (e : string) (errors : list string)
  : list string :=
  if c then push errors e else errors.

(** [settings.type === name] *)
Definition type_is (settings : settings) (name : string) : bool :=
  match type settings with
  | Some ty => String.eqb ty name
  | None => false
  end.

(** The body of the [forEach] over the schema: [errors] before and after
    one field. *)
Definition validate_field (data : object) (partial : bool)
  (errors : list string) (entry : string * settings) : list string :=
  let (field, settings) := entry in
  if partial && is_undefined (get data field) then errors
  else
    let errors :=
      push_if (negb partial && required settings
               && (is_undefined (get data field) || is_null (get data field)
                   || strict_eq (get data field) (VStr "")))
              (msg_required field) errors in
    if is_undefined (get data field) then errors
    else
      let errors :=
        match type settings with
        | None => errors
        | Some ty =>
            if String.eqb ty "" then errors
            else push_if (negb (type_valid ty (get data field)))
                         (msg_type field ty) errors
        end in
      let errors :=
        if type_is settings "number" then
          let numValue := Number (get data field) in
          let errors :=
            match min settings with
            | Some bound =>
                push_if (Num.lt numValue bound) (msg_min field bound) errors
            | None => errors
            end in
          match max settings with
          | Some bound =>
              push_if (Num.gt numValue bound) (msg_max field bound) errors
          | None => errors
          end
        else errors in
      if type_is settings "string" then
        let strValue := String_ (get data field) in
        let len := Num.of_nat (String.length strValue) in
        let errors :=
          match minLength settings with
          | Some bound =>
              push_if (Num.lt len bound) (msg_minLength field bound) errors
          | None => errors
          end in
        match maxLength settings with
        | Some bound =>
            push_if (Num.gt len bound) (msg_maxLength field bound) errors
        | None => errors
        end
      else errors.

Definition validateData (data : object) (schema : schema) (partial : bool)
  : outcome bool :=
  let errors := fold_left (validate_field data partial) schema [] in
  if (0 <? List.length errors)%nat
  then Throws (Error ("Validation failed: " ++ Chars.join ", " errors))
  else Ok true.

(** *** filterRecords *)

(** [list.includes(x)]: an array compares with SameValueZero, a string
    looks for the text of [x]; nothing else has the method. *)
Definition includes (list_ x : value) : outcome bool :=
  match list_ with
  | VArr _ elems => Ok (existsb (same_value_zero x) elems)
  | VStr s =>
      Ok (Chars.occurs (Chars.of_string (ToString x)) (Chars.of_string s))
  | _ => Throws TypeError
  end.

(** [new RegExp(pattern.replace(/%/g, '.*'), 'i').test(x)] *)
Definition like (pattern x : value) : outcome bool :=
  match pattern with
  | VStr p =>
      match Regex.compile (Regex.replace_percent p) with
      | Regex.Compiled r => Ok (Regex.test r (ToString x))
      | Regex.Invalid => Throws SyntaxError
      | Regex.Unsupported => Unmodelled
      end
  | _ => Throws TypeError
  end.

Definition defined (v : value) : bool := negb (is_undefined v).

(** The callback of [every]: one entry of the criteria on one record.
    The left operand of [>], [>=], [<] and [<=] is a Number, so the right
    one is converted with ToNumber. *)
Definition matches_entry (record : object) (entry : string * value)
  : outcome bool :=
  let (key, value) := entry in
  if is_object value then
    if defined (prop value "$eq")
    then Ok (loose_eq (get record key) (prop value "$eq"))
    else if defined (prop value "$ne")
    then Ok (negb (loose_eq (get record key) (prop value "$ne")))
    else if defined (prop value "$gt")
    then Ok (Num.gt (parseFloat (get record key))
                    (ToNumber (prop value "$gt")))
    else if defined (prop value "$gte")
    then Ok (Num.ge (parseFloat (get record key))
                    (ToNumber (prop value "$gte")))
    else if defined (prop value "$lt")
    then Ok (Num.lt (parseFloat (get record key))
                    (ToNumber (prop value "$lt")))
    else if defined (prop value "$lte")
    then Ok (Num.le (parseFloat (get record key))
                    (ToNumber (prop value "$lte")))
    else if defined (prop value "$in")
    then includes (prop value "$in") (get record key)
    else if defined (prop value "$nin")
    then bind (includes (prop value "$nin") (get record key))
              (fun b => Ok (negb b))
    else if defined (prop value "$like")
    then like (prop value "$like") (get record key)
    else Ok (loose_eq (get record key) value)
  else Ok (loose_eq (get record key) value).

(** Array.prototype.every: stops at the first entry that fails. *)
Fixpoint every {A} (f : A -> outcome bool) (l : list A) : outcome bool :=
  match l with
  | [] => Ok true
  | x :: l' =>
      bind (f x) (fun b => if b then every f l' else Ok false)
  end.

(** Array.prototype.filter *)
Fixpoint filter {A} (f : A -> outcome bool) (l : list A)
  : outcome (list A) :=
  match l with
  | [] => Ok []
  | x :: l' =>
      bind (f x) (fun b =>
      bind (filter f l') (fun kept =>
      Ok (if b then x :: kept else kept)))
  end.

Definition criteria := list (string * value).

Definition filterRecords (records : list object) (criteria : criteria)
  : outcome (list object) :=
  filter (fun record => every (matches_entry record) criteria) records.

(** *** sortRecords *)

(** [v || ''] *)
Definition or_empty (v : value) : value :=
  if truthy v then v else VStr "".

(** [diff !== 0] *)
Definition nonzero (diff : number) : bool := negb (Num.eq diff Num.zero).

(** [direction.toLowerCase() === 'desc' ? -1 : 1] *)
Definition multiplier (direction : string) : number :=
  if String.eqb (Chars.toLowerCase direction) "desc"
  then Num.Fin (-1) 0 else Num.Fin 1 0.

(** One turn of the [for] loop of the comparator: [Some r] when it
    returns [r], [None] when it goes on to the next entry. *)
Definition compare_key (a b : object) (entry : string * string)
  : option number :=
  let (field, direction) := entry in
  if negb (Num.isNaN (parseFloat (get a field)))
     && negb (Num.isNaN (parseFloat (get b field)))
  then
    let diff := Num.sub (parseFloat (get a field))
                        (parseFloat (get b field)) in
    if nonzero diff then Some (Num.mul diff (multiplier direction)) else None
  else
    let diff := Num.of_Z (localeCompare (String_ (or_empty (get a field)))
                                        (String_ (or_empty (get b field)))) in
    if nonzero diff then Some (Num.mul diff (multiplier direction)) else None.

Fixpoint comparator (orderEntries : list (string * string))
  (a b : object) : number :=
  match orderEntries with
  | [] => Num.zero
  | entry :: rest =>
      match compare_key a b entry with
      | Some r => r
      | None => comparator rest a b
      end
  end.

Definition sortRecords (records : list object)
  (orderBy : list (string * string)) : list object :=
  sort (comparator orderBy) records.

(** *** applyQueryOptions *)

(** The options: [None] for a property that is not there.  [where_] is
    [options.where]; [limit] and [offset] are Numbers. *)
Record options := {
  where_ : option criteria;
  orderBy : option (list (string * string));
  limit : option number;
  offset : option number
}.

Definition applyQueryOptions (records : list object) (options : options)
  : outcome (list object) :=
  let results := records in
  bind (match where_ options with
        | Some w => filterRecords results w
        | None => Ok results
        end) (fun results =>
  let results :=
    match orderBy options with
    | Some o => sortRecords results o
    | None => results
    end in
  let results :=
    match limit options with
    | Some limit =>
        let offset :=
          match offset options with
          | Some n => if truthy (VNum n) then n else Num.zero
          | None => Num.zero
          end in
        slice results offset (Num.add offset limit)
    | None => results
    end in
  Ok results).

End WithHost.

Arguments read h l%_nat.
Arguments write h l%_nat o.
Arguments applyDefaults {H} data%_nat schema h w.

End Utils.

(** ** Operators and methods of the language that lib/model.js uses *)
Module Builtins.
Import Chars JS.

(** [s.startsWith(p)], [s.endsWith(p)] and [s.includes(p)] on strings. *)
Definition startsWith (s p : string) : bool :=
  match prefix (of_string p) (of_string s) with
  | Some _ => true
  | None => false
  end.

Definition endsWith (s p : string) : bool :=
  match prefix (rev (of_string p)) (rev (of_string s)) with
  | Some _ => true
  | None => false
  end.

Definition includes (s p : string) : bool :=
  occurs (of_string p) (of_string s).

(** [s.split(sep)] for a separator of one character: the pieces between
    the separators, at least one. *)
Fixpoint split_chars (sep : ascii) (l : chars) : list chars :=
  match l with
  | [] => [[]]
  | c :: l' =>
      if Ascii.eqb c sep then [] :: split_chars sep l'
      else match split_chars sep l' with
           | piece :: pieces => (c :: piece) :: pieces
           | [] => [[c]]
           end
  end.

Definition split (s : string) (sep : ascii) : list string :=
  map to_string (split_chars sep (of_string s)).

(** The order of two strings: that of their code units. *)
Fixpoint chars_lt (a b : chars) : bool :=
  match a, b with
  | _, [] => false
  | [], _ :: _ => true
  | x :: a', y :: b' =>
      if code x <? code y then true
      else if code y <? code x then false
      else chars_lt a' b'
  end.

Section WithHost.
Context `{Host}.

(** ToPrimitive with hint number: a Date gives its time value, an array
    or a plain object its string. *)
Definition ToPrimitiveNumber (v : value) : value :=
  match v with
  | VDate _ t => VNum t
  | VArr _ _ | VObj _ _ => VStr (ToString v)
  | _ => v
  end.

(** IsLessThan: two strings are compared as strings, anything else as
    numbers; [None] is the undefined of a comparison with NaN. *)
Definition IsLessThan (x y : value) : option bool :=
  match ToPrimitiveNumber x, ToPrimitiveNumber y with
  | VStr a, VStr b => Some (chars_lt (of_string a) (of_string b))
  | px, py =>
      match Num.compare (ToNumber px) (ToNumber py) with
      | Some Lt => Some true
      | Some _ => Some false
      | None => None
      end
  end.

(** [x < y], [x > y], [x <= y] and [x >= y] *)
Definition lt (x y : value) : bool :=
  match IsLessThan x y with Some true => true | _ => false end.
Definition gt (x y : value) : bool :=
  match IsLessThan y x with Some true => true | _ => false end.
Definition le (x y : value) : bool :=
  match IsLessThan y x with Some false => true | _ => false end.
Definition ge (x y : value) : bool :=
  match IsLessThan x y with Some false => true | _ => false end.

End WithHost.
End Builtins.

(** ** lib/model.js *)
Module Model.
Import JS.

Section WithHost.
Context `{Host}.

(** The [switch] on the lower-cased type name [t]; [fresh] is the identity
    of the Date it may create.  A SyntaxError of JSON.parse is caught and
    the value returned as it is. *)
Definition convert (t : string) (fresh : ident) (value : value) : JS.value :=
  if String.eqb t "number" then
    if strict_eq value (VStr "") then VNull else VNum (parseFloat value)
  else if String.eqb t "boolean" then
    VBool (strict_eq value (VBool true)
           || strict_eq value (VStr "true")
           || strict_eq value (VStr "1"))
  else if String.eqb t "date" then
    if truthy value then Date_new fresh value else VNull
  else if String.eqb t "json" then
    if truthy value then
      match JSON_parse (ToString value) with
      | Some parsed => parsed
      | None => value
      end
    else VNull
  else value.

(** [_convertValueType(field, value)] of a model whose schema is
    [schema]. *)
Definition _convertValueType (schema : Utils.schema) (fresh : ident)
  (field : string) (value : value) : JS.value :=
  match lookup schema field with
  | None => value
  | Some settings =>
      match Utils.type settings with
      | None => value
      | Some ty =>
          if String.eqb ty "" || is_null value || is_undefined value
          then value
          else convert (Chars.toLowerCase ty) fresh value
      end
  end.

(** [_createColumnMap(headerRow)]: one turn of the [forEach] over the keys
    of the header row, [index] counting all of them. *)
Definition column_step (acc : object * nat) (key : string) : object * nat :=
  let (map, index) := acc in
  (if Builtins.startsWith key "_" then map
   else set map key (VNum (Num.of_nat index)),
   S index).

Definition _createColumnMap (headerRow : object) : object :=
  fst (fold_left column_step (List.map fst headerRow) ([], O)).

(** [if (!headers.includes(name)) headers.push(name)] *)
Definition push_new (headers : list string) (name : string) : list string :=
  if existsb (String.eqb name) headers then headers else headers ++ [name].

(** [_getHeaderValues()] of a model whose schema is [schema] and whose
    flag [timestamps] is as given. *)
Definition _getHeaderValues (schema : Utils.schema) (timestamps : bool)
  : list string :=
  let headers := List.map fst schema in
  if timestamps
  then push_new (push_new headers "createdAt") "updatedAt"
  else headers.

(** One turn of the [forEach] of [_rowToObject] over the entries of the
    row; a conversion may create a Date, so each turn has an identity of
    its own to give. *)
Definition convert_entry (schema : Utils.schema) (acc : object * ident)
  (entry : string * value) : object * ident :=
  let (obj, fresh) := acc in
  let (key, value) := entry in
  if Builtins.startsWith key "_" then (obj, S fresh)
  else (set obj key (_convertValueType schema fresh key value), S fresh).

(** [_rowToObject(row)], the row being the object of identity [id].  The
    property [_row] that [Object.defineProperty] adds is not enumerable;
    an object of the model has no such attribute, and the entry is its
    last one.  The library reads the result by property name only. *)
Definition _rowToObject (schema : Utils.schema) (fresh : ident) (id : ident)
  (row : object) : object :=
  set (fst (fold_left (convert_entry schema) row ([], fresh)))
      "_row" (VObj id row).

(** The [switch] of [_filterRows] on one operator of a condition. *)
Definition operator_holds (value : value) (entry : string * JS.value)
  : bool :=
  let (operator, target) := entry in
  if String.eqb operator "eq" then strict_eq value target
  else if String.eqb operator "ne" then negb (strict_eq value target)
  else if String.eqb operator "gt" then Builtins.gt value target
  else if String.eqb operator "gte" then Builtins.ge value target
  else if String.eqb operator "lt" then Builtins.lt value target
  else if String.eqb operator "lte" then Builtins.le value target
  else if String.eqb operator "contains"
  then Builtins.includes (String_ value) (String_ target)
  else if String.eqb operator "startsWith"
  then Builtins.startsWith (String_ value) (String_ target)
  else if String.eqb operator "endsWith"
  then Builtins.endsWith (String_ value) (String_ target)
  else if String.eqb operator "in" then
    match target with
    | VArr _ elems => existsb (same_value_zero value) elems
    | _ => false
    end
  else if String.eqb operator "nin" then
    match target with
    | VArr _ elems => negb (existsb (same_value_zero value) elems)
    | _ => false
    end
  else if String.eqb operator "exists" then
    if truthy target
    then negb (is_null value) && negb (is_undefined value)
    else is_null value || is_undefined value
  else false.

(** The callback of [every] in [_filterRows]: one entry of the search on
    one row.  A Date is an object without entries. *)
Definition row_matches (row : object) (entry : string * value) : bool :=
  let (field, condition) := entry in
  let value := get row field in
  match condition with
  | VNull => is_null value || strict_eq value (VStr "")
  | VArr _ elems => existsb (same_value_zero value) elems
  | VObj _ props => forallb (operator_holds value) props
  | VDate _ _ => true
  | _ => strict_eq value condition
  end.

Definition _filterRows (rows : list object) (search : object)
  : list object :=
  match search with
  | [] => rows
  | _ :: _ => List.filter (fun row => forallb (row_matches row) search) rows
  end.

(** The comparator of [_sortRows].  Each call converts the two cells, and
    the Dates that it may create are two new objects. *)
Definition compare_rows (schema : Utils.schema) (fresh : ident)
  (field : string) (isDesc : bool) (a b : object) : number :=
  let aVal := _convertValueType schema fresh field (get a field) in
  let bVal := _convertValueType schema (S fresh) field (get b field) in
  if strict_eq aVal bVal then Num.zero
  else if is_null aVal then (if isDesc then Num.Fin (-1) 0 else Num.Fin 1 0)
  else if is_null bVal then (if isDesc then Num.Fin 1 0 else Num.Fin (-1) 0)
  else
    let comparison :=
      if Builtins.lt aVal bVal then Num.Fin (-1) 0 else Num.Fin 1 0 in
    if isDesc then Num.neg_num comparison else comparison.

(** The type of the field is json: the comparator then compares objects
    that [JSON.parse] creates, whose identities the model does not
    have. *)
Definition parsed (schema : Utils.schema) (field : string) : bool :=
  match lookup schema field with
  | Some settings =>
      match Utils.type settings with
      | Some ty => String.eqb (Chars.toLowerCase ty) "json"
      | None => false
      end
  | None => false
  end.

(** [const [field, direction = 'asc'] = orderBy.split(':')], and
    [isDesc]. *)
Definition order_of (orderBy : string) : string * bool :=
  let parts := Builtins.split orderBy ":" in
  let field := hd "" parts in
  let direction := hd "asc" (tl parts) in
  (field, String.eqb (Chars.toLowerCase direction) "desc").

(** [_sortRows(rows, orderBy)] *)
Definition _sortRows (schema : Utils.schema) (fresh : ident)
  (rows : list object) (orderBy : string) : outcome (list object) :=
  let (field, isDesc) := order_of orderBy in
  if parsed schema field then Unmodelled
  else Ok (sort (compare_rows schema fresh field isDesc) rows).

(** [_selectFields(obj, fields)]; a field names the property that its
    string is the key of. *)
Definition select_step (obj selected : object) (field : value) : object :=
  if negb (is_undefined (get obj (ToString field)))
  then set selected (ToString field) (get obj (ToString field))
  else selected.

Definition _selectFields (obj : object) (fields : value) : object :=
  match fields with
  | VArr _ (field :: rest) => fold_left (select_step obj) (field :: rest) []
  | _ => obj
  end.

End WithHost.

Arguments convert {H} t fresh%_nat value.
Arguments _convertValueType {H} schema fresh%_nat field value.
Arguments _rowToObject {H} schema fresh%_nat id%_nat row.
Arguments compare_rows {H} schema fresh%_nat field isDesc a b.
Arguments _sortRows {H} schema fresh%_nat rows orderBy.

End Model.

(** ** lib/model.js, the base model

    The second class [Model] of the file, which queries the rows of its
    sheet with the functions of [lib/utils.js].  Its [_getHeaderValues] is
    that of [Model]. *)
Module BaseModel.
Import JS.

(** The message of an error that the library throws; the message of a
    TypeError or SyntaxError is the engine's. *)
Definition message (e : error) : option string :=
  match e with
  | Error m => Some m
  | _ => None
  end.

(** [try { ... } catch (error) { throw new Error(context + error.message) }] *)
Definition rethrow {A} (context : string) (x : outcome A) : outcome A :=
  match x with
  | Throws e =>
      match message e with
      | Some m => Throws (Error (context ++ m))
      | None => Unmodelled
      end
  | _ => x
  end.

Section WithHost.
Context `{Host}.

(** The fields that the constructor sets from its options. *)
Record model := {
  sheetName : string;
  primaryKey : string;
  schema : Utils.schema;
  timestamps : bool
}.

(** The options of the constructor: [None] is a property that is
    undefined, and [opt_timestamps] is the value of the property. *)
Record model_options := {
  opt_sheetName : option string;
  opt_primaryKey : option string;
  opt_schema : option Utils.schema;
  opt_timestamps : value
}.

(** [x || y], [x] being a string or undefined. *)
Definition or_else (x : option string) (y : string) : string :=
  match x with
  | Some s => if String.eqb s "" then y else s
  | None => y
  end.

(** [new Model(connection, options)]; the name of the class is
    ["Model"]. *)
Definition new (options : model_options) : model :=
  {| sheetName := or_else (opt_sheetName options) "Model";
     primaryKey := or_else (opt_primaryKey options) "id";
     schema := match opt_schema options with
               | Some schema => schema
               | None => []
               end;
     timestamps := negb (strict_eq (opt_timestamps options) (VBool false)) |}.

(** The first [forEach] of [_rowToObject]: the properties of the row whose
    key does not start with an underscore are copied. *)
Definition copy_entry (obj : object) (entry : string * value) : object :=
  let (key, value) := entry in
  if Builtins.startsWith key "_" then obj else set obj key value.

(** The second [forEach], over the schema: a property that is there is
    converted to the type of its field.  A turn has an identity to give to
    the Date it may create. *)
Definition convert_field (acc : object * ident)
  (entry : string * Utils.settings) : object * ident :=
  let (obj, fresh) := acc in
  let (field, settings) := entry in
  (match Utils.type settings with
   | Some ty =>
       if negb (is_undefined (get obj field)) && negb (String.eqb ty "")
       then
         let t := Chars.toLowerCase ty in
         if String.eqb t "number" then
           set obj field (VNum (parseFloat (get obj field)))
         else if String.eqb t "boolean" then
           match typeof (get obj field) with
           | t_boolean => obj
           | _ =>
               set obj field
                 (VBool (strict_eq (get obj field) (VBool true)
                         || strict_eq (get obj field) (VStr "true")
                         || strict_eq (get obj field) (VStr "1")))
           end
         else if String.eqb t "date" then
           match get obj field with
           | VDate _ _ => obj
           | v => set obj field (Date_new fresh v)
           end
         else obj
       else obj
   | None => obj
   end,
   S fresh).

(** [_rowToObject(row)], the row being the object of identity [id]; the
    property [_row], which is not enumerable, is the last entry of the
    result, as in [Model._rowToObject]. *)
Definition _rowToObject (self : model) (fresh : ident) (id : ident)
  (row : object) : object :=
  let obj := fold_left copy_entry row [] in
  let obj := fst (fold_left convert_field (schema self) (obj, fresh)) in
  set obj "_row" (VObj id row).

(** [rows.map(row => this._rowToObject(row))]: the rows are objects with
    their identities, and the Dates of each result have identities of
    their own. *)
Fixpoint objects (self : model) (fresh : ident)
  (rows : list (ident * object)) : list object :=
  match rows with
  | [] => []
  | (id, row) :: rest =>
      _rowToObject self fresh id row
      :: objects self (fresh + List.length (schema self))%nat rest
  end.

(** [findAll(options)], [rows] being what [getRows] resolves to. *)
Definition findAll (self : model) (fresh : ident)
  (rows : list (ident * object)) (options : Utils.options)
  : outcome (list object) :=
  rethrow ("Error finding records in " ++ sheetName self ++ ": ")
    (Utils.applyQueryOptions (objects self fresh rows) options).

(** [findById(id)]: the record, or [None] for null. *)
Definition findById (self : model) (fresh : ident)
  (rows : list (ident * object)) (id : value) : outcome (option object) :=
  rethrow ("Error finding record by ID in " ++ sheetName self ++ ": ")
    (bind (findAll self fresh rows
             {| Utils.where_ := Some [(primaryKey self, id)];
                Utils.orderBy := None;
                Utils.limit := None;
                Utils.offset := None |})
          (fun results => Ok (hd_error results))).

(** [find(criteria)]; [None] is a call without criteria. *)
Definition find (self : model) (fresh : ident)
  (rows : list (ident * object)) (criteria : option Utils.criteria)
  : outcome (list object) :=
  findAll self fresh rows
    {| Utils.where_ := criteria;
       Utils.orderBy := None;
       Utils.limit := None;
       Utils.offset := None |}.

(** [count(criteria)], whose criteria are [{}] by default. *)
Definition count (self : model) (fresh : ident)
  (rows : list (ident * object)) (criteria : option Utils.criteria)
  : outcome number :=
  bind (find self fresh rows
          (Some match criteria with Some c => c | None => [] end))
       (fun results => Ok (Num.of_nat (List.length results))).

End WithHost.

Arguments _rowToObject {H} self fresh%_nat id%_nat row.
Arguments objects {H} self fresh%_nat rows.
Arguments findAll {H} self fresh%_nat rows options.
Arguments findById {H} self fresh%_nat rows id.
Arguments find {H} self fresh%_nat rows criteria.
Arguments count {H} self fresh%_nat rows criteria.

End BaseModel.

(** ** lib/orm.js

    The models that a connection has defined, by name. *)
Module ORM.
Import JS.

(** The properties that the object of the models inherits: a lookup of
    one of these names finds a function of the language, which the model
    does not have. *)
Definition inherited : list string :=
  ["constructor"; "hasOwnProperty"; "isPrototypeOf"; "propertyIsEnumerable";
   "toLocaleString"; "toString"; "valueOf"; "__proto__";
   "__defineGetter__"; "__defineSetter__"; "__lookupGetter__";
   "__lookupSetter__"].

(** [new GoogleSheetsORM(config)]: the identifier of the spreadsheet is
    required; the connection starts without models. *)
Definition GoogleSheetsORM {M : Type} (spreadsheetId : option string)
  : outcome (list (string * M)) :=
  match spreadsheetId with
  | Some id =>
      if String.eqb id "" then Throws (Error "spreadsheetId is required")
      else Ok []
  | None => Throws (Error "spreadsheetId is required")
  end.

(** [models[name] = m] *)
Fixpoint put {M : Type} (models : list (string * M)) (name : string) (m : M)
  : list (string * M) :=
  match models with
  | [] => [(name, m)]
  | (name', m') :: models' =>
      if String.eqb name' name then (name, m) :: models'
      else (name', m') :: put models' name m
  end.

Section WithHost.
Context `{Host}.

(** The object [this.models]. *)
Definition registry := list (string * BaseModel.model).

(** [defineModel(modelName, options)]: the models after the call and the
    model created. *)
Definition defineModel (models : registry) (modelName : string)
  (options : BaseModel.model_options)
  : outcome (registry * BaseModel.model) :=
  if existsb (String.eqb modelName) inherited then Unmodelled
  else
    match lookup models modelName with
    | Some _ =>
        Throws (Error ("Model '" ++ modelName ++ "' already defined"))
    | None =>
        let created :=
          BaseModel.new
            {| BaseModel.opt_sheetName :=
                 Some (BaseModel.or_else (BaseModel.opt_sheetName options)
                         modelName);
               BaseModel.opt_primaryKey :=
                 Some (BaseModel.or_else (BaseModel.opt_primaryKey options)
                         "id");
               BaseModel.opt_schema :=
                 Some match BaseModel.opt_schema options with
                      | Some schema => schema
                      | None => []
                      end;
               BaseModel.opt_timestamps :=
                 VBool (negb (strict_eq (BaseModel.opt_timestamps options)
                                (VBool false))) |} in
        Ok (put models modelName created, created)
    end.

(** [model(name)] *)
Definition model (models : registry) (name : string)
  : outcome BaseModel.model :=
  if existsb (String.eqb name) inherited then Unmodelled
  else
    match lookup models name with
    | Some found => Ok found
    | None => Throws (Error ("Model '" ++ name ++ "' not found"))
    end.

End WithHost.
End ORM.

(** ** A host

    An instance of [Host] on which the library can be run: a JSON parser
    for texts whose strings stay below code unit 256, the date-time string
    format of ECMAScript in UTC, the text of a date in UTC, the collation
    by code units that [localeCompare] has without locale data, and a clock
    as the state of the runtime. *)
Module Reference.
Import Chars JS.

(** *** JSON.parse *)

Definition json_space (c : ascii) : bool :=
  let n := code c in (n =? 32) || (n =? 9) || (n =? 10) || (n =? 13).

Fixpoint skip_ws (l : chars) : chars :=
  match l with
  | c :: l' => if json_space c then skip_ws l' else l
  | [] => []
  end.

(** The quotation mark. *)
Definition dquote : ascii := ascii_of_nat 34.

Definition hex4 (a b c d : ascii) : option Z :=
  match Num.hex_val a, Num.hex_val b, Num.hex_val c, Num.hex_val d with
  | Some x, Some y, Some z, Some t => Some (((x * 16 + y) * 16 + z) * 16 + t)
  | _, _, _, _ => None
  end.

Definition escape (c : ascii) : option ascii :=
  if Ascii.eqb c dquote then Some dquote
  else if Ascii.eqb c "\" then Some "\"%char
  else if Ascii.eqb c "/" then Some "/"%char
  else if Ascii.eqb c "b" then Some (ascii_of_nat 8)
  else if Ascii.eqb c "f" then Some (ascii_of_nat 12)
  else if Ascii.eqb c "n" then Some (ascii_of_nat 10)
  else if Ascii.eqb c "r" then Some (ascii_of_nat 13)
  else if Ascii.eqb c "t" then Some (ascii_of_nat 9)
  else None.

(** The characters of a JSON string after its opening quote, up to its
    closing quote. *)
Fixpoint json_string (l : chars) : option (chars * chars) :=
  match l with
  | [] => None
  | c :: l' =>
      if Ascii.eqb c dquote then Some ([], l')
      else if Ascii.eqb c "\" then
        match l' with
        | e :: l2 =>
            if Ascii.eqb e "u" then
              match l2 with
              | a :: b :: c' :: d :: l3 =>
                  match hex4 a b c' d with
                  | Some n =>
                      if n <? 256 then
                        match json_string l3 with
                        | Some (s, r) =>
                            Some (ascii_of_nat (Z.to_nat n) :: s, r)
                        | None => None
                        end
                      else None
                  | None => None
                  end
              | _ => None
              end
            else
              match escape e, json_string l2 with
              | Some x, Some (s, r) => Some (x :: s, r)
              | _, _ => None
              end
        | [] => None
        end
      else if code c <? 32 then None
      else match json_string l' with
           | Some (s, r) => Some (c :: s, r)
           | None => None
           end
  end.

(** A JSON number: [-]? int frac? exp?, no leading zero, digits after the
    point and after the exponent mark. *)
Definition json_number (l : chars) : option (number * chars) :=
  let (neg, l1) :=
    match l with
    | c :: l' => if Ascii.eqb c "-" then (true, l') else (false, l)
    | [] => (false, l)
    end in
  let (ip, r1) := span_digits l1 in
  match ip with
  | [] => None
  | d :: more =>
      if Ascii.eqb d "0" && negb (Nat.eqb (List.length more) 0) then None
      else
        let frac :=
          match r1 with
          | c :: r =>
              if Ascii.eqb c "." then
                match span_digits r with
                | ([], _) => None
                | (fp, r2) => Some (fp, r2)
                end
              else Some ([], r1)
          | [] => Some ([], r1)
          end in
        match frac with
        | None => None
        | Some (fp, r2) =>
            let expo :=
              match r2 with
              | c :: r =>
                  if Ascii.eqb c "e" || Ascii.eqb c "E" then
                    let (eneg, r') := Num.parse_sign r in
                    match span_digits r' with
                    | ([], _) => None
                    | (ds, r3) =>
                        Some (Num.signed eneg (digits_value ds), r3)
                    end
                  else Some (0, r2)
              | [] => Some (0, r2)
              end in
            match expo with
            | None => None
            | Some (ex, r3) =>
                Some (Num.fin (Num.signed neg (digits_value (ip ++ fp)))
                              (ex - Z.of_nat (List.length fp)), r3)
            end
        end
  end.

(** A JSON value at the head of [l]; the identity of an array or object is
    the number of characters left at its opening bracket. *)
Fixpoint json_value (fuel : nat) (l : chars) : option (value * chars) :=
  match fuel with
  | O => None
  | S f =>
      match skip_ws l with
      | [] => None
      | c :: r =>
          if Ascii.eqb c "{" then
            match skip_ws r with
            | c' :: r' =>
                if Ascii.eqb c' "}" then Some (VObj (List.length r) [], r')
                else
                  match json_members f (skip_ws r) [] with
                  | Some (props, rest) =>
                      Some (VObj (List.length r) props, rest)
                  | None => None
                  end
            | [] => None
            end
          else if Ascii.eqb c "[" then
            match skip_ws r with
            | c' :: r' =>
                if Ascii.eqb c' "]" then Some (VArr (List.length r) [], r')
                else
                  match json_elements f r with
                  | Some (elems, rest) =>
                      Some (VArr (List.length r) elems, rest)
                  | None => None
                  end
            | [] => None
            end
          else if Ascii.eqb c dquote then
            match json_string r with
            | Some (s, rest) => Some (VStr (to_string s), rest)
            | None => None
            end
          else
            match prefix (of_string "true") (c :: r),
                  prefix (of_string "false") (c :: r),
                  prefix (of_string "null") (c :: r) with
            | Some rest, _, _ => Some (VBool true, rest)
            | _, Some rest, _ => Some (VBool false, rest)
            | _, _, Some rest => Some (VNull, rest)
            | None, None, None =>
                match json_number (c :: r) with
                | Some (n, rest) => Some (VNum n, rest)
                | None => None
                end
            end
      end
  end
with json_elements (fuel : nat) (l : chars)
  : option (list value * chars) :=
  match fuel with
  | O => None
  | S f =>
      match json_value f l with
      | Some (v, rest) =>
          match skip_ws rest with
          | c :: r =>
              if Ascii.eqb c "]" then Some ([v], r)
              else if Ascii.eqb c "," then
                match json_elements f r with
                | Some (vs, r') => Some (v :: vs, r')
                | None => None
                end
              else None
          | [] => None
          end
      | None => None
      end
  end
with json_members (fuel : nat) (l : chars) (acc : object)
  : option (object * chars) :=
  match fuel with
  | O => None
  | S f =>
      match skip_ws l with
      | q :: r =>
          if Ascii.eqb q dquote then
            match json_string r with
            | Some (k, r1) =>
                match skip_ws r1 with
                | c :: r2 =>
                    if Ascii.eqb c ":" then
                      match json_value f r2 with
                      | Some (v, r3) =>
                          let acc' := set acc (to_string k) v in
                          match skip_ws r3 with
                          | c' :: r4 =>
                              if Ascii.eqb c' "}" then Some (acc', r4)
                              else if Ascii.eqb c' ","
                              then json_members f r4 acc'
                              else None
                          | [] => None
                          end
                      | None => None
                      end
                    else None
                | [] => None
                end
            | None => None
            end
          else None
      | [] => None
      end
  end.

(** [JSON.parse(text)]; [None] is a SyntaxError. *)
Definition JSON_parse (text : string) : option value :=
  let l := of_string text in
  match json_value (S (List.length l)) l with
  | Some (v, rest) =>
      match skip_ws rest with
      | [] => Some v
      | _ :: _ => None
      end
  | None => None
  end.

(** *** Dates *)

Definition ms_per_day : Z := 86400000.

(** Days since 1970-01-01 of a date of the proleptic Gregorian calendar. *)
Definition days_from_civil (y m d : Z) : Z :=
  let y := if m <=? 2 then y - 1 else y in
  let era := y / 400 in
  let yoe := y - era * 400 in
  let doy := (153 * (if 2 <? m then m - 3 else m + 9) + 2) / 5 + d - 1 in
  let doe := yoe * 365 + yoe / 4 - yoe / 100 + doy in
  era * 146097 + doe - 719468.

(** Year, month and day of a number of days since 1970-01-01. *)
Definition civil_from_days (z : Z) : Z * Z * Z :=
  let z := z + 719468 in
  let era := z / 146097 in
  let doe := z - era * 146097 in
  let yoe := (doe - doe / 1460 + doe / 36524 - doe / 146096) / 365 in
  let y := yoe + era * 400 in
  let doy := doe - (365 * yoe + yoe / 4 - yoe / 100) in
  let mp := (5 * doy + 2) / 153 in
  let d := doy - (153 * mp + 2) / 5 + 1 in
  let m := if mp <? 10 then mp + 3 else mp - 9 in
  ((if m <=? 2 then y + 1 else y), m, d).

Definition leap (y : Z) : bool :=
  ((y mod 4 =? 0) && negb (y mod 100 =? 0)) || (y mod 400 =? 0).

Definition days_in_month (y m : Z) : Z :=
  if m =? 2 then (if leap y then 29 else 28)
  else if (m =? 4) || (m =? 6) || (m =? 9) || (m =? 11) then 30
  else 31.

(** Exactly [n] digits. *)
Fixpoint field (n : nat) (acc : Z) (l : chars) : option (Z * chars) :=
  match n with
  | O => Some (acc, l)
  | S n' =>
      match l with
      | c :: l' =>
          if is_digit c then field n' (10 * acc + digit_val c) l' else None
      | [] => None
      end
  end.

(** [sep] and then [n] digits, or [dflt] when [l] does not start with
    [sep]. *)
Definition opt_field (sep : ascii) (n : nat) (dflt : Z) (l : chars)
  : option (Z * chars) :=
  match l with
  | c :: l' => if Ascii.eqb c sep then field n 0 l' else Some (dflt, l)
  | [] => Some (dflt, l)
  end.

(** The time of day [THH:mm], [THH:mm:ss] or [THH:mm:ss.sss] followed by
    [Z], in milliseconds. *)
Definition time_of_day (l : chars) : option Z :=
  match field 2 0 l with
  | Some (h, c :: l1) =>
      if Ascii.eqb c ":" then
        match field 2 0 l1 with
        | Some (mi, l2) =>
            match opt_field ":" 2 0 l2 with
            | Some (sec, l3) =>
                match opt_field "." 3 0 l3 with
                | Some (ms, [z]) =>
                    if Ascii.eqb z "Z"
                       && (((h <=? 23) && (mi <=? 59) && (sec <=? 59))
                           || ((h =? 24) && (mi =? 0) && (sec =? 0)
                               && (ms =? 0)))
                    then Some (((h * 60 + mi) * 60 + sec) * 1000 + ms)
                    else None
                | _ => None
                end
            | None => None
            end
        | None => None
        end
      else None
  | _ => None
  end.

(** [Date.parse]: the forms [YYYY], [YYYY-MM], [YYYY-MM-DD], alone or with
    a time of day in UTC; anything else is NaN. *)
Definition Date_parse (text : string) : number :=
  match field 4 0 (of_string text) with
  | Some (y, l1) =>
      match opt_field "-" 2 1 l1 with
      | Some (m, l2) =>
          match opt_field "-" 2 1 l2 with
          | Some (d, l3) =>
              if (1 <=? m) && (m <=? 12) && (1 <=? d)
                 && (d <=? days_in_month y m)
              then
                let day := days_from_civil y m d * ms_per_day in
                match l3 with
                | [] => Num.of_Z day
                | c :: l4 =>
                    if Ascii.eqb c "T" then
                      match time_of_day l4 with
                      | Some t => Num.of_Z (day + t)
                      | None => Num.NaN
                      end
                    else Num.NaN
                end
              else Num.NaN
          | None => Num.NaN
          end
      | None => Num.NaN
      end
  | None => Num.NaN
  end.

Definition pad (width : nat) (n : Z) : string :=
  let ds := digits_of n in
  to_string (repeat "0"%char (width - List.length ds) ++ ds).

Definition weekday (n : Z) : string :=
  nth (Z.to_nat n) ["Sun"; "Mon"; "Tue"; "Wed"; "Thu"; "Fri"; "Sat"] "".

Definition month (n : Z) : string :=
  nth (Z.to_nat (n - 1))
      ["Jan"; "Feb"; "Mar"; "Apr"; "May"; "Jun";
       "Jul"; "Aug"; "Sep"; "Oct"; "Nov"; "Dec"] "".

(** Date.prototype.toString in UTC. *)
Definition Date_toString (t : number) : string :=
  match t with
  | Num.Fin m e =>
      let tv := Num.trunc m e in
      let days := tv / ms_per_day in
      let ms := tv mod ms_per_day in
      let '(y, mo, d) := civil_from_days days in
      let hh := pad 2 (ms / 3600000) in
      let mm := pad 2 (ms / 60000 mod 60) in
      let ss := pad 2 (ms / 1000 mod 60) in
      let sign := if y <? 0 then "-" else "" in
      (weekday ((days + 4) mod 7) ++ " " ++ month mo ++ " " ++ pad 2 d
         ++ " " ++ sign ++ pad 4 (Z.abs y) ++ " " ++ hh ++ ":" ++ mm ++ ":"
         ++ ss ++ " GMT+0000 (Coordinated Universal Time)")%string
  | _ => "Invalid Date"
  end.

(** *** localeCompare without locale data: the order of the code units *)
Fixpoint compare_chars (a b : chars) : Z :=
  match a, b with
  | [], [] => 0
  | [], _ :: _ => -1
  | _ :: _, [] => 1
  | x :: a', y :: b' =>
      if code x <? code y then -1
      else if code y <? code x then 1
      else compare_chars a' b'
  end.

Definition localeCompare (a b : string) : Z :=
  compare_chars (of_string a) (of_string b).

(** The state of the runtime is its clock, in milliseconds. *)
#[global] Instance host : Host := {|
  world := Z;
  JS.JSON_parse := JSON_parse;
  JS.Date_parse := Date_parse;
  JS.Date_toString := Date_toString;
  JS.localeCompare := localeCompare;
  JSON_parse_false := eq_refl;
  Date_parse_null := eq_refl
|}.

End Reference.

(** ** The behaviour the specification describes

    Definitions that follow the words of the specification, to be compared
    with the functions of the library. *)
Module Described.
Import Chars JS Utils.

(** *** Equivalent values

    Two values are equivalent when they have the same contents: identities
    of objects are ignored and a number counts by its value. *)
Fixpoint canon (v : value) : value :=
  match v with
  | VNum n => VNum (Num.normalize n)
  | VDate _ t => VDate O (Num.normalize t)
  | VArr _ elems => VArr O (map canon elems)
  | VObj _ props => VObj O (map (fun kv => (fst kv, canon (snd kv))) props)
  | _ => v
  end.

Definition equivalent (a b : value) : Prop := canon a = canon b.

(** *** Operators of a condition *)

Definition recognized : list string :=
  ["$eq"; "$ne"; "$gt"; "$gte"; "$lt"; "$lte"; "$in"; "$nin"; "$like"].

(** The object has none of the recognized operator keys. *)
Definition no_operator (props : object) : bool :=
  forallb (fun op => match lookup props op with
                     | None => true
                     | Some _ => false
                     end) recognized.

(** The records whose value for [key] is loosely equal to the plain
    object of identity [id]: that object itself, or the string that it
    converts to. *)
Definition equals_object (id : ident) (key : string) (record : object)
  : bool :=
  match get record key with
  | VStr s => String.eqb s "[object Object]"
  | VObj j _ => Nat.eqb j id
  | _ => false
  end.

(** The operator that is honored: the first of the priority list whose
    property is defined. *)
Definition honored (props : object) : option (string * value) :=
  match List.find (fun op => defined (get props op)) recognized with
  | Some op => Some (op, get props op)
  | None => None
  end.

Inductive relop := op_gt | op_gte | op_lt | op_lte.

Definition relop_name (op : relop) : string :=
  match op with
  | op_gt => "$gt"
  | op_gte => "$gte"
  | op_lt => "$lt"
  | op_lte => "$lte"
  end.

Definition relop_holds (op : relop) (x y : number) : bool :=
  match op with
  | op_gt => Num.gt x y
  | op_gte => Num.ge x y
  | op_lt => Num.lt x y
  | op_lte => Num.le x y
  end.

(** *** [$like] as a pattern: [%] stands for any run of characters that
    [any] admits, every other character for itself up to case; the pattern
    may match anywhere in the text. *)
Definition same_letter (c d : ascii) : bool :=
  Ascii.eqb (canonicalize c) (canonicalize d).

Fixpoint like_at (any : ascii -> bool) (p : chars) : chars -> bool :=
  match p with
  | [] => fun _ => true
  | c :: p' =>
      if Ascii.eqb c "%" then
        fix run (s : chars) {struct s} : bool :=
          like_at any p' s
          || match s with
             | d :: s' => any d && run s'
             | [] => false
             end
      else fun s =>
        match s with
        | d :: s' => same_letter c d && like_at any p' s'
        | [] => false
        end
  end.

Fixpoint like_anywhere (any : ascii -> bool) (p s : chars) : bool :=
  like_at any p s
  || match s with
     | _ :: s' => like_anywhere any p s'
     | [] => false
     end.

Definition not_line_terminator (c : ascii) : bool :=
  negb (is_line_terminator c).

(** [%] is zero or more of any character. *)
Definition like_any (pattern text : string) : bool :=
  like_anywhere (fun _ => true) (of_string pattern) (of_string text).

(** [%] is zero or more of any character but a line terminator. *)
Definition like_line (pattern text : string) : bool :=
  like_anywhere not_line_terminator (of_string pattern) (of_string text).

(** The pattern has no syntax character of regular expressions. *)
Definition plain_chars (p : chars) : bool :=
  forallb (fun c => negb (Regex.syntax_char c)) p.

Definition plain (pattern : string) : bool :=
  plain_chars (of_string pattern).

(** The regular expression of a plain pattern. *)
Definition terms (p : chars) : Regex.regex :=
  map (fun c => if Ascii.eqb c "%" then Regex.Star Regex.Dot
                else Regex.One (Regex.Char c)) p.

(** *** The verdict of the comparator on one key *)
Inductive verdict :=
| First      (**r [a] sorts before [b] *)
| Second     (**r [a] sorts after [b] *)
| NextKey    (**r equal on this key: the next key decides *)
| Tie.       (**r the comparison ends with [a] and [b] as equals *)

Definition verdict_of (r : option number) : verdict :=
  match r with
  | None => NextKey
  | Some r =>
      if Num.lt r Num.zero then First
      else if Num.gt r Num.zero then Second
      else Tie
  end.

Definition descending (direction : string) : bool :=
  String.eqb (toLowerCase direction) "desc".

Definition directed (desc : bool) (c : comparison) : verdict :=
  match c with
  | Lt => if desc then Second else First
  | Gt => if desc then First else Second
  | Eq => NextKey
  end.

Definition finite (x : number) : bool :=
  match x with Num.Fin _ _ => true | _ => false end.

Section WithHost.
Context `{Host}.

Definition string_verdict (desc : bool) (a b : value) : verdict :=
  directed desc (localeCompare (String_ (or_empty a))
                               (String_ (or_empty b)) ?= 0).

(** Numeric when both values parse as finite numbers, otherwise a
    comparison of strings. *)
Definition key_verdict_finite (a b : object) (entry : string * string)
  : verdict :=
  let (field, direction) := entry in
  let x := parseFloat (get a field) in
  let y := parseFloat (get b field) in
  if finite x && finite y
  then match Num.compare x y with
       | Some c => directed (descending direction) c
       | None => NextKey
       end
  else string_verdict (descending direction) (get a field) (get b field).

(** Numeric when neither value parses to NaN; two equal infinities end
    the comparison. *)
Definition key_verdict (a b : object) (entry : string * string)
  : verdict :=
  let (field, direction) := entry in
  let x := parseFloat (get a field) in
  let y := parseFloat (get b field) in
  match Num.compare x y with
  | Some Eq => if finite x then NextKey else Tie
  | Some c => directed (descending direction) c
  | None => string_verdict (descending direction) (get a field) (get b field)
  end.

(** *** The checks of the validator, field by field

    What [validateData] checks, described in its own words: the type that
    a field declares, what each type accepts, the bounds and the lengths.
    The function [validate] of a field is not part of it. *)

Definition when (c : bool) (message : string) : list string :=
  if c then [message] else [].

Definition missing (v : value) : bool :=
  is_undefined v || is_null v || strict_eq v (VStr "").

Definition bound_rule (violated : number -> bool)
  (message : number -> string) (bound : option number) : list string :=
  match bound with
  | Some b => when (violated b) (message b)
  | None => []
  end.

(** The type of the field is declared as [name], in these very letters. *)
Definition declared (s : settings) (name : string) : bool :=
  match type s with
  | Some ty => String.eqb ty name
  | None => false
  end.

(** One of the four texts that stand for a boolean. *)
Definition token (v : value) : bool :=
  match v with
  | VStr s => existsb (String.eqb s) ["true"; "false"; "1"; "0"]
  | _ => false
  end.

(** What the type check accepts for a type named [ty] in any case of
    letters: for a string a string; for a number a number, or a value
    that converts to a number other than NaN; for a boolean a boolean or
    a token; for a date a Date, or a value whose text [Date.parse] reads;
    anything for another type. *)
Definition accepts (ty : string) (v : value) : bool :=
  let t := toLowerCase ty in
  if String.eqb t "string" then
    match v with VStr _ => true | _ => false end
  else if String.eqb t "number" then
    match v with VNum _ => true | _ => negb (Num.isNaN (ToNumber v)) end
  else if String.eqb t "boolean" then
    match v with VBool _ => true | _ => token v end
  else if String.eqb t "date" then
    match v with
    | VDate _ _ => true
    | _ => negb (Num.isNaN (Date_parse (ToString v)))
    end
  else true.

Definition type_rule (field : string) (s : settings) (v : value)
  : list string :=
  match type s with
  | Some ty =>
      when (negb (String.eqb ty "") && negb (accepts ty v))
           (msg_type field ty)
  | None => []
  end.

Definition number_rules (field : string) (s : settings) (v : value)
  : list string :=
  if declared s "number" then
    bound_rule (Num.lt (Number v)) (msg_min field) (min s)
    ++ bound_rule (Num.gt (Number v)) (msg_max field) (max s)
  else [].

Definition string_rules (field : string) (s : settings) (v : value)
  : list string :=
  if declared s "string" then
    let len := Num.of_nat (String.length (String_ v)) in
    bound_rule (Num.lt len) (msg_minLength field) (minLength s)
    ++ bound_rule (Num.gt len) (msg_maxLength field) (maxLength s)
  else [].

(** The messages of the rules that one field violates. *)
Definition field_violations (data : object) (partial : bool)
  (entry : string * settings) : list string :=
  let (field, s) := entry in
  let v := get data field in
  when (negb partial && required s && missing v) (msg_required field)
  ++ (if is_undefined v then []
      else type_rule field s v ++ number_rules field s v
           ++ string_rules field s v).

(** The messages of all violated rules, in the order of the schema. *)
Definition violations (data : object) (partial : bool) (schema : schema)
  : list string :=
  flat_map (field_violations data partial) schema.

(** [number] accepts numeric values and strings parseable as a finite
    number. *)
Definition number_accepts (v : value) : bool :=
  match v with
  | VNum _ => true
  | VStr s => finite (Num.of_string s)
  | _ => false
  end.

(** *** The rules of the validator in the words of the specification

    The six rules of the schema validator, as the specification has
    them: what a candidate violates, field by field. *)
Inductive rule :=
| Required
| OfType
| AtLeast
| AtMost
| LengthAtLeast
| LengthAtMost
| Custom.






(** *** A field whose value is null

    What full validation reports on it: the required rule fires; the type
    check runs, and null is no string, no boolean and no date, while it
    counts as the number 0; the bounds of a number field are compared
    with 0, and the lengths of a string field with 4, the length of the
    text of null. *)
Definition null_mistyped (ty : string) : bool :=
  let t := toLowerCase ty in
  String.eqb t "string" || String.eqb t "boolean" || String.eqb t "date".

Definition null_violations (field : string) (s : settings) : list string :=
  when (required s) (msg_required field)
  ++ match type s with
     | Some ty => when (null_mistyped ty) (msg_type field ty)
     | None => []
     end
  ++ (if declared s "number" then
        bound_rule (Num.lt Num.zero) (msg_min field) (min s)
        ++ bound_rule (Num.gt Num.zero) (msg_max field) (max s)
      else [])
  ++ (if declared s "string" then
        bound_rule (Num.lt (Num.of_nat 4)) (msg_minLength field)
          (minLength s)
        ++ bound_rule (Num.gt (Num.of_nat 4)) (msg_maxLength field)
             (maxLength s)
      else []).

(** The messages that the loop of [validateData] has collected after the
    entries [entries], in full validation. *)
Definition reported (data : object) (entries : schema) : list string :=
  fold_left (validate_field data false) entries [].

(** How [validateData] ends, [errors] being what it has collected. *)
Definition verdict_on (errors : list string) : outcome bool :=
  match errors with
  | [] => Ok true
  | _ :: _ =>
      Throws (Error ("Validation failed: " ++ Chars.join ", " errors))
  end.

(** *** Defaults *)

(** The state of the runtime after the generators of [entries] have run
    on the candidate [o]: a generator runs when its field is undefined in
    [o]. *)
Definition advance (o : object) (w : world) (entry : string * settings)
  : world :=
  let (field, s) := entry in
  if is_undefined (get o field) then
    match defaultValue s with
    | Some (Generated g) => snd (g w)
    | _ => w
    end
  else w.

Definition world_after (o : object) (entries : schema) (w : world)
  : world :=
  fold_left (advance o) entries w.

(** The default of a field, the runtime being in state [w]. *)
Definition default_of (s : settings) (w : world) : value :=
  match defaultValue s with
  | None => VUndefined
  | Some (Static v) => v
  | Some (Generated g) => fst (g w)
  end.

(** One turn of the loop of [applyDefaults] on the properties of the
    result. *)
Definition defaulted (acc : object * world) (entry : string * settings)
  : object * world :=
  let (r, w) := acc in
  let (field, s) := entry in
  if negb (is_undefined (get r field)) then acc
  else
    match defaultValue s with
    | None => acc
    | Some (Static v) => if is_undefined v then acc else (set r field v, w)
    | Some (Generated g) => let (v, w') := g w in (set r field v, w')
    end.

(** A field declared number, with no other rule. *)
Definition number_field (ty : string) : settings :=
  {| type := Some ty; required := false; defaultValue := None;
     min := None; max := None; minLength := None; maxLength := None;
     validate := None |}.

(** The stages of a query. *)
Definition filter_stage (w : option criteria) (records : list object)
  : outcome (list object) :=
  match w with
  | Some w => filterRecords records w
  | None => Ok records
  end.

Definition sort_stage (o : option (list (string * string)))
  (records : list object) : list object :=
  match o with
  | Some o => sortRecords records o
  | None => records
  end.

(** [limit] items starting at [offset]. *)
Definition page (limit offset : nat) (records : list object)
  : list object :=
  firstn limit (skipn offset records).

End WithHost.
End Described.

(** ** Notions of the further properties

    Definitions with which the properties of the last part are stated. *)
Module Notions.
Import JS Utils Described.

(** What a callback of [every] or [filter] decides on [x]: its result, and
    false when it throws. *)
Definition holds {A} (f : A -> outcome bool) (x : A) : bool :=
  match f x with
  | Ok b => b
  | _ => false
  end.

(** The operand of an operator is of a type that the operator cannot
    handle: [$in] and [$nin] call [includes], which arrays and strings
    have, and [$like] calls [replace], which strings have. *)
Definition wrong_operand (op : string) (operand : value) : bool :=
  if String.eqb op "$in" || String.eqb op "$nin" then
    match operand with
    | VArr _ _ | VStr _ => false
    | _ => true
    end
  else if String.eqb op "$like" then
    match operand with
    | VStr _ => false
    | _ => true
    end
  else false.

(** A condition that every record can be tested against: the operand of
    its honored operator is of the right type, and a pattern is plain. *)
Definition testable (condition : value) : bool :=
  match condition with
  | VObj _ props =>
      match honored props with
      | Some (op, operand) =>
          negb (wrong_operand op operand)
          && (if String.eqb op "$like"
              then match operand with
                   | VStr pattern => plain pattern
                   | _ => false
                   end
              else true)
      | None => true
      end
  | _ => true
  end.

(** The operators of a condition of [_filterRows]. *)
Definition operators : list string :=
  ["eq"; "ne"; "gt"; "gte"; "lt"; "lte"; "contains"; "startsWith";
   "endsWith"; "in"; "nin"; "exists"].

(** The types that [_rowToObject] of the base model converts to. *)
Definition converted_type (ty : string) : bool :=
  let t := Chars.toLowerCase ty in
  String.eqb t "number" || String.eqb t "boolean" || String.eqb t "date".

(** A converted cell that [_sortRows] orders: null, or a finite number. *)
Definition orderable (v : value) : bool :=
  match v with
  | VNull => true
  | VNum x => finite x
  | _ => false
  end.

(** The order of two such cells: the numbers by their value, then null. *)
Definition cell_le (x y : value) : bool :=
  match x, y with
  | VNum a, VNum b => Num.le a b
  | (VNum _ | VNull), VNull => true
  | _, _ => false
  end.

Section WithHost.
Context `{Host}.

(** The default of the field is a value, or there is none. *)
Definition static (s : settings) : bool :=
  match defaultValue s with
  | Some (Generated _) => false
  | _ => true
  end.

(** The field of the entry is settled in [r]: the loop of [applyDefaults]
    has nothing to do for it. *)
Definition settled (r : object) (entry : string * settings) : Prop :=
  get r (fst entry) <> VUndefined
  \/ defaultValue (snd entry) = None
  \/ defaultValue (snd entry) = Some (Static VUndefined).

End WithHost.
End Notions.

(** ** Inputs of the examples *)
Module Examples.
Import JS Utils.

(** A field with a type and a default, and no other rule. *)
Definition field (ty : string) (dflt : option default) : settings :=
  {| type := Some ty; required := false; defaultValue := dflt;
     min := None; max := None; minLength := None; maxLength := None;
     validate := None |}.

(** [() => new Date()]: the date of the clock, which then moves on. *)
Definition now : default :=
  Generated (H := Reference.host)
    (fun clock : Z => (VDate (Z.to_nat clock) (Num.of_Z clock), clock + 1)).

(** The schema of the tests of [applyDefaults]. *)
Definition user_schema : schema :=
  [("name", field "string" None);
   ("age", field "number" (Some (Static (VNum Num.zero))));
   ("active", field "boolean" (Some (Static (VBool true))));
   ("createdAt", field "date" (Some now))].

(** The schema of the tests of [validateData]. *)
Definition rule (ty : string) (req : bool) (lo hi short long : option Z)
  : settings :=
  {| type := Some ty; required := req; defaultValue := None;
     min := option_map Num.of_Z lo; max := option_map Num.of_Z hi;
     minLength := option_map Num.of_Z short;
     maxLength := option_map Num.of_Z long;
     validate := None |}.

Definition account_schema : schema :=
  [("id", rule "string" true None None None None);
   ("name", rule "string" true None None (Some 2) (Some 100));
   ("email", rule "string" true None None None None);
   ("age", rule "number" false (Some 0) (Some 120) None None);
   ("active", rule "boolean" false None None None None)].

(** The records of the tests of the query functions. *)
Definition person (id name : string) (age : Z) (active : bool)
  (dept : string) : object :=
  [("id", VStr id); ("name", VStr name); ("age", VNum (Num.of_Z age));
   ("active", VBool active); ("dept", VStr dept)].

Definition alice := person "1" "Alice" 30 true "HR".
Definition bob := person "2" "Bob" 25 true "Engineering".
Definition charlie := person "3" "Charlie" 40 false "Sales".
Definition diana := person "4" "Diana" 35 true "Engineering".
Definition eve := person "5" "Eve" 22 true "Marketing".

Definition people : list object := [alice; bob; charlie; diana; eve].

(** A condition with one operator. *)
Definition cond (op : string) (v : value) : value := VObj 1 [(op, v)].

(** A schema with one field of each type. *)
Definition typed_schema : schema :=
  [("name", field "string" None); ("age", field "number" None);
   ("active", field "boolean" None); ("born", field "date" None);
   ("tags", field "json" None)].

(** The schema and the model of the tests of the class [Model]. *)
Definition sample_schema : schema :=
  [("id", rule "string" true None None None None);
   ("name", rule "string" true None None None None);
   ("age", field "number" (Some (Static (VNum Num.zero))));
   ("active", field "boolean" (Some (Static (VBool true))))].

Definition test_model : BaseModel.model :=
  {| BaseModel.sheetName := "TestModel";
     BaseModel.primaryKey := "id";
     BaseModel.schema := sample_schema;
     BaseModel.timestamps := true |}.

(** The rows of the sheet of these tests. *)
Definition sheet_row (id name age active : string) : object :=
  [("id", VStr id); ("name", VStr name); ("age", VStr age);
   ("active", VStr active)].

Definition sheet_rows : list (ident * object) :=
  [(1%nat, sheet_row "1" "Alice" "30" "true");
   (2%nat, sheet_row "2" "Bob" "25" "true");
   (3%nat, sheet_row "3" "Charlie" "40" "false")].

(** Options with criteria only. *)
Definition where_only (c : criteria) : options :=
  {| where_ := Some c; orderBy := None; limit := None; offset := None |}.

End Examples.

(** * Facts *)

(** ** The test suite of the library, run on the model *)
Module TestSuite.
Import JS Utils Examples.

Example filter_by_simple_equality :
  filterRecords people [("active", VBool true)] = Ok [alice; bob; diana; eve].
Proof. reflexivity. Qed.

Example filter_with_eq :
  filterRecords people [("dept", cond "$eq" (VStr "Engineering"))]
  = Ok [bob; diana].
Proof. reflexivity. Qed.

Example filter_with_ne :
  filterRecords people [("dept", cond "$ne" (VStr "Engineering"))]
  = Ok [alice; charlie; eve].
Proof. reflexivity. Qed.

Example filter_with_comparison :
  filterRecords people [("age", cond "$gte" (VNum (Num.of_Z 30)))]
  = Ok [alice; charlie; diana]
  /\ filterRecords people [("age", cond "$lt" (VNum (Num.of_Z 30)))]
     = Ok [bob; eve].
Proof. split; reflexivity. Qed.

Example filter_with_in :
  filterRecords people
    [("dept", cond "$in" (VArr 2 [VStr "HR"; VStr "Sales"]))]
  = Ok [alice; charlie].
Proof. reflexivity. Qed.

Example filter_with_like :
  filterRecords people [("name", cond "$like" (VStr "^a"))] = Ok [alice].
Proof. reflexivity. Qed.

Example filter_with_multiple_criteria :
  filterRecords people
    [("age", cond "$gte" (VNum (Num.of_Z 25))); ("active", VBool true);
     ("dept", cond "$ne" (VStr "HR"))]
  = Ok [bob; diana].
Proof. reflexivity. Qed.

Example sort_by_one_field :
  sortRecords people [("name", "asc")] = [alice; bob; charlie; diana; eve]
  /\ sortRecords people [("age", "desc")]
     = [charlie; diana; alice; bob; eve].
Proof. split; reflexivity. Qed.

Example sort_by_two_fields :
  sortRecords people [("dept", "asc"); ("age", "asc")]
  = [bob; diana; alice; eve; charlie].
Proof. reflexivity. Qed.

Example query_with_all_options :
  applyQueryOptions people
    {| where_ := Some [("active", VBool true)];
       orderBy := Some [("age", "desc")];
       limit := Some (Num.of_Z 2); offset := Some (Num.of_Z 1) |}
  = Ok [alice; bob].
Proof. reflexivity. Qed.

Example query_without_options :
  applyQueryOptions people
    {| where_ := None; orderBy := None; limit := None; offset := None |}
  = Ok people.
Proof. reflexivity. Qed.

Example validate_valid_data :
  validateData
    [("id", VStr "123"); ("name", VStr "Test User");
     ("email", VStr "test@example.com"); ("age", VNum (Num.of_Z 30));
     ("active", VBool true)] account_schema false
  = Ok true
  /\ validateData [("name", VStr "Updated Name"); ("age", VNum (Num.of_Z 31))]
       account_schema true
     = Ok true.
Proof. split; reflexivity. Qed.

Example validate_missing_required :
  validateData [("id", VStr "123"); ("email", VStr "test@example.com")]
    account_schema false
  = Throws (Error "Validation failed: Field 'name' is required").
Proof. reflexivity. Qed.

Example validate_incorrect_type :
  validateData
    [("id", VStr "123"); ("name", VStr "Test User");
     ("email", VStr "test@example.com"); ("age", VStr "thirty");
     ("active", VBool true)] account_schema false
  = Throws (Error "Validation failed: Field 'age' should be of type number").
Proof. reflexivity. Qed.

Example validate_string_length :
  validateData
    [("id", VStr "123"); ("name", VStr "A");
     ("email", VStr "test@example.com")] account_schema false
  = Throws
      (Error "Validation failed: Field 'name' must be at least 2 characters").
Proof. reflexivity. Qed.

Example validate_number_range :
  validateData
    [("id", VStr "123"); ("name", VStr "Test User");
     ("email", VStr "test@example.com"); ("age", VNum (Num.of_Z (-5)))]
    account_schema false
  = Throws (Error "Validation failed: Field 'age' must be at least 0")
  /\ validateData
       [("id", VStr "123"); ("name", VStr "Test User");
        ("email", VStr "test@example.com"); ("age", VNum (Num.of_Z 150))]
       account_schema false
     = Throws (Error "Validation failed: Field 'age' must be at most 120").
Proof. split; reflexivity. Qed.

Example defaults_are_applied :
  applyDefaults 0 user_schema [[("name", VStr "Test User")]] (1000 : Z)
  = Some (1%nat,
          [[("name", VStr "Test User")];
           [("name", VStr "Test User"); ("age", VNum Num.zero);
            ("active", VBool true);
            ("createdAt", VDate 1000 (Num.Fin 1 3))]],
          (1001 : Z)).
Proof. reflexivity. Qed.

Example defaults_do_not_override :
  applyDefaults 0
    [("name", field "string" (Some (Static (VStr "Default Name"))));
     ("age", field "number" (Some (Static (VNum Num.zero))))]
    [[("name", VStr "Custom Name"); ("age", VNum (Num.of_Z 30))]] (0 : Z)
  = Some (1%nat,
          [[("name", VStr "Custom Name"); ("age", VNum (Num.of_Z 30))];
           [("name", VStr "Custom Name"); ("age", VNum (Num.of_Z 30))]],
          (0 : Z)).
Proof. reflexivity. Qed.

(** The scenario of the specification: with the default of [age] applied,
    the only violation is the missing [name]. *)
Example validate_after_defaults :
  validateData [("id", VStr "1"); ("age", VNum Num.zero)]
    [("id", rule "string" true None None None None);
     ("name", rule "string" true None None (Some 2) None);
     ("age", field "number" (Some (Static (VNum Num.zero))))] false
  = Throws (Error "Validation failed: Field 'name' is required").
Proof. reflexivity. Qed.

End TestSuite.

(** ** Numbers *)
Module NumFacts.
Import Chars Num.

Lemma strip10_spec fuel : forall m e m' e',
  m <> 0 -> Z.abs m < 2 ^ Z.of_nat fuel ->
  strip10 fuel m e = (m', e') ->
  e <= e' /\ m = m' * 10 ^ (e' - e) /\ m' mod 10 <> 0.
Proof.
  induction fuel as [|f IH]; intros m e m' e' Hm Hlt Hs.
  - simpl in Hlt. lia.
  - cbn [strip10] in Hs.
    destruct (m mod 10 =? 0) eqn:Hmod.
    + apply Z.eqb_eq in Hmod.
      assert (Hdiv : m = 10 * (m / 10)) by (apply Z.div_exact; lia).
      assert (Hq : m / 10 <> 0) by lia.
      assert (Hlt' : Z.abs (m / 10) < 2 ^ Z.of_nat f).
      { rewrite Nat2Z.inj_succ, Z.pow_succ_r in Hlt by lia. lia. }
      destruct (IH _ _ _ _ Hq Hlt' Hs) as (Hle & Heq & Hnz).
      split; [lia|]. split; [|exact Hnz].
      replace (e' - e) with (Z.succ (e' - (e + 1))) by lia.
      rewrite Z.pow_succ_r by lia. lia.
    + apply Z.eqb_neq in Hmod. inversion Hs; subst.
      split; [lia|]. split; [|exact Hmod].
      rewrite Z.sub_diag. simpl. lia.
Qed.

Lemma fuel_enough m : m <> 0 ->
  Z.abs m < 2 ^ Z.of_nat (S (Z.to_nat (Z.log2 (Z.abs m)))).
Proof.
  intros Hm.
  rewrite Nat2Z.inj_succ, Z2Nat.id by apply Z.log2_nonneg.
  apply Z.log2_spec. lia.
Qed.

(** What [norm] returns. *)
Lemma norm_spec m e m' e' : norm m e = (m', e') ->
  (m = 0 /\ m' = 0 /\ e' = 0)
  \/ (m <> 0 /\ e <= e' /\ m = m' * 10 ^ (e' - e) /\ m' mod 10 <> 0).
Proof.
  unfold norm. destruct (m =? 0) eqn:Hz.
  - apply Z.eqb_eq in Hz. intros Hn. inversion Hn. auto.
  - apply Z.eqb_neq in Hz. intros Hn. right. split; [exact Hz|].
    eapply strip10_spec; eauto using fuel_enough.
Qed.

Lemma pow10_pos k : 0 <= k -> 0 < 10 ^ k.
Proof. intros. apply Z.pow_pos_nonneg; lia. Qed.

Lemma decomposition_le a b i j :
  0 <= i <= j -> a * 10 ^ i = b * 10 ^ j -> a mod 10 <> 0 -> i = j.
Proof.
  intros Hij Heq Ha.
  destruct (Z.eq_dec i j) as [|Hne]; [assumption|exfalso].
  replace j with (i + Z.succ (j - i - 1)) in Heq by lia.
  rewrite Z.pow_add_r, Z.pow_succ_r in Heq by lia.
  assert (Hp := pow10_pos i ltac:(lia)).
  assert (Ha' : a = 10 * (b * 10 ^ (j - i - 1))) by nia.
  apply Ha. rewrite Ha', Z.mul_comm. apply Z.mod_mul. lia.
Qed.

(** A nonzero number is [a * 10^i] with [a] not a multiple of ten in one
    way only. *)
Lemma decomposition_unique a b i j :
  0 <= i -> 0 <= j -> a * 10 ^ i = b * 10 ^ j ->
  a mod 10 <> 0 -> b mod 10 <> 0 -> a = b /\ i = j.
Proof.
  intros Hi Hj Heq Ha Hb.
  assert (Hij : i = j).
  { destruct (Z.le_ge_cases i j).
    - eapply decomposition_le; eauto.
    - symmetry. eapply (decomposition_le b a); eauto. }
  subst j. split; [|reflexivity].
  assert (Hp := pow10_pos i Hi). nia.
Qed.

Lemma norm_eq m e a k :
  0 <= k -> a mod 10 <> 0 -> m = a * 10 ^ k -> norm m e = (a, e + k).
Proof.
  intros Hk Ha Hm.
  destruct (norm m e) as [m' e'] eqn:Hn.
  assert (Hp := pow10_pos k Hk).
  assert (Ha0 : a <> 0) by (intros ->; apply Ha; reflexivity).
  destruct (norm_spec _ _ _ _ Hn) as [(Hz & _) | (Hnz & Hle & Heq & Hmod)].
  - nia.
  - destruct (decomposition_unique m' a (e' - e) k) as [-> Hk']; try lia.
    f_equal. lia.
Qed.

Lemma norm_canonical m e : m mod 10 <> 0 -> norm m e = (m, e).
Proof.
  intros Hm. rewrite (norm_eq m e m 0); rewrite ?Z.add_0_r; auto; lia.
Qed.

Lemma norm_zero e : norm 0 e = (0, 0).
Proof. reflexivity. Qed.

Lemma norm_scale m e k : 0 <= k -> m <> 0 ->
  norm (m * 10 ^ k) e = norm m (e + k).
Proof.
  intros Hk Hm.
  destruct (norm m (e + k)) as [a e'] eqn:Hn.
  destruct (norm_spec _ _ _ _ Hn) as [(Hz & _) | (_ & Hle & Heq & Hmod)];
    [contradiction|].
  rewrite (norm_eq (m * 10 ^ k) e a (e' - e)); try lia.
  - f_equal. lia.
  - rewrite Heq at 1. rewrite <- Z.mul_assoc, <- Z.pow_add_r by lia.
    f_equal. f_equal. lia.
Qed.

Lemma norm_idempotent m e m' e' :
  norm m e = (m', e') -> norm m' e' = (m', e').
Proof.
  intros Hn.
  destruct (norm_spec _ _ _ _ Hn) as [(_ & -> & ->) | (_ & _ & _ & Hmod)].
  - reflexivity.
  - apply norm_canonical, Hmod.
Qed.

Lemma normalize_idempotent x : normalize (normalize x) = normalize x.
Proof.
  destruct x as [| |m e]; try reflexivity.
  simpl. unfold fin. destruct (norm m e) as [m' e'] eqn:Hn.
  simpl. unfold fin. rewrite (norm_idempotent _ _ _ _ Hn). reflexivity.
Qed.

Lemma normalize_fin m e : normalize (fin m e) = fin m e.
Proof. exact (normalize_idempotent (Fin m e)). Qed.

End NumFacts.

(** ** The validator *)
Module ValidatorFacts.
Import JS Utils Described.

Section WithHost.
Context `{Host}.

Ltac case_atom :=
  match goal with
  | |- context [match ?o with Some _ => _ | None => _ end] =>
      is_var o; destruct o
  | |- context [String.eqb ?a ?b] => destruct (String.eqb a b)
  | |- context [type_valid ?a ?b] => destruct (type_valid a b)
  | |- context [Num.lt ?a ?b] => destruct (Num.lt a b)
  | |- context [Num.gt ?a ?b] => destruct (Num.gt a b)
  | |- context [is_null ?a] => destruct (is_null a)
  | |- context [strict_eq ?a ?b] => destruct (strict_eq a b)
  end.

(** The type check of the code accepts what [accepts] describes. *)
Lemma type_valid_accepts ty v : type_valid ty v = accepts ty v.
Proof.
  unfold type_valid, accepts. cbv zeta.
  destruct (String.eqb (Chars.toLowerCase ty) "string");
    [destruct v; reflexivity|].
  destruct (String.eqb (Chars.toLowerCase ty) "number");
    [destruct v; reflexivity|].
  destruct (String.eqb (Chars.toLowerCase ty) "boolean").
  { destruct v as [| |b|n|s|i t|i elems|i props]; try reflexivity.
    cbn [typeof strict_eq token existsb].
    now rewrite orb_false_r, !orb_assoc. }
  destruct (String.eqb (Chars.toLowerCase ty) "date");
    [destruct v; reflexivity | reflexivity].
Qed.

(** One turn of the loop appends the messages of the field. *)
Lemma validate_field_appends data partial errors entry :
  validate_field data partial errors entry
  = errors ++ field_violations data partial entry.
Proof.
  destruct entry as [field [ty req dflt mn mx mnl mxl custom]].
  unfold validate_field, field_violations, type_rule, number_rules,
    string_rules, bound_rule, when, push_if, push, missing, type_is,
    declared.
  cbn [type required min max minLength maxLength].
  destruct ty as [ty|];
    [rewrite <- (type_valid_accepts ty (get data field))|].
  all: destruct partial, (is_undefined (get data field)), req; simpl;
    rewrite ?app_nil_r; try reflexivity.
  all: repeat case_atom; simpl; rewrite <- ?app_assoc; simpl;
    rewrite ?app_nil_r; reflexivity.
Qed.

(** What full validation reports on a null value. *)
Lemma field_violations_null data field s :
  get data field = VNull ->
  field_violations data false (field, s) = null_violations field s.
Proof.
  intros Hnull. unfold field_violations, null_violations. rewrite Hnull.
  cbn [negb andb missing is_undefined is_null orb].
  rewrite andb_true_r. f_equal.
  unfold type_rule, number_rules, string_rules. f_equal.
  destruct (type s) as [ty|]; [|reflexivity].
  f_equal. unfold accepts, null_mistyped. cbv zeta.
  destruct (String.eqb_spec ty "") as [-> | _]; [reflexivity|].
  cbn [negb andb].
  destruct (String.eqb_spec (Chars.toLowerCase ty) "string") as [-> | _];
    [reflexivity|].
  destruct (String.eqb_spec (Chars.toLowerCase ty) "number") as [-> | _];
    [reflexivity|].
  destruct (String.eqb_spec (Chars.toLowerCase ty) "boolean") as [-> | _];
    [reflexivity|].
  destruct (String.eqb (Chars.toLowerCase ty) "date"); [|reflexivity].
  cbn [ToString]. now rewrite Date_parse_null.
Qed.

Lemma validate_loop data partial schema : forall errors,
  fold_left (validate_field data partial) schema errors
  = errors ++ violations data partial schema.
Proof.
  induction schema as [|entry schema IH]; intros errors; simpl.
  - now rewrite app_nil_r.
  - rewrite IH, validate_field_appends, app_assoc. reflexivity.
Qed.

Lemma validateData_violations data schema partial :
  validateData data schema partial
  = match violations data partial schema with
    | [] => Ok true
    | errors =>
        Throws (Error ("Validation failed: " ++ Chars.join ", " errors))
    end.
Proof.
  unfold validateData. rewrite validate_loop. simpl.
  destruct (violations data partial schema); reflexivity.
Qed.

End WithHost.
End ValidatorFacts.

(** ** Integers among the numbers, and [slice] *)
Module SliceFacts.
Import JS.
Import Num (integer).

Lemma integer_fin m e : 0 <= e -> integer (Num.fin m e) (m * 10 ^ e).
Proof.
  intros He. unfold Num.fin.
  destruct (Num.norm m e) as [m' e'] eqn:Hn.
  exists m', e'. split; [reflexivity|].
  destruct (NumFacts.norm_spec _ _ _ _ Hn)
    as [(-> & -> & ->) | (_ & Hle & Heq & _)].
  - split; [lia | reflexivity].
  - split; [lia|]. rewrite Heq at 1.
    rewrite <- Z.mul_assoc, <- Z.pow_add_r by lia.
    do 2 f_equal. lia.
Qed.

Lemma integer_of_Z z : integer (Num.of_Z z) z.
Proof.
  unfold Num.of_Z.
  replace z with (z * 10 ^ 0) at 2 by (simpl; lia).
  apply integer_fin. lia.
Qed.

Lemma integer_add x y a b :
  integer x a -> integer y b -> integer (Num.add x y) (a + b).
Proof.
  intros (m1 & e1 & -> & He1 & ->) (m2 & e2 & -> & He2 & ->).
  unfold Num.add, Num.align.
  set (e := Z.min e1 e2).
  replace (m1 * 10 ^ e1 + m2 * 10 ^ e2)
    with ((m1 * 10 ^ (e1 - e) + m2 * 10 ^ (e2 - e)) * 10 ^ e).
  - apply integer_fin. lia.
  - rewrite Z.mul_add_distr_r, <- !Z.mul_assoc, <- !Z.pow_add_r by lia.
    do 3 f_equal; lia.
Qed.

Lemma integer_index x z :
  integer x z -> Num.ToIntegerOrInfinity x = Num.Int z.
Proof.
  intros (m & e & -> & He & ->). simpl. unfold Num.trunc.
  destruct (0 <=? e) eqn:Hle; [reflexivity|].
  apply Z.leb_gt in Hle. lia.
Qed.

(** The offset that [applyQueryOptions] computes from a natural one. *)
Lemma integer_offset (k : nat) :
  integer (if truthy (VNum (Num.of_nat k)) then Num.of_nat k else Num.zero)
          (Z.of_nat k).
Proof.
  destruct (truthy (VNum (Num.of_nat k))) eqn:Ht.
  - apply integer_of_Z.
  - unfold truthy in Ht. apply negb_false_iff in Ht.
    destruct (integer_of_Z (Z.of_nat k)) as (m & e & Hx & He & Hz).
    unfold Num.of_nat in Ht. rewrite Hx in Ht. simpl in Ht.
    apply Z.eqb_eq in Ht. subst m.
    exists 0, 0. split; [reflexivity|]. lia.
Qed.

(** [slice] between two natural indices. *)
Lemma slice_nat {A} (l : list A) start end_ (k n : nat) :
  integer start (Z.of_nat k) -> integer end_ (Z.of_nat k + Z.of_nat n) ->
  slice l start end_ = firstn n (skipn k l).
Proof.
  intros Hs He. unfold slice.
  rewrite (integer_index _ _ Hs), (integer_index _ _ He).
  unfold relative_index.
  destruct (Z.of_nat k <? 0) eqn:Hk; [apply Z.ltb_lt in Hk; lia|].
  destruct (Z.of_nat k + Z.of_nat n <? 0) eqn:Hn;
    [apply Z.ltb_lt in Hn; lia|].
  destruct (Nat.le_gt_cases (List.length l) k) as [Hge | Hlt].
  - rewrite (skipn_all2 l Hge).
    replace (Z.to_nat (Z.min (Z.of_nat k) (Z.of_nat (List.length l))))
      with (List.length l) by lia.
    rewrite skipn_all, !firstn_nil. reflexivity.
  - replace (Z.to_nat (Z.min (Z.of_nat k) (Z.of_nat (List.length l))))
      with k by lia.
    destruct (Nat.le_gt_cases n (List.length l - k)) as [Hn' | Hn'].
    + f_equal. lia.
    + rewrite (firstn_all2 (n := n)) by (rewrite length_skipn; lia).
      apply firstn_all2. rewrite length_skipn. lia.
Qed.

End SliceFacts.

(** ** The filter *)
Module FilterFacts.
Import JS Utils Described.

Section WithHost.
Context `{Host}.

Lemma object_text_is_not_a_number :
  Num.of_string "[object Object]" = Num.NaN.
Proof. vm_compute. reflexivity. Qed.

Lemma eq_NaN_r x : Num.eq x Num.NaN = false.
Proof. destruct x; reflexivity. Qed.

Lemma compare_NaN_r x : Num.compare x Num.NaN = None.
Proof. destruct x; reflexivity. Qed.

(** Loose equality with a plain object. *)
Lemma loose_eq_object v id props :
  loose_eq v (VObj id props)
  = match v with
    | VStr s => String.eqb s "[object Object]"
    | VObj j _ => Nat.eqb j id
    | _ => false
    end.
Proof.
  destruct v as [| |b|n|s|j t|j elems|j ps]; try reflexivity.
  - unfold loose_eq, loose_eq_prim, ToPrimitive; cbn [is_object andb].
    cbn [ToString ToNumber]. rewrite object_text_is_not_a_number.
    apply eq_NaN_r.
  - unfold loose_eq, loose_eq_prim, ToPrimitive; cbn [is_object andb].
    cbn [ToString ToNumber]. rewrite object_text_is_not_a_number.
    apply eq_NaN_r.
Qed.

Lemma no_operator_undefined props op :
  no_operator props = true -> In op recognized ->
  defined (get props op) = false.
Proof.
  unfold no_operator. rewrite forallb_forall. intros Hall Hin.
  specialize (Hall op Hin). unfold get.
  destruct (lookup props op); [discriminate | reflexivity].
Qed.

Lemma matches_entry_no_operator record key id props :
  no_operator props = true ->
  matches_entry record (key, VObj id props)
  = Ok (equals_object id key record).
Proof.
  intros Hno. unfold matches_entry, equals_object. cbn [is_object prop].
  rewrite !(no_operator_undefined props _ Hno)
    by (unfold recognized; simpl; tauto).
  now rewrite loose_eq_object.
Qed.

(** With one entry in the criteria the filter keeps the records on which
    the entry holds. *)
Lemma filterRecords_single records entry (keep : object -> bool) :
  (forall record, matches_entry record entry = Ok (keep record)) ->
  filterRecords records [entry] = Ok (List.filter keep records).
Proof.
  intros Hentry. unfold filterRecords.
  set (f := fun record => every (matches_entry record) [entry]).
  assert (Hf : forall record, f record = Ok (keep record)).
  { intros record. unfold f. cbn [every]. rewrite Hentry. cbn [bind].
    destruct (keep record); reflexivity. }
  induction records as [|record records IH]; [reflexivity|].
  cbn [filter List.filter]. rewrite Hf, IH. cbn [bind].
  destruct (keep record); reflexivity.
Qed.

(** The operator that is honored decides. *)
Lemma matches_entry_relop op id props bound record key :
  honored props = Some (relop_name op, bound) ->
  matches_entry record (key, VObj id props)
  = Ok (relop_holds op (parseFloat (get record key)) (ToNumber bound)).
Proof.
  unfold honored, recognized, matches_entry. cbn [List.find is_object prop].
  destruct (defined (get props "$eq"));
    [destruct op; intros [=] |].
  destruct (defined (get props "$ne"));
    [destruct op; intros [=] |].
  destruct (defined (get props "$gt"));
    [destruct op; intros [=]; subst; reflexivity |].
  destruct (defined (get props "$gte"));
    [destruct op; intros [=]; subst; reflexivity |].
  destruct (defined (get props "$lt"));
    [destruct op; intros [=]; subst; reflexivity |].
  destruct (defined (get props "$lte"));
    [destruct op; intros [=]; subst; reflexivity |].
  destruct (defined (get props "$in"));
    [destruct op; intros [=] |].
  destruct (defined (get props "$nin"));
    [destruct op; intros [=] |].
  destruct (defined (get props "$like"));
    [destruct op; intros [=] | intros [=]].
Qed.

(** Without criteria the filter keeps every record. *)
Lemma filterRecords_no_criteria records : filterRecords records [] = Ok records.
Proof.
  unfold filterRecords.
  set (f := fun record => every (matches_entry record) []).
  induction records as [|record records IH]; [reflexivity|].
  cbn [filter]. rewrite IH. reflexivity.
Qed.

Lemma matches_entry_like id props pattern record key :
  honored props = Some ("$like", pattern) ->
  matches_entry record (key, VObj id props)
  = like pattern (get record key).
Proof.
  unfold honored, recognized, matches_entry. cbn [List.find is_object prop].
  repeat match goal with
         | |- context [defined (get props ?op)] =>
             destruct (defined (get props op)); [intros [=]; subst |]
         end; try reflexivity.
  intros [=].
Qed.

Lemma relop_NaN op x y :
  Num.isNaN x = true \/ Num.isNaN y = true -> relop_holds op x y = false.
Proof.
  intros [Hx | Hy].
  - destruct x; try discriminate. destruct op; reflexivity.
  - destruct y; try discriminate.
    destruct op; unfold relop_holds, Num.gt, Num.ge, Num.lt, Num.le;
      now rewrite compare_NaN_r.
Qed.

End WithHost.
End FilterFacts.

(** ** The comparator *)
Module SortFacts.
Import JS Utils Described.

Lemma compare_scaled m p : 0 < p -> (m * p ?= 0) = (m ?= 0).
Proof.
  intros Hp. destruct (Z.compare_spec m 0) as [-> | Hlt | Hgt].
  - reflexivity.
  - apply Z.compare_lt_iff. nia.
  - apply Z.compare_gt_iff. nia.
Qed.

Lemma compare_zero m e :
  Num.compare (Num.Fin m e) Num.zero = Some (m ?= 0).
Proof.
  unfold Num.compare, Num.zero, Num.align. f_equal. simpl (0 * _).
  apply compare_scaled, NumFacts.pow10_pos. lia.
Qed.

(** [fin] keeps the sign of the mantissa. *)
Lemma fin_sign m e :
  exists m' e', Num.fin m e = Num.Fin m' e' /\ (m' ?= 0) = (m ?= 0).
Proof.
  unfold Num.fin. destruct (Num.norm m e) as [m' e'] eqn:Hn.
  exists m', e'. split; [reflexivity|].
  destruct (NumFacts.norm_spec _ _ _ _ Hn)
    as [(-> & -> & _) | (_ & Hle & Heq & _)]; [reflexivity|].
  rewrite Heq. symmetry.
  apply compare_scaled, NumFacts.pow10_pos. lia.
Qed.

(** The verdict on a finite difference is the sign of its mantissa, turned
    by the direction. *)
Lemma verdict_of_difference direction m e :
  verdict_of (if nonzero (Num.Fin m e)
              then Some (Num.mul (Num.Fin m e) (multiplier direction))
              else None)
  = directed (descending direction) (m ?= 0).
Proof.
  unfold nonzero, Num.eq. rewrite compare_zero.
  unfold multiplier, descending.
  destruct (Z.compare_spec m 0) as [-> | Hlt | Hgt]; cbn [negb].
  - reflexivity.
  - unfold Num.mul.
    destruct (String.eqb (Chars.toLowerCase direction) "desc");
      [destruct (fin_sign (m * -1) (e + 0)) as (m' & e' & -> & Hs)
      |destruct (fin_sign (m * 1) (e + 0)) as (m' & e' & -> & Hs)];
      unfold verdict_of, Num.lt, Num.gt; rewrite compare_zero, Hs.
    + assert (Hc : (m * -1 ?= 0) = Gt) by (apply Z.compare_gt_iff; lia).
      now rewrite Hc.
    + assert (Hc : (m * 1 ?= 0) = Lt) by (apply Z.compare_lt_iff; lia).
      now rewrite Hc.
  - unfold Num.mul.
    destruct (String.eqb (Chars.toLowerCase direction) "desc");
      [destruct (fin_sign (m * -1) (e + 0)) as (m' & e' & -> & Hs)
      |destruct (fin_sign (m * 1) (e + 0)) as (m' & e' & -> & Hs)];
      unfold verdict_of, Num.lt, Num.gt; rewrite compare_zero, Hs.
    + assert (Hc : (m * -1 ?= 0) = Lt) by (apply Z.compare_lt_iff; lia).
      now rewrite Hc.
    + assert (Hc : (m * 1 ?= 0) = Gt) by (apply Z.compare_gt_iff; lia).
      now rewrite Hc.
Qed.

(** The difference of two finite numbers has the sign of their order. *)
Lemma sub_sign m1 e1 m2 e2 :
  exists m e,
    Num.sub (Num.Fin m1 e1) (Num.Fin m2 e2) = Num.Fin m e
    /\ Num.compare (Num.Fin m1 e1) (Num.Fin m2 e2) = Some (m ?= 0).
Proof.
  unfold Num.sub, Num.neg_num, Num.add, Num.compare, Num.align.
  set (e := Z.min e1 e2).
  destruct (fin_sign (m1 * 10 ^ (e1 - e) + - m2 * 10 ^ (e2 - e)) e)
    as (m & e' & Hfin & Hs).
  exists m, e'. split; [exact Hfin|].
  rewrite Hs. f_equal.
  rewrite (Z.compare_sub (m1 * 10 ^ (e1 - e))). f_equal. lia.
Qed.

Section WithHost.
Context `{Host}.

Lemma compare_key_unfold a b field direction :
  compare_key a b (field, direction)
  = let x := parseFloat (get a field) in
    let y := parseFloat (get b field) in
    let diff :=
      if negb (Num.isNaN x) && negb (Num.isNaN y) then Num.sub x y
      else Num.of_Z (localeCompare (String_ (or_empty (get a field)))
                                   (String_ (or_empty (get b field)))) in
    if nonzero diff then Some (Num.mul diff (multiplier direction))
    else None.
Proof.
  unfold compare_key. cbv zeta.
  destruct (negb (Num.isNaN (parseFloat (get a field)))
            && negb (Num.isNaN (parseFloat (get b field))));
    reflexivity.
Qed.

(** What one turn of the comparator decides. *)
Lemma compare_key_verdict a b entry :
  verdict_of (compare_key a b entry) = key_verdict a b entry.
Proof.
  destruct entry as [field direction].
  rewrite compare_key_unfold. unfold key_verdict. cbv zeta.
  destruct (parseFloat (get a field)) as [|s1|m1 e1] eqn:Hx;
    destruct (parseFloat (get b field)) as [|s2|m2 e2] eqn:Hy;
    cbn [Num.isNaN negb andb Num.compare].
  1-4,7:
    unfold string_verdict;
    destruct (SortFacts.fin_sign
                (localeCompare (String_ (or_empty (get a field)))
                               (String_ (or_empty (get b field)))) 0)
      as (m & e & Hfin & Hs);
    unfold Num.of_Z; rewrite Hfin, verdict_of_difference, Hs;
    reflexivity.
  - unfold multiplier, descending.
    destruct s1, s2, (String.eqb (Chars.toLowerCase direction) "desc");
      reflexivity.
  - unfold multiplier, descending.
    destruct s1, (String.eqb (Chars.toLowerCase direction) "desc");
      reflexivity.
  - unfold multiplier, descending.
    destruct s2, (String.eqb (Chars.toLowerCase direction) "desc");
      reflexivity.
  - destruct (sub_sign m1 e1 m2 e2) as (m & e & Hsub & Hcmp).
    rewrite Hsub, verdict_of_difference.
    cbn [Num.compare] in Hcmp. rewrite Hcmp. cbn [finite].
    destruct (m ?= 0); reflexivity.
Qed.

End WithHost.

(** Two values that parse to the same infinity have a NaN difference: the
    comparator returns it and the later keys are not consulted. *)
Example equal_infinities_end_the_comparison :
  let a := [("score", VNum (Num.Infty false)); ("n", VNum (Num.Fin 2 0))] in
  let b := [("score", VNum (Num.Infty false)); ("n", VNum (Num.Fin 1 0))] in
  compare_key a b ("score", "asc") = Some Num.NaN
  /\ sortRecords [a; b] [("score", "asc"); ("n", "asc")] = [a; b].
Proof. split; reflexivity. Qed.

End SortFacts.

(** ** Patterns of [$like] *)
Module LikeFacts.
Import Chars JS Utils Described.

Lemma of_to_string l : of_string (to_string l) = l.
Proof. apply list_ascii_of_string_of_list_ascii. Qed.

Lemma to_of_string s : to_string (of_string s) = s.
Proof. apply string_of_list_ascii_of_string. Qed.

Import Regex (replaced).

(** What a character that is not a syntax character is not. *)
Lemma plain_char c : Regex.syntax_char c = false ->
  Ascii.eqb c "*" = false /\ Ascii.eqb c "^" = false
  /\ Ascii.eqb c "$" = false /\ Ascii.eqb c "." = false
  /\ Regex.unsupported_char c = false.
Proof.
  unfold Regex.syntax_char, Regex.unsupported_char, Regex.mem.
  cbn [of_string list_ascii_of_string existsb].
  intros Hs.
  repeat match type of Hs with
         | (_ || _)%bool = false =>
             let H := fresh "H" in
             apply orb_false_elim in Hs; destruct Hs as [H Hs]
         end.
  repeat split; try assumption.
  repeat match goal with
         | H : Ascii.eqb _ _ = false |- _ => rewrite H; clear H
         end.
  reflexivity.
Qed.

Lemma percent_is_plain : Regex.syntax_char "%" = false.
Proof. reflexivity. Qed.

Lemma replaced_supported p :
  plain_chars p = true -> existsb Regex.unsupported_char (replaced p) = false.
Proof.
  induction p as [|c p IH]; [reflexivity|].
  unfold plain_chars. cbn [forallb]. intros Hp.
  apply andb_prop in Hp. destruct Hp as [Hc Hp].
  apply negb_true_iff in Hc.
  destruct (plain_char c Hc) as (_ & _ & _ & _ & Hu).
  unfold replaced. cbn [flat_map]. rewrite existsb_app.
  fold (replaced p). rewrite (IH Hp), orb_false_r.
  destruct (Ascii.eqb c "%"); [reflexivity|].
  cbn [existsb]. now rewrite Hu.
Qed.

(** The first character of a replaced plain pattern is not a star. *)
Lemma replaced_head p c r :
  plain_chars p = true -> replaced p = c :: r -> Ascii.eqb c "*" = false.
Proof.
  destruct p as [|d p]; [discriminate|].
  unfold plain_chars. cbn [forallb]. intros Hp.
  apply andb_prop in Hp. destruct Hp as [Hd _].
  apply negb_true_iff in Hd.
  destruct (plain_char d Hd) as (Hstar & _).
  unfold replaced. cbn [flat_map].
  destruct (Ascii.eqb d "%").
  - intros [= <- _]. reflexivity.
  - intros [= <- _]. exact Hstar.
Qed.

Lemma parse_replaced p :
  plain_chars p = true -> Regex.parse (replaced p) = Some (terms p).
Proof.
  induction p as [|c p IH]; [reflexivity|].
  intros Hp. pose proof Hp as Hall.
  unfold plain_chars in Hp. cbn [forallb] in Hp.
  apply andb_prop in Hp. destruct Hp as [Hc Hp].
  apply negb_true_iff in Hc.
  destruct (plain_char c Hc) as (Hstar & Hbol & Heol & Hdot & _).
  specialize (IH Hp).
  unfold replaced, terms. cbn [flat_map map].
  fold (replaced p). fold (terms p).
  destruct (Ascii.eqb c "%") eqn:Hpercent.
  - cbn. rewrite IH. reflexivity.
  - cbn [app Regex.parse]. rewrite Hstar, Hbol, Heol, Hdot.
    destruct (replaced p) as [|q r] eqn:Hr.
    + destruct p; [reflexivity|].
      unfold replaced in Hr. cbn [flat_map] in Hr.
      destruct (Ascii.eqb a "%"); discriminate.
    + rewrite (replaced_head p q r Hp Hr), IH. reflexivity.
Qed.

Lemma matches_terms p : forall start s,
  Regex.matches (terms p) start s = like_at not_line_terminator p s.
Proof.
  induction p as [|c p IH]; intros start s; [reflexivity|].
  unfold terms. cbn [map]. fold (terms p). cbn [like_at].
  destruct (Ascii.eqb c "%").
  - revert start. induction s as [|d s IHs]; intros start.
    + cbn. now rewrite IH.
    + cbn. cbn in IHs. rewrite IH, IHs. reflexivity.
  - destruct s as [|d s]; [reflexivity|].
    cbn. now rewrite IH.
Qed.

Lemma search_terms p : forall start s,
  Regex.search (terms p) start s = like_anywhere not_line_terminator p s.
Proof.
  intros start s. revert start.
  induction s as [|d s IHs]; intros start; cbn [Regex.search like_anywhere];
    rewrite matches_terms; [reflexivity|].
  now rewrite IHs.
Qed.

Section WithHost.
Context `{Host}.

Lemma like_plain pattern x :
  plain pattern = true ->
  like (VStr pattern) x = Ok (like_line pattern (ToString x)).
Proof.
  intros Hp. unfold like, Regex.compile, Regex.replace_percent.
  rewrite of_to_string.
  rewrite (replaced_supported _ Hp), (parse_replaced _ Hp).
  unfold Regex.test, like_line. now rewrite search_terms.
Qed.

End WithHost.
End LikeFacts.

(** ** The store and the defaults *)
Module StoreFacts.
Import JS Utils Described.

Lemma get_set_same o k v : get (set o k v) k = v.
Proof.
  unfold get. induction o as [|[k' v'] o IH]; cbn [set lookup].
  - now rewrite String.eqb_refl.
  - destruct (String.eqb k' k) eqn:Hk; cbn [lookup].
    + now rewrite String.eqb_refl.
    + now rewrite Hk.
Qed.

Lemma get_set_other o k v k' : k <> k' -> get (set o k v) k' = get o k'.
Proof.
  intros Hne. apply String.eqb_neq in Hne.
  unfold get. induction o as [|[k0 v0] o IH]; cbn [set lookup].
  - now rewrite Hne.
  - destruct (String.eqb k0 k) eqn:Hk; cbn [lookup].
    + apply String.eqb_eq in Hk. subst k0. now rewrite Hne.
    + destruct (String.eqb k0 k'); [reflexivity | exact IH].
Qed.

Lemma read_fresh (h : store) : read h (List.length h) = None.
Proof. apply nth_error_None. lia. Qed.

Lemma read_spread_new (h : store) o : read (h ++ [o]) (List.length h) = Some o.
Proof.
  unfold read. rewrite nth_error_app2, Nat.sub_diag by lia. reflexivity.
Qed.

Lemma read_spread_old (h : store) o l :
  l <> List.length h -> read (h ++ [o]) l = read h l.
Proof.
  intros Hne. unfold read.
  destruct (Nat.lt_ge_cases l (List.length h)) as [Hlt | Hge].
  - now apply nth_error_app1.
  - rewrite (proj2 (nth_error_None h l)) by lia.
    apply nth_error_None. rewrite length_app. simpl. lia.
Qed.

Lemma read_write_same (h : store) l o o0 :
  read h l = Some o0 -> read (write h l o) l = Some o.
Proof.
  revert l. induction h as [|x h IH]; intros [|l]; cbn; try discriminate.
  - reflexivity.
  - apply IH.
Qed.

Lemma read_write_other (h : store) l o l' :
  l <> l' -> read (write h l o) l' = read h l'.
Proof.
  revert l l'. induction h as [|x h IH]; intros [|l] [|l'] Hne; cbn;
    try reflexivity; try congruence.
  apply IH. congruence.
Qed.

Lemma write_write (h : store) l o o' :
  write (write h l o) l o' = write h l o'.
Proof.
  revert l. induction h as [|x h IH]; intros [|l]; cbn; try reflexivity.
  now rewrite IH.
Qed.

Lemma write_read (h : store) l o : read h l = Some o -> write h l o = h.
Proof.
  revert l. induction h as [|x h IH]; intros [|l]; cbn; try discriminate.
  - now intros [= ->].
  - intros Hr. now rewrite IH.
Qed.

Section WithHost.
Context `{Host}.

(** The loop on the store is the loop on the properties of the result. *)
Lemma default_step_defaulted (h : store) result r0 r w entry :
  read h result = Some r0 ->
  default_step result (write h result r, w) entry
  = (write h result (fst (defaulted (r, w) entry)),
     snd (defaulted (r, w) entry)).
Proof.
  intros Hr. destruct entry as [field s].
  unfold default_step, defaulted, field_of, assign.
  rewrite (read_write_same _ _ _ _ Hr).
  destruct (negb (is_undefined (get r field))); [reflexivity|].
  destruct (defaultValue s) as [[v | g]|]; try reflexivity.
  - destruct (is_undefined v); [reflexivity|].
    now rewrite write_write.
  - destruct (g w) as [v w']. now rewrite write_write.
Qed.

Lemma default_loop (h : store) result r0 entries : forall r w,
  read h result = Some r0 ->
  fold_left (default_step result) entries (write h result r, w)
  = (write h result (fst (fold_left defaulted entries (r, w))),
     snd (fold_left defaulted entries (r, w))).
Proof.
  induction entries as [|entry entries IH]; intros r w Hr; [reflexivity|].
  cbn [fold_left]. rewrite (default_step_defaulted _ _ _ _ _ _ Hr).
  rewrite IH by exact Hr.
  now destruct (defaulted (r, w) entry).
Qed.

(** A turn of the loop leaves the other fields alone. *)
Lemma defaulted_other r w field s k :
  k <> field -> get (fst (defaulted (r, w) (field, s))) k = get r k.
Proof.
  intros Hne. unfold defaulted.
  destruct (negb (is_undefined (get r field))); [reflexivity|].
  destruct (defaultValue s) as [[v | g]|]; try reflexivity.
  - destruct (is_undefined v); [reflexivity|].
    apply get_set_other. congruence.
  - destruct (g w) as [v w']. apply get_set_other. congruence.
Qed.

(** A turn of the loop leaves the defined fields alone. *)
Lemma defaulted_defined r w entry k :
  get r k <> VUndefined -> get (fst (defaulted (r, w) entry)) k = get r k.
Proof.
  intros Hdef. destruct entry as [field s].
  destruct (String.eqb_spec k field) as [-> | Hne];
    [|now apply defaulted_other].
  unfold defaulted.
  destruct (get r field) eqn:Hv; cbn; congruence.
Qed.

Lemma defaulted_loop_defined entries : forall r w k,
  get r k <> VUndefined ->
  get (fst (fold_left defaulted entries (r, w))) k = get r k.
Proof.
  induction entries as [|entry entries IH]; intros r w k Hdef;
    [reflexivity|].
  cbn [fold_left].
  destruct (defaulted (r, w) entry) as [r1 w1] eqn:Hstep.
  assert (Hr1 : get r1 k = get r k).
  { change r1 with (fst (r1, w1)). rewrite <- Hstep.
    now apply defaulted_defined. }
  rewrite IH; [exact Hr1 | congruence].
Qed.

Lemma defaulted_loop_other entries : forall r w k,
  ~ In k (map fst entries) ->
  get (fst (fold_left defaulted entries (r, w))) k = get r k.
Proof.
  induction entries as [|[field s] entries IH]; intros r w k Hnotin;
    [reflexivity|].
  cbn [fold_left].
  destruct (defaulted (r, w) (field, s)) as [r1 w1] eqn:Hstep.
  assert (Hr1 : get r1 k = get r k).
  { change r1 with (fst (r1, w1)). rewrite <- Hstep.
    apply defaulted_other. intros ->. apply Hnotin. now left. }
  rewrite IH; [exact Hr1|]. intros Hin. apply Hnotin. now right.
Qed.

(** The state of the runtime only depends on the fields of the entries. *)
Lemma world_after_ext entries : forall r r' w,
  (forall k, In k (map fst entries) -> get r' k = get r k) ->
  world_after r' entries w = world_after r entries w.
Proof.
  unfold world_after.
  induction entries as [|[field s] entries IH]; intros r r' w Hsame;
    [reflexivity|].
  cbn [fold_left]. unfold advance at 2 4.
  rewrite (Hsame field) by now left.
  apply IH. intros k Hin. apply Hsame. now right.
Qed.

Lemma defaulted_world r w field s :
  snd (defaulted (r, w) (field, s)) = advance r w (field, s).
Proof.
  unfold defaulted, advance.
  destruct (is_undefined (get r field)); cbn [negb]; [|reflexivity].
  destruct (defaultValue s) as [[v | g]|]; try reflexivity.
  - destruct (is_undefined v); reflexivity.
  - destruct (g w) as [v w']. reflexivity.
Qed.

Lemma defaulted_loop_world entries : forall r w,
  NoDup (map fst entries) ->
  snd (fold_left defaulted entries (r, w)) = world_after r entries w.
Proof.
  induction entries as [|[field s] entries IH]; intros r w Hnd;
    [reflexivity|].
  cbn [map] in Hnd. apply NoDup_cons_iff in Hnd. destruct Hnd as [Hnotin Hnd].
  cbn [fold_left]. unfold world_after. cbn [fold_left].
  fold (world_after r entries (advance r w (field, s))).
  rewrite <- defaulted_world.
  destruct (defaulted (r, w) (field, s)) as [r1 w1] eqn:Hstep.
  rewrite IH by exact Hnd. cbn [snd].
  apply world_after_ext. intros k Hin.
  change r1 with (fst (r1, w1)). rewrite <- Hstep.
  apply defaulted_other. intros ->. contradiction.
Qed.

(** The field of an entry gets its default when it is undefined. *)
Lemma defaulted_field r w field s :
  get r field = VUndefined ->
  get (fst (defaulted (r, w) (field, s))) field = default_of s w.
Proof.
  intros Hu. unfold defaulted, default_of. rewrite Hu. cbn.
  destruct (defaultValue s) as [[v | g]|]; cbn [fst]; try exact Hu.
  - destruct v; cbn; try apply get_set_same. exact Hu.
  - destruct (g w) as [v w']. cbn. apply get_set_same.
Qed.

Lemma defaulted_loop_field before k s after r w :
  NoDup (map fst (before ++ (k, s) :: after)) ->
  get r k = VUndefined ->
  get (fst (fold_left defaulted (before ++ (k, s) :: after) (r, w))) k
  = default_of s (world_after r before w).
Proof.
  intros Hnd Hu.
  rewrite map_app in Hnd. cbn [map] in Hnd.
  pose proof (NoDup_remove_2 _ _ _ Hnd) as Hnotin.
  pose proof (NoDup_remove_1 _ _ _ Hnd) as Hnd'.
  assert (Hnd1 : NoDup (map fst before)) by (eapply NoDup_app_remove_r; eauto).
  rewrite fold_left_app. cbn [fold_left].
  destruct (fold_left defaulted before (r, w)) as [r1 w1] eqn:Hbefore.
  assert (Hr1 : get r1 k = VUndefined).
  { change r1 with (fst (r1, w1)). rewrite <- Hbefore.
    rewrite defaulted_loop_other; [exact Hu|].
    intros Hin. apply Hnotin. apply in_or_app. now left. }
  assert (Hw1 : w1 = world_after r before w).
  { change w1 with (snd (r1, w1)). rewrite <- Hbefore.
    now apply defaulted_loop_world. }
  destruct (defaulted (r1, w1) (k, s)) as [r2 w2] eqn:Hstep.
  rewrite defaulted_loop_other
    by (intros Hin; apply Hnotin; apply in_or_app; now right).
  change r2 with (fst (r2, w2)). rewrite <- Hstep, <- Hw1.
  now apply defaulted_field.
Qed.

End WithHost.
End StoreFacts.

(** ** Digits *)
Module DigitFacts.
Import Chars.

Lemma code_digit_char d : 0 <= d <= 9 -> code (digit_char d) = d + 48.
Proof.
  intros Hd. unfold code, digit_char.
  rewrite nat_ascii_embedding by lia. lia.
Qed.

Lemma digit_char_is_digit d : 0 <= d <= 9 -> is_digit (digit_char d) = true.
Proof.
  intros Hd. unfold is_digit. rewrite code_digit_char by exact Hd.
  apply andb_true_intro. split; apply Z.leb_le; lia.
Qed.

Lemma digit_val_char d : 0 <= d <= 9 -> digit_val (digit_char d) = d.
Proof.
  intros Hd. unfold digit_val. rewrite code_digit_char by exact Hd. lia.
Qed.

Lemma digits_value_from acc ds :
  fold_left (fun a c => 10 * a + digit_val c) ds acc
  = acc * 10 ^ Z.of_nat (List.length ds) + digits_value ds.
Proof.
  unfold digits_value. revert acc.
  induction ds as [|c ds IH]; intros acc; cbn [fold_left List.length].
  - simpl. lia.
  - rewrite IH, (IH (10 * 0 + digit_val c)).
    rewrite Nat2Z.inj_succ, Z.pow_succ_r by lia. lia.
Qed.

Lemma digits_value_app a b :
  digits_value (a ++ b)
  = digits_value a * 10 ^ Z.of_nat (List.length b) + digits_value b.
Proof.
  unfold digits_value at 1. rewrite fold_left_app.
  apply digits_value_from.
Qed.

Lemma all_digits_app a b : all_digits a -> all_digits b -> all_digits (a ++ b).
Proof.
  unfold all_digits. intros Ha Hb. rewrite forallb_app, Ha, Hb. reflexivity.
Qed.

Lemma all_digits_cons c ds :
  all_digits (c :: ds) <-> is_digit c = true /\ all_digits ds.
Proof. unfold all_digits. cbn [forallb]. apply andb_true_iff. Qed.

Lemma all_digits_firstn n ds : all_digits ds -> all_digits (firstn n ds).
Proof.
  revert n. induction ds as [|c ds IH]; intros [|n] Hd; try reflexivity.
  apply all_digits_cons in Hd. destruct Hd as [Hc Hd].
  cbn [firstn]. apply all_digits_cons. auto.
Qed.

Lemma all_digits_skipn n ds : all_digits ds -> all_digits (skipn n ds).
Proof.
  revert n. induction ds as [|c ds IH]; intros [|n] Hd; cbn [skipn];
    try assumption.
  apply all_digits_cons in Hd. destruct Hd as [_ Hd]. auto.
Qed.

Lemma digits_fuel_S f n acc :
  digits_fuel (S f) n acc
  = if n <? 10 then digit_char (n mod 10) :: acc
    else digits_fuel f (n / 10) (digit_char (n mod 10) :: acc).
Proof. reflexivity. Qed.

(** The digits of a number: they are digits, there is one at least, and
    their value is the number. *)
Lemma digits_fuel_spec f : forall n acc,
  0 <= n < 2 ^ Z.of_nat (S f) ->
  exists ds,
    digits_fuel (S f) n acc = ds ++ acc
    /\ all_digits ds /\ ds <> [] /\ digits_value ds = n.
Proof.
  induction f as [|f IH]; intros n acc Hn.
  - exists [digit_char (n mod 10)].
    change (2 ^ Z.of_nat 1) with 2 in Hn.
    assert (Hlt : (n <? 10) = true) by (apply Z.ltb_lt; lia).
    rewrite digits_fuel_S, Hlt.
    assert (Hmod : n mod 10 = n) by (apply Z.mod_small; lia).
    rewrite Hmod. split; [reflexivity|]. split; [|split].
    + apply all_digits_cons. split; [apply digit_char_is_digit; lia|].
      reflexivity.
    + discriminate.
    + unfold digits_value. cbn [fold_left].
      rewrite digit_val_char by lia. lia.
  - rewrite digits_fuel_S.
    assert (Hmod : 0 <= n mod 10 <= 9).
    { pose proof (Z.mod_pos_bound n 10 ltac:(lia)). lia. }
    destruct (n <? 10) eqn:Hlt.
    + apply Z.ltb_lt in Hlt.
      exists [digit_char (n mod 10)].
      rewrite (Z.mod_small n 10) by lia.
      split; [reflexivity|]. split; [|split].
      * apply all_digits_cons. split; [apply digit_char_is_digit; lia|].
        reflexivity.
      * discriminate.
      * unfold digits_value. cbn [fold_left].
        rewrite digit_val_char by lia. lia.
    + apply Z.ltb_ge in Hlt.
      assert (Hq : 0 <= n / 10 < 2 ^ Z.of_nat (S f)).
      { split; [apply Z.div_pos; lia|].
        rewrite (Nat2Z.inj_succ (S f)), Z.pow_succ_r in Hn by lia.
        apply Z.div_lt_upper_bound; lia. }
      destruct (IH (n / 10) (digit_char (n mod 10) :: acc) Hq)
        as (ds & Heq & Hall & Hne & Hval).
      exists (ds ++ [digit_char (n mod 10)]).
      split; [rewrite Heq, <- app_assoc; reflexivity|].
      split; [|split].
      * apply all_digits_app; [exact Hall|].
        apply all_digits_cons. split; [now apply digit_char_is_digit|].
        reflexivity.
      * intros Hnil. apply app_eq_nil in Hnil. destruct Hnil; discriminate.
      * rewrite digits_value_app, Hval. cbn [List.length].
        unfold digits_value at 1. cbn [fold_left].
        rewrite digit_val_char by exact Hmod.
        change (10 ^ Z.of_nat 1) with 10.
        pose proof (Z.div_mod n 10 ltac:(lia)). lia.
Qed.

Lemma digits_of_spec n : 0 <= n ->
  all_digits (digits_of n) /\ digits_of n <> []
  /\ digits_value (digits_of n) = n.
Proof.
  intros Hn. unfold digits_of.
  assert (Hlt : 0 <= n < 2 ^ Z.of_nat (S (Z.to_nat (Z.log2 n)))).
  { split; [exact Hn|].
    rewrite Nat2Z.inj_succ, Z2Nat.id by apply Z.log2_nonneg.
    destruct (Z.eq_dec n 0) as [-> | Hnz]; [reflexivity|].
    apply Z.log2_spec. lia. }
  destruct (digits_fuel_spec _ n [] Hlt) as (ds & Heq & Hall & Hne & Hval).
  rewrite Heq, app_nil_r. auto.
Qed.

Lemma span_digits_app ds r :
  all_digits ds -> stops r -> span_digits (ds ++ r) = (ds, r).
Proof.
  intros Hd Hr. induction ds as [|c ds IH]; cbn [app span_digits].
  - destruct r as [|c r]; [reflexivity|].
    cbn [span_digits]. cbn in Hr. now rewrite Hr.
  - apply all_digits_cons in Hd. destruct Hd as [Hc Hd].
    rewrite Hc, (IH Hd). reflexivity.
Qed.

Lemma span_digits_all ds : all_digits ds -> span_digits ds = (ds, []).
Proof.
  intros Hd. rewrite <- (app_nil_r ds) at 1.
  now apply span_digits_app.
Qed.

Lemma all_digits_zeros n : all_digits (Num.zeros n).
Proof.
  unfold Num.zeros. induction (Z.to_nat n) as [|k IH]; [reflexivity|].
  cbn [repeat]. apply all_digits_cons. split; [reflexivity | exact IH].
Qed.

Lemma digits_value_zeros n : digits_value (Num.zeros n) = 0.
Proof.
  unfold Num.zeros. induction (Z.to_nat n) as [|k IH]; [reflexivity|].
  cbn [repeat]. change ("0"%char :: repeat "0"%char k)
    with (["0"%char] ++ repeat "0"%char k).
  rewrite digits_value_app, IH. reflexivity.
Qed.

Lemma length_zeros n : 0 <= n -> Z.of_nat (List.length (Num.zeros n)) = n.
Proof. intros Hn. unfold Num.zeros. rewrite repeat_length. lia. Qed.

(** A digit is no space, no sign and not the first letter of Infinity. *)
Lemma digit_is_plain c : is_digit c = true ->
  is_space c = false /\ Ascii.eqb c "-" = false /\ Ascii.eqb c "+" = false
  /\ Ascii.eqb c "I" = false /\ Ascii.eqb c "." = false
  /\ Ascii.eqb c "e" = false /\ Ascii.eqb c "E" = false.
Proof.
  unfold is_digit, is_space. intros Hd.
  apply andb_prop in Hd. destruct Hd as [Hlo Hhi].
  apply Z.leb_le in Hlo, Hhi.
  split.
  { apply orb_false_intro; [apply orb_false_intro|].
    - apply andb_false_intro2. apply Z.leb_gt. lia.
    - apply Z.eqb_neq. lia.
    - apply Z.eqb_neq. lia. }
  repeat split;
    match goal with
    | |- Ascii.eqb c ?x = false =>
        destruct (Ascii.eqb_spec c x) as [-> | _]; [|reflexivity];
        cbv in Hlo, Hhi; exfalso; auto
    end.
Qed.

End DigitFacts.

(** ** A number is read back from its text *)
Module RoundTrip.
Import Chars DigitFacts.
Import Num (number, parse_sign, parse_exponent, exponent_chars, literal,
            fin, signed, parse_decimal, parse_unsigned, parse_fraction,
            zeros, layout, to_chars, norm, normalize, fraction_digits,
            exponent_value).

Lemma parse_sign_digit c l :
  is_digit c = true -> parse_sign (c :: l) = (false, c :: l).
Proof.
  intros Hc. destruct (digit_is_plain c Hc) as (_ & Hm & Hp & _).
  unfold parse_sign. now rewrite Hm, Hp.
Qed.

Lemma prefix_Infinity_digit c l :
  is_digit c = true -> prefix (of_string "Infinity") (c :: l) = None.
Proof.
  intros Hc. destruct (digit_is_plain c Hc) as (_ & _ & _ & HI & _).
  unfold of_string. cbn [list_ascii_of_string prefix].
  rewrite Ascii.eqb_sym, HI. reflexivity.
Qed.

Lemma trim_left_digit c l : is_digit c = true -> trim_left (c :: l) = c :: l.
Proof.
  intros Hc. destruct (digit_is_plain c Hc) as (Hs & _).
  cbn [trim_left]. now rewrite Hs.
Qed.

Lemma parse_exponent_nil : parse_exponent [] = (0, []).
Proof. reflexivity. Qed.

Lemma parse_exponent_chars ex :
  parse_exponent ("e"%char :: exponent_chars ex) = (ex, []).
Proof.
  destruct (digits_of_spec (Z.abs ex) (Z.abs_nonneg ex))
    as (Hall & Hne & Hval).
  unfold exponent_chars, parse_exponent.
  change (Ascii.eqb "e" "e" || Ascii.eqb "e" "E")%bool with true.
  cbv iota.
  destruct (ex <? 0) eqn:Hneg.
  - change (parse_sign ("-"%char :: digits_of (Z.abs ex)))
      with (true, digits_of (Z.abs ex)).
    cbv iota beta. rewrite (span_digits_all _ Hall).
    destruct (digits_of (Z.abs ex)) as [|d ds]; [congruence|].
    rewrite Hval. apply Z.ltb_lt in Hneg. f_equal. lia.
  - change (parse_sign ("+"%char :: digits_of (Z.abs ex)))
      with (false, digits_of (Z.abs ex)).
    cbv iota beta. rewrite (span_digits_all _ Hall).
    destruct (digits_of (Z.abs ex)) as [|d ds]; [congruence|].
    rewrite Hval. apply Z.ltb_ge in Hneg. f_equal. lia.
Qed.

(** What [parse_decimal] reads in the text of a literal. *)
Lemma parse_decimal_literal neg ip fp ex :
  all_digits ip -> ip <> [] -> all_digits (fraction_digits fp) ->
  parse_decimal (literal neg ip fp ex)
  = Some (fin (signed neg (digits_value (ip ++ fraction_digits fp)))
              (exponent_value ex
               - Z.of_nat (List.length (fraction_digits fp))), []).
Proof.
  intros Hip Hne Hfp.
  destruct ip as [|c ip']; [congruence|].
  pose proof Hip as Hc. apply all_digits_cons in Hc. destruct Hc as [Hc _].
  set (tail_ex := match ex with
                  | Some ex => "e"%char :: exponent_chars ex
                  | None => []
                  end).
  set (tail := match fp with Some fp => "."%char :: fp | None => [] end
               ++ tail_ex).
  assert (Hsign : parse_sign (literal neg (c :: ip') fp ex)
                  = (neg, (c :: ip') ++ tail)).
  { unfold literal. fold tail_ex. fold tail.
    destruct neg; [reflexivity|]. apply parse_sign_digit, Hc. }
  unfold parse_decimal. rewrite Hsign. cbv iota beta.
  cbn [app]. rewrite (prefix_Infinity_digit _ _ Hc).
  change (c :: ip' ++ tail) with ((c :: ip') ++ tail).
  assert (Hex : stops tail_ex) by (destruct ex; [reflexivity | exact I]).
  assert (Htail : stops tail).
  { unfold tail. destruct fp; [reflexivity | exact Hex]. }
  unfold parse_unsigned. rewrite (span_digits_app _ _ Hip Htail).
  cbv iota beta.
  assert (Hfrac : parse_fraction tail = (fraction_digits fp, tail_ex)).
  { unfold tail, parse_fraction. destruct fp as [fp|]; cbn [app].
    - change (Ascii.eqb "." ".") with true. cbv iota.
      now apply span_digits_app.
    - cbn [fraction_digits]. destruct tail_ex as [|x r] eqn:Htx;
        [reflexivity|].
      destruct ex; [|discriminate].
      injection Htx as <- _. reflexivity. }
  rewrite Hfrac. cbv iota beta. cbn [app].
  assert (Hexp : parse_exponent tail_ex = (exponent_value ex, [])).
  { unfold tail_ex. destruct ex; [apply parse_exponent_chars | reflexivity]. }
  rewrite Hexp. reflexivity.
Qed.

Lemma trim_left_literal neg ip fp ex :
  all_digits ip -> ip <> [] ->
  trim_left (literal neg ip fp ex) = literal neg ip fp ex.
Proof.
  intros Hip Hne. destruct ip as [|c ip']; [congruence|].
  apply all_digits_cons in Hip. destruct Hip as [Hc _].
  unfold literal. destruct neg; [reflexivity|].
  cbn [app]. now apply trim_left_digit.
Qed.

Lemma signed_scale neg v p : signed neg (v * p) = signed neg v * p.
Proof. destruct neg; cbn; lia. Qed.

Lemma signed_nonzero neg v : v <> 0 -> signed neg v <> 0.
Proof. destruct neg; cbn; lia. Qed.

Lemma firstn_nonempty {A} n (l : list A) :
  (0 < n)%nat -> l <> [] -> firstn n l <> [].
Proof. destruct n, l; cbn; intros; try congruence; lia. Qed.

(** Each layout of Number::toString is a literal whose value is that of
    the digits at the exponent they stand for. *)
Lemma layout_literal (neg : bool) ds n :
  all_digits ds -> 0 < digits_value ds ->
  exists ip fp ex,
    (if neg then ["-"%char] else []) ++ layout ds n = literal neg ip fp ex
    /\ all_digits ip /\ ip <> [] /\ all_digits (fraction_digits fp)
    /\ fin (signed neg (digits_value (ip ++ fraction_digits fp)))
           (exponent_value ex - Z.of_nat (List.length (fraction_digits fp)))
       = fin (signed neg (digits_value ds)) (n - Z.of_nat (List.length ds)).
Proof.
  intros Hds Hpos.
  assert (Hne : ds <> []) by (intros ->; cbn in Hpos; lia).
  set (k := Z.of_nat (List.length ds)).
  assert (Hk : 0 < k).
  { unfold k. destruct ds; [congruence | cbn [List.length]; lia]. }
  unfold layout. fold k.
  destruct ((k <=? n) && (n <=? 21))%bool eqn:H1.
  { apply andb_prop in H1. destruct H1 as [Hkn _]. apply Z.leb_le in Hkn.
    exists (ds ++ zeros (n - k)), None, None.
    split; [unfold literal; now rewrite !app_nil_r|].
    split; [apply all_digits_app; [exact Hds | apply all_digits_zeros]|].
    split; [intros Hnil; apply app_eq_nil in Hnil; tauto|].
    split; [reflexivity|].
    cbn [fraction_digits exponent_value List.length].
    rewrite app_nil_r, digits_value_app, digits_value_zeros, length_zeros
      by lia.
    rewrite Z.add_0_r, signed_scale. unfold fin.
    rewrite NumFacts.norm_scale by (try apply signed_nonzero; lia).
    replace (0 - Z.of_nat 0 + (n - k)) with (n - k) by lia.
    reflexivity. }
  destruct ((0 <? n) && (n <=? 21))%bool eqn:H2.
  { apply andb_prop in H2. destruct H2 as [Hn0 Hn21].
    apply Z.ltb_lt in Hn0. apply Z.leb_le in Hn21.
    assert (Hnk : n < k).
    { apply andb_false_iff in H1. destruct H1 as [H1 | H1].
      - now apply Z.leb_gt in H1.
      - apply Z.leb_gt in H1. lia. }
    exists (firstn (Z.to_nat n) ds), (Some (skipn (Z.to_nat n) ds)), None.
    split; [unfold literal; now rewrite !app_nil_r|].
    split; [now apply all_digits_firstn|].
    split; [apply firstn_nonempty; [lia | exact Hne]|].
    split; [now apply all_digits_skipn|].
    cbn [fraction_digits exponent_value].
    rewrite firstn_skipn, length_skipn. f_equal. unfold k. lia. }
  destruct ((-6 <? n) && (n <=? 0))%bool eqn:H3.
  { apply andb_prop in H3. destruct H3 as [_ Hn0]. apply Z.leb_le in Hn0.
    exists ["0"%char], (Some (zeros (- n) ++ ds)), None.
    split; [unfold literal; now rewrite !app_nil_r|].
    split; [reflexivity|]. split; [discriminate|].
    split; [apply all_digits_app; [apply all_digits_zeros | exact Hds]|].
    cbn [fraction_digits exponent_value].
    rewrite !digits_value_app, digits_value_zeros, length_app.
    change (digits_value ["0"%char]) with 0.
    rewrite Nat2Z.inj_add, length_zeros by lia.
    replace (0 - (- n + Z.of_nat (List.length ds))) with (n - k)
      by (unfold k; lia).
    do 2 f_equal; lia. }
  destruct ds as [|d [|d' rest]]; [congruence| |].
  - exists [d], None, (Some (n - 1)).
    split; [reflexivity|].
    split; [exact Hds|]. split; [discriminate|]. split; [reflexivity|].
    cbn [fraction_digits exponent_value List.length app].
    f_equal; unfold k; cbn [List.length]; lia.
  - exists [d], (Some (d' :: rest)), (Some (n - 1)).
    split; [reflexivity|].
    apply all_digits_cons in Hds. destruct Hds as [Hd Hrest].
    split; [apply all_digits_cons; split; [exact Hd | reflexivity]|].
    split; [discriminate|]. split; [exact Hrest|].
    cbn [fraction_digits exponent_value app].
    f_equal; unfold k; cbn [List.length]; lia.
Qed.

(** parseFloat reads the text of a number as the number. *)
Lemma parseFloat_toString x :
  Num.parseFloat (Num.toString x) = normalize x.
Proof.
  unfold Num.parseFloat, Num.toString.
  rewrite LikeFacts.of_to_string.
  destruct x as [|neg|m e]; [reflexivity | destruct neg; reflexivity |].
  unfold to_chars, normalize, fin.
  destruct (norm m e) as [m' e'] eqn:Hn.
  destruct (m' =? 0) eqn:Hz.
  - apply Z.eqb_eq in Hz. subst m'.
    destruct (NumFacts.norm_spec _ _ _ _ Hn)
      as [(_ & _ & ->) | (_ & _ & _ & Hmod)]; [reflexivity|].
    now contradiction Hmod.
  - apply Z.eqb_neq in Hz.
    destruct (digits_of_spec (Z.abs m') (Z.abs_nonneg m'))
      as (Hall & Hne & Hval).
    destruct (layout_literal (m' <? 0) (digits_of (Z.abs m'))
                (Z.of_nat (List.length (digits_of (Z.abs m'))) + e') Hall)
      as (ip & fp & ex & Htext & Hip & Hipne & Hfp & Hfin);
      [rewrite Hval; lia|].
    rewrite Htext, (trim_left_literal _ _ _ _ Hip Hipne).
    rewrite (parse_decimal_literal _ _ _ _ Hip Hipne Hfp), Hfin, Hval.
    replace (signed (m' <? 0) (Z.abs m')) with m'.
    + replace (Z.of_nat (List.length (digits_of (Z.abs m'))) + e'
               - Z.of_nat (List.length (digits_of (Z.abs m')))) with e'
        by lia.
      unfold fin. now rewrite (NumFacts.norm_idempotent _ _ _ _ Hn).
    + unfold signed. destruct (m' <? 0) eqn:Hneg.
      * apply Z.ltb_lt in Hneg. lia.
      * apply Z.ltb_ge in Hneg. lia.
Qed.

End RoundTrip.

(** ** Coercion *)
Module CoercionFacts.
Import JS Utils Described.

Lemma gt_latest m e :
  Num.gt (Num.Fin (Z.abs m) e) (Num.Fin latest 0) = false ->
  Z.abs (Num.trunc m e) <= latest.
Proof.
  unfold Num.gt, Num.compare, Num.align, Num.trunc.
  destruct (0 <=? e) eqn:He.
  - apply Z.leb_le in He.
    rewrite (Z.min_r e 0) by lia.
    rewrite Z.sub_0_r. change (10 ^ (0 - 0)) with 1. rewrite Z.mul_1_r.
    destruct (Z.compare_spec (Z.abs m * 10 ^ e) latest) as [Heq | Hlt | Hgt];
      intros Hc; try discriminate;
      pose proof (NumFacts.pow10_pos e He); rewrite Z.abs_mul;
      rewrite (Z.abs_eq (10 ^ e)) by lia; lia.
  - apply Z.leb_gt in He.
    rewrite (Z.min_l e 0) by lia.
    rewrite Z.sub_diag. change (10 ^ 0) with 1. rewrite Z.mul_1_r.
    rewrite Z.sub_0_l.
    pose proof (NumFacts.pow10_pos (- e) ltac:(lia)) as Hp.
    assert (Hq : Z.abs (Z.quot m (10 ^ (- e))) = Z.abs m / 10 ^ (- e)).
    { rewrite <- Z.quot_abs by lia.
      rewrite (Z.abs_eq (10 ^ (- e))) by lia.
      apply Z.quot_div_nonneg; [apply Z.abs_nonneg | lia]. }
    rewrite Hq.
    destruct (Z.compare_spec (Z.abs m) (latest * 10 ^ (- e)))
      as [Heq | Hlt | Hgt]; intros Hc; try discriminate;
      apply Z.div_le_upper_bound; lia.
Qed.

Lemma TimeClip_integer t m e :
  TimeClip t = Num.Fin m e ->
  0 <= e /\ Z.abs (m * 10 ^ e) <= latest /\ Num.fin (m * 10 ^ e) 0 = Num.Fin m e.
Proof.
  destruct t as [| |m0 e0]; try discriminate.
  unfold TimeClip. fold latest.
  destruct (Num.gt (Num.Fin (Z.abs m0) e0) (Num.Fin latest 0)) eqn:Hgt;
    [discriminate|].
  apply gt_latest in Hgt.
  unfold Num.of_Z, Num.fin.
  destruct (Num.norm (Num.trunc m0 e0) 0) as [m' e'] eqn:Hn.
  intros [= -> ->].
  assert (He : 0 <= e /\ Num.trunc m0 e0 = m * 10 ^ e).
  { destruct (NumFacts.norm_spec _ _ _ _ Hn)
      as [(-> & -> & ->) | (_ & Hle & Heq & _)].
    - split; [lia | reflexivity].
    - rewrite Z.sub_0_r in Heq. split; assumption. }
  destruct He as [He Hz]. rewrite <- Hz.
  split; [exact He|]. split; [exact Hgt|].
  now rewrite Hn.
Qed.

Lemma TimeClip_finite t neg : TimeClip t <> Num.Infty neg.
Proof.
  destruct t as [| |m e]; try discriminate.
  unfold TimeClip, Num.of_Z, Num.fin.
  destruct (Num.gt _ _); [discriminate|].
  destruct (Num.norm _ _). discriminate.
Qed.

Lemma TimeClip_idempotent t : TimeClip (TimeClip t) = TimeClip t.
Proof.
  destruct (TimeClip t) as [|neg|m e] eqn:Ht;
    [reflexivity | now apply TimeClip_finite in Ht |].
  destruct (TimeClip_integer _ _ _ Ht) as (He & Hle & Hfin).
  unfold TimeClip. fold latest.
  assert (Htrunc : Num.trunc m e = m * 10 ^ e).
  { unfold Num.trunc. destruct (0 <=? e) eqn:Hb; [reflexivity|].
    apply Z.leb_gt in Hb. lia. }
  assert (Hgt : Num.gt (Num.Fin (Z.abs m) e) (Num.Fin latest 0) = false).
  { unfold Num.gt, Num.compare, Num.align.
    rewrite (Z.min_r e 0) by lia.
    rewrite Z.sub_0_r. change (10 ^ (0 - 0)) with 1. rewrite Z.mul_1_r.
    pose proof (NumFacts.pow10_pos e He).
    rewrite Z.abs_mul, (Z.abs_eq (10 ^ e)) in Hle by lia.
    destruct (Z.compare_spec (Z.abs m * 10 ^ e) latest);
      try reflexivity; lia. }
  rewrite Hgt, Htrunc. exact Hfin.
Qed.

Section WithHost.
Context `{Host}.

Lemma Date_new_again fresh fresh' v :
  equivalent (Date_new fresh' (Date_new fresh v)) (Date_new fresh v).
Proof.
  assert (Hnew : exists t, Date_new fresh v = VDate fresh (TimeClip t)).
  { unfold Date_new, ToPrimitive. destruct v; cbn [is_object]; eauto. }
  destruct Hnew as (t & ->).
  unfold Date_new, equivalent. cbn [canon].
  now rewrite TimeClip_idempotent.
Qed.

Lemma parseFloat_again v :
  equivalent (VNum (parseFloat (VNum (parseFloat v)))) (VNum (parseFloat v)).
Proof.
  unfold equivalent, parseFloat at 1. cbn [ToString canon].
  rewrite RoundTrip.parseFloat_toString.
  now rewrite NumFacts.normalize_idempotent.
Qed.

(** On every host the text ["false"] of a json field becomes [false], and
    [false] becomes null. *)
Lemma convert_json_false fresh fresh' :
  Model.convert "json" fresh (VStr "false") = VBool false
  /\ Model.convert "json" fresh' (VBool false) = VNull.
Proof.
  unfold Model.convert. cbn. now rewrite JSON_parse_false.
Qed.

Lemma Date_new_is_date fresh v : exists t, Date_new fresh v = VDate fresh t.
Proof.
  unfold Date_new, ToPrimitive. destruct v; cbn [is_object]; eauto.
Qed.

(** Each type but json converts its own results to themselves. *)
Lemma convert_again t fresh fresh' v :
  String.eqb t "json" = false ->
  is_null v || is_undefined v = false ->
  let once := Model.convert t fresh v in
  equivalent (if is_null once || is_undefined once then once
              else Model.convert t fresh' once) once.
Proof.
  intros Hjson Hv once. unfold once, Model.convert. rewrite Hjson.
  destruct (String.eqb t "number").
  { destruct (strict_eq v (VStr "")); [reflexivity|].
    cbn [is_null is_undefined orb strict_eq]. apply parseFloat_again. }
  destruct (String.eqb t "boolean").
  { cbn [is_null is_undefined orb strict_eq].
    destruct (strict_eq v (VBool true) || strict_eq v (VStr "true")
              || strict_eq v (VStr "1")); reflexivity. }
  destruct (String.eqb t "date").
  { destruct (truthy v); [|reflexivity].
    destruct (Date_new_is_date fresh v) as (d & Hd).
    rewrite Hd. cbn [is_null is_undefined orb truthy].
    rewrite <- Hd. apply Date_new_again. }
  rewrite Hv. reflexivity.
Qed.

End WithHost.
End CoercionFacts.

(** ** The tests of the class [Model], run on the model *)
Module ModelTests.
Import JS Utils Described Examples.

(** The header values with and without timestamps. *)
Example header_values :
  Model._getHeaderValues sample_schema true
  = ["id"; "name"; "age"; "active"; "createdAt"; "updatedAt"]
  /\ Model._getHeaderValues sample_schema false
     = ["id"; "name"; "age"; "active"].
Proof. split; reflexivity. Qed.

(** A row becomes an object with converted cells, under both classes. *)
Example row_to_object :
  let row := [("id", VStr "123"); ("name", VStr "Test User");
              ("age", VStr "25"); ("active", VStr "true");
              ("_sheet", VObj 9 [])] in
  let obj := BaseModel._rowToObject test_model 100 5 row in
  get obj "id" = VStr "123"
  /\ get obj "name" = VStr "Test User"
  /\ get obj "age" = VNum (Num.Fin 25 0)
  /\ get obj "active" = VBool true
  /\ get obj "_row" = VObj 5 row
  /\ get (Model._rowToObject sample_schema 100 5 row) "age"
     = VNum (Num.Fin 25 0).
Proof. repeat split; reflexivity. Qed.

(** [findAll] with [where: { active: true }] on the three rows. *)
Example find_all :
  option_map (map (fun record => get record "name"))
    (match BaseModel.findAll test_model 100 sheet_rows
             (where_only [("active", VBool true)]) with
     | Ok results => Some results
     | _ => None
     end)
  = Some [VStr "Alice"; VStr "Bob"].
Proof. reflexivity. Qed.

(** The validation that [create] runs on the candidate [{ age: 30 }], once
    it has its identifier and its defaults: the message that the test
    expects in the error of [create]. *)
Example create_without_name :
  validateData [("age", VNum (Num.Fin 3 1)); ("id", VStr "1700000000000");
                ("active", VBool true)] sample_schema false
  = Throws (Error "Validation failed: Field 'name' is required").
Proof. reflexivity. Qed.

End ModelTests.

(** ** Lists *)
Module ListFacts.

Lemma filter_filter {A} (f g : A -> bool) l :
  List.filter g (List.filter f l) = List.filter (fun x => f x && g x) l.
Proof.
  induction l as [|x l IH]; [reflexivity|].
  cbn [List.filter]. destruct (f x); cbn [andb List.filter]; [|exact IH].
  now rewrite IH.
Qed.

Lemma filter_none {A} (f : A -> bool) l :
  (forall x, In x l -> f x = false) -> List.filter f l = [].
Proof.
  induction l as [|x l IH]; intros Hall; [reflexivity|].
  cbn [List.filter]. rewrite (Hall x) by now left.
  apply IH. intros y Hy. apply Hall. now right.
Qed.

Lemma filter_split {A} (f g : A -> bool) l :
  (forall x, In x l -> g x = negb (f x)) ->
  Permutation (List.filter f l ++ List.filter g l) l.
Proof.
  induction l as [|x l IH]; intros Hfg; [reflexivity|].
  cbn [List.filter]. rewrite (Hfg x) by now left.
  assert (IH' := IH (fun y Hy => Hfg y (or_intror Hy))).
  destruct (f x); cbn [negb app].
  - now constructor.
  - rewrite <- Permutation_middle. now constructor.
Qed.

Lemma hd_filter {A} (f : A -> bool) l :
  hd_error (List.filter f l) = List.find f l.
Proof.
  induction l as [|x l IH]; [reflexivity|].
  cbn [List.filter List.find]. destruct (f x); [reflexivity | exact IH].
Qed.

Lemma fold_left_ext {A B} (f g : A -> B -> A) l : forall a,
  (forall a b, In b l -> f a b = g a b) ->
  fold_left f l a = fold_left g l a.
Proof.
  induction l as [|b l IH]; intros a Hfg; [reflexivity|].
  cbn [fold_left]. rewrite (Hfg a b) by now left.
  apply IH. intros a' b' Hin. apply Hfg. now right.
Qed.

Lemma firstn_more {A} (l : list A) : forall n m,
  firstn n l ++ firstn m (skipn n l) = firstn (n + m) l.
Proof.
  induction l as [|x l IH]; intros [|n] m; cbn; try reflexivity.
  - now rewrite firstn_nil.
  - now rewrite IH.
Qed.

Lemma page_part {A} (l : list A) n k :
  Permutation (firstn n (skipn k l) ++ firstn k l ++ skipn n (skipn k l)) l.
Proof.
  rewrite Permutation_app_swap_app.
  rewrite (firstn_skipn n (skipn k l)). now rewrite firstn_skipn.
Qed.

Lemma existsb_eqb name (l : list string) :
  existsb (String.eqb name) l = true <-> In name l.
Proof.
  rewrite existsb_exists. split.
  - intros (x & Hin & Heq). apply String.eqb_eq in Heq. now subst.
  - intros Hin. exists name. split; [exact Hin | apply String.eqb_refl].
Qed.

End ListFacts.

(** ** Laws of the filter *)
Module FilterLaws.
Import JS Utils Described Notions.

Lemma every_true {A} (f : A -> outcome bool) l :
  every f l = Ok true <-> forall x, In x l -> f x = Ok true.
Proof.
  induction l as [|a l IH]; cbn [every].
  - split; [intros _ x [] | reflexivity].
  - split.
    + intros Hev x [<- | Hin].
      * destruct (f a) as [[|]| |]; cbn [bind] in Hev;
          try discriminate; reflexivity.
      * destruct (f a) as [[|]| |]; cbn [bind] in Hev; try discriminate.
        now apply IH.
    + intros Hall. rewrite (Hall a) by now left. cbn [bind].
      apply IH. intros x Hin. apply Hall. now right.
Qed.

Lemma every_app {A} (f : A -> outcome bool) l1 l2 :
  every f (l1 ++ l2)
  = bind (every f l1) (fun b => if b then every f l2 else Ok false).
Proof.
  induction l1 as [|a l1 IH]; cbn [app every bind]; [reflexivity|].
  destruct (f a) as [[|]| |]; cbn [bind]; try reflexivity.
  exact IH.
Qed.

Lemma every_holds {A} (f : A -> outcome bool) l b :
  every f l = Ok b -> b = forallb (holds f) l.
Proof.
  revert b. induction l as [|a l IH]; intros b; cbn [every forallb].
  - now intros [= <-].
  - unfold holds at 1.
    destruct (f a) as [[|]| |]; cbn [bind]; try discriminate.
    + apply IH.
    + now intros [= <-].
Qed.

Lemma every_all_ok {A} (f : A -> outcome bool) l :
  (forall x, In x l -> exists b, f x = Ok b) ->
  every f l = Ok (forallb (holds f) l).
Proof.
  induction l as [|a l IH]; intros Hall; [reflexivity|].
  cbn [every forallb].
  destruct (Hall a (or_introl eq_refl)) as [b Hb].
  unfold holds at 1. rewrite Hb. cbn [bind].
  destruct b; [|reflexivity].
  apply IH. intros x Hin. apply Hall. now right.
Qed.

Lemma filter_ok {A} (f : A -> outcome bool) l : forall kept,
  filter f l = Ok kept ->
  kept = List.filter (holds f) l /\ forall x, In x l -> f x = Ok (holds f x).
Proof.
  induction l as [|a l IH]; cbn [filter List.filter]; intros kept Hk.
  - injection Hk as <-. split; [reflexivity | intros x []].
  - unfold holds at 1. 
    destruct (f a) as [b| |] eqn:Hfa; cbn [bind] in Hk; try discriminate.
    destruct (filter f l) as [kept'| |]; cbn [bind] in Hk; try discriminate.
    injection Hk as <-.
    destruct (IH kept' eq_refl) as [-> Hall].
    split; [destruct b; reflexivity|].
    intros x [<- | Hin]; [|now apply Hall].
    unfold holds. now rewrite Hfa.
Qed.

Lemma filter_all_ok {A} (f : A -> outcome bool) l :
  (forall x, In x l -> exists b, f x = Ok b) ->
  filter f l = Ok (List.filter (holds f) l).
Proof.
  induction l as [|a l IH]; intros Hall; [reflexivity|].
  cbn [filter List.filter].
  destruct (Hall a (or_introl eq_refl)) as [b Hb].
  unfold holds at 1. rewrite Hb. cbn [bind].
  rewrite IH by (intros x Hin; apply Hall; now right). cbn [bind].
  destruct b; reflexivity.
Qed.

Section WithHost.
Context `{Host}.

Lemma matches_entry_primitive record key v :
  is_object v = false ->
  matches_entry record (key, v) = Ok (loose_eq (get record key) v).
Proof. intros Hv. unfold matches_entry. now rewrite Hv. Qed.

Lemma matches_entry_no_prop record key v :
  (forall op, prop v op = VUndefined) ->
  matches_entry record (key, v) = Ok (loose_eq (get record key) v).
Proof.
  intros Hv. unfold matches_entry. rewrite !Hv. cbn [defined is_undefined negb].
  destruct (is_object v); reflexivity.
Qed.

(** The plain value [v] as a condition means [{ $eq: v }]. *)
Lemma matches_entry_eq record key id v :
  v <> VUndefined ->
  matches_entry record (key, VObj id [("$eq", v)])
  = Ok (loose_eq (get record key) v).
Proof.
  intros Hv. unfold matches_entry. cbn.
  destruct v; try reflexivity. congruence.
Qed.

Lemma matches_entry_testable record key condition :
  testable condition = true ->
  exists b, matches_entry record (key, condition) = Ok b.
Proof.
  destruct condition as [| |b|n|s|i t|i elems|i props]; intros Ht;
    try (eexists; reflexivity).
  unfold testable, honored, recognized in Ht. cbn [List.find] in Ht.
  unfold matches_entry. cbn [is_object prop].
  repeat match goal with
         | |- context [defined (get props ?op)] =>
             destruct (defined (get props op)); [try (eexists; reflexivity)|]
         end; try (eexists; reflexivity).
  - cbn in Ht. destruct (get props "$in"); try discriminate;
      eexists; reflexivity.
  - cbn in Ht. destruct (get props "$nin"); try discriminate;
      cbn [includes bind]; eexists; reflexivity.
  - cbn in Ht. destruct (get props "$like") as [| | | |p| | |];
      try discriminate.
    rewrite (LikeFacts.like_plain p _ Ht). eexists; reflexivity.
Qed.

Lemma matches_entry_wrong_operand record key id props op operand :
  honored props = Some (op, operand) ->
  wrong_operand op operand = true ->
  matches_entry record (key, VObj id props) = Throws TypeError.
Proof.
  unfold honored, recognized, matches_entry. cbn [List.find is_object prop].
  repeat match goal with
         | |- context [defined (get props ?o)] =>
             destruct (defined (get props o));
             [intros [= <- <-]; try discriminate|]
         end; try discriminate.
  - intros Hw. cbn in Hw. destruct (get props "$in"); try discriminate;
      reflexivity.
  - intros Hw. cbn in Hw. destruct (get props "$nin"); try discriminate;
      reflexivity.
  - intros Hw. cbn in Hw. destruct (get props "$like"); try discriminate;
      reflexivity.
Qed.

End WithHost.
End FilterLaws.

(** ** Laws of the sort *)
Module SortLaws.
Import JS Utils Described.

Section Generic.
Context {A : Type} (comparefn : A -> A -> number).

Lemma insert_perm x l : Permutation (insert comparefn x l) (x :: l).
Proof.
  induction l as [|y l IH]; cbn [insert]; [reflexivity|].
  destruct (sort_gt comparefn y x); [reflexivity|].
  rewrite IH. apply perm_swap.
Qed.

Lemma sort_loop_perm l : forall sorted,
  Permutation (fold_left (fun sorted x => insert comparefn x sorted) l sorted)
              (sorted ++ l).
Proof.
  induction l as [|x l IH]; intros sorted; cbn [fold_left].
  - now rewrite app_nil_r.
  - rewrite IH, insert_perm. apply Permutation_middle.
Qed.

Lemma sort_perm l : Permutation (sort comparefn l) l.
Proof. unfold sort. now rewrite sort_loop_perm. Qed.

(** An element that nothing exceeds goes to the end. *)
Lemma insert_last x l :
  (forall y, In y l -> sort_gt comparefn y x = false) ->
  insert comparefn x l = l ++ [x].
Proof.
  induction l as [|y l IH]; intros Hall; [reflexivity|].
  cbn [insert]. rewrite (Hall y) by now left.
  rewrite IH by (intros z Hz; apply Hall; now right). reflexivity.
Qed.

Lemma sort_loop_stable l : forall sorted,
  (forall a b, In a (sorted ++ l) -> In b l -> sort_gt comparefn a b = false) ->
  fold_left (fun sorted x => insert comparefn x sorted) l sorted
  = sorted ++ l.
Proof.
  induction l as [|x l IH]; intros sorted Hall; cbn [fold_left].
  - now rewrite app_nil_r.
  - rewrite insert_last.
    + rewrite IH; [now rewrite <- app_assoc|].
      intros a b Ha Hb. apply Hall; [|now right].
      rewrite <- app_assoc in Ha. exact Ha.
    + intros y Hy. apply Hall; [|now left].
      apply in_or_app. now left.
Qed.

Lemma sort_stable l :
  (forall a b, In a l -> In b l -> sort_gt comparefn a b = false) ->
  sort comparefn l = l.
Proof.
  intros Hall. unfold sort. rewrite sort_loop_stable; [reflexivity|].
  exact Hall.
Qed.

(** The sort orders the elements of a domain on which the comparator
    follows a transitive relation. *)
Variable dom : A -> Prop.
Variable le : A -> A -> Prop.
Hypothesis le_trans :
  forall x y z, dom x -> dom y -> dom z -> le x y -> le y z -> le x z.
Hypothesis gt_le :
  forall x y, dom x -> dom y -> sort_gt comparefn y x = true -> le x y.
Hypothesis not_gt_le :
  forall x y, dom x -> dom y -> sort_gt comparefn y x = false -> le y x.

Lemma insert_sorted x l :
  dom x -> Forall dom l -> StronglySorted le l ->
  StronglySorted le (insert comparefn x l).
Proof.
  intros Hx Hdom Hs.
  induction Hs as [|y l Hs IH Hy]; cbn [insert].
  - constructor; constructor.
  - inversion Hdom as [|? ? Hdy Hdl]; subst.
    destruct (sort_gt comparefn y x) eqn:Hgt.
    + constructor; [now constructor|].
      constructor; [now apply gt_le|].
      rewrite Forall_forall in Hy, Hdl |- *.
      intros z Hz. apply (le_trans x y z); auto.
    + constructor; [now apply IH|].
      rewrite Forall_forall in Hy |- *.
      intros z Hz.
      apply (Permutation_in _ (insert_perm x l)) in Hz.
      destruct Hz as [<- | Hz]; [now apply not_gt_le | now apply Hy].
Qed.

Lemma sort_loop_sorted l : forall sorted,
  Forall dom sorted -> Forall dom l -> StronglySorted le sorted ->
  StronglySorted le
    (fold_left (fun sorted x => insert comparefn x sorted) l sorted).
Proof.
  induction l as [|x l IH]; intros sorted Hds Hdl Hs; [exact Hs|].
  cbn [fold_left]. inversion Hdl; subst.
  apply IH; [|assumption|now apply insert_sorted].
  rewrite Forall_forall in *. intros z Hz.
  apply (Permutation_in _ (insert_perm x sorted)) in Hz.
  destruct Hz as [<- | Hz]; auto.
Qed.

Lemma sort_sorted l : Forall dom l -> StronglySorted le (sort comparefn l).
Proof.
  intros Hd. unfold sort. apply sort_loop_sorted; auto; constructor.
Qed.

End Generic.

(** The order of finite numbers is that of their mantissas over any
    common exponent. *)
Lemma compare_over e m1 e1 m2 e2 :
  e <= e1 -> e <= e2 ->
  Num.compare (Num.Fin m1 e1) (Num.Fin m2 e2)
  = Some (m1 * 10 ^ (e1 - e) ?= m2 * 10 ^ (e2 - e)).
Proof.
  intros H1 H2. unfold Num.compare, Num.align. f_equal.
  set (e0 := Z.min e1 e2).
  replace (e1 - e) with ((e1 - e0) + (e0 - e)) by lia.
  replace (e2 - e) with ((e2 - e0) + (e0 - e)) by lia.
  rewrite !Z.pow_add_r by lia. rewrite !Z.mul_assoc.
  apply Zmult_compare_compat_r.
  apply Z.lt_gt, NumFacts.pow10_pos. lia.
Qed.

Lemma le_trans_finite x y z :
  finite x = true -> finite y = true -> finite z = true ->
  Num.le x y = true -> Num.le y z = true -> Num.le x z = true.
Proof.
  destruct x as [| |m1 e1], y as [| |m2 e2], z as [| |m3 e3];
    try discriminate.
  intros _ _ _. unfold Num.le.
  set (e := Z.min e1 (Z.min e2 e3)).
  rewrite (compare_over e m1 e1 m2 e2), (compare_over e m2 e2 m3 e3),
    (compare_over e m1 e1 m3 e3) by lia.
  set (a := m1 * 10 ^ (e1 - e)). set (b := m2 * 10 ^ (e2 - e)).
  set (c := m3 * 10 ^ (e3 - e)).
  destruct (Z.compare_spec a b), (Z.compare_spec b c),
    (Z.compare_spec a c); try discriminate; try reflexivity; lia.
Qed.

Lemma compare_opp_finite x y :
  finite x = true -> finite y = true ->
  exists c, Num.compare x y = Some c /\ Num.compare y x = Some (CompOpp c).
Proof.
  destruct x as [| |m1 e1], y as [| |m2 e2]; try discriminate.
  intros _ _. set (e := Z.min e1 e2).
  rewrite (compare_over e m1 e1 m2 e2), (compare_over e m2 e2 m1 e1) by lia.
  eexists. split; [reflexivity|]. now rewrite Z.compare_antisym.
Qed.

Section WithHost.
Context `{Host}.

(** With one key, on two values that parse to finite numbers, the
    comparator is positive when the first is the greater, or the lesser if
    the direction is desc. *)
Lemma sort_gt_numeric a b field direction :
  finite (parseFloat (get a field)) = true ->
  finite (parseFloat (get b field)) = true ->
  sort_gt (comparator [(field, direction)]) a b
  = match Num.compare (parseFloat (get a field)) (parseFloat (get b field))
    with
    | Some Gt => negb (descending direction)
    | Some Lt => descending direction
    | _ => false
    end.
Proof.
  intros Ha Hb.
  pose proof (SortFacts.compare_key_verdict a b (field, direction)) as Hv.
  unfold key_verdict in Hv. cbv zeta in Hv.
  unfold sort_gt. cbn [comparator].
  destruct (compare_opp_finite _ _ Ha Hb) as (c & Hc & _).
  rewrite Hc in Hv |- *. rewrite Ha in Hv.
  destruct (compare_key a b (field, direction)) as [r|]; cbn [verdict_of] in Hv.
  - unfold Num.gt, Num.lt in *.
    destruct (Num.compare r Num.zero) as [[| |]|];
      destruct c, (descending direction); cbn in Hv |- *;
      try discriminate; reflexivity.
  - destruct c, (descending direction); cbn in Hv |- *;
      try discriminate; reflexivity.
Qed.

End WithHost.
End SortLaws.

(** ** Laws of the validator *)
Module ValidatorLaws.
Import JS Utils Described.
Section WithHost.
Context `{Host}.

(** Full validation reports what partial validation reports, and the
    required fields that are missing. *)
Lemma field_violations_full data entry :
  field_violations data false entry
  = when (required (snd entry) && missing (get data (fst entry)))
         (msg_required (fst entry))
    ++ field_violations data true entry.
Proof. destruct entry as [field s]. reflexivity. Qed.

Lemma field_violations_absent data field s :
  get data field = VUndefined ->
  field_violations data true (field, s) = [].
Proof. intros Hu. unfold field_violations. now rewrite Hu. Qed.

Lemma violations_present data schema :
  violations data true schema
  = violations data true
      (List.filter (fun entry => defined (get data (fst entry))) schema).
Proof.
  unfold violations.
  induction schema as [|[field s] schema IH]; [reflexivity|].
  cbn [flat_map List.filter fst]. unfold defined.
  destruct (get data field) eqn:Hv; cbn [is_undefined negb flat_map];
    rewrite IH; try reflexivity.
  now rewrite field_violations_absent.
Qed.

Lemma violations_partial_nil data schema :
  violations data false schema = [] -> violations data true schema = [].
Proof.
  unfold violations.
  induction schema as [|entry schema IH]; [reflexivity|].
  cbn [flat_map]. rewrite field_violations_full.
  intros Hnil. apply app_eq_nil in Hnil. destruct Hnil as [Hentry Hrest].
  apply app_eq_nil in Hentry. destruct Hentry as [_ Hentry].
  now rewrite Hentry, IH.
Qed.

(** The validator reads the candidate at the fields of the schema. *)
Lemma violations_ext d1 d2 partial schema :
  (forall field, In field (map fst schema) -> get d1 field = get d2 field) ->
  violations d1 partial schema = violations d2 partial schema.
Proof.
  unfold violations.
  induction schema as [|[field s] schema IH]; intros Hsame; [reflexivity|].
  cbn [flat_map]. rewrite IH by (intros f Hf; apply Hsame; now right).
  f_equal. unfold field_violations. now rewrite (Hsame field) by now left.
Qed.
End WithHost.
End ValidatorLaws.

(** ** Laws of the pages *)
Module PageLaws.
Import JS Utils Described.

Lemma slice_part {A} (l : list A) start end_ :
  exists others, Permutation (slice l start end_ ++ others) l.
Proof. unfold slice. eexists. apply ListFacts.page_part. Qed.

Lemma filter_part {A} (f : A -> bool) l :
  exists others, Permutation (List.filter f l ++ others) l.
Proof.
  exists (List.filter (fun x => negb (f x)) l).
  apply ListFacts.filter_split. reflexivity.
Qed.

Section WithHost.
Context `{Host}.

(** The page of [limit] records from [offset]. *)
Lemma applyQueryOptions_page records w o (lim off : nat) :
  applyQueryOptions records
    {| where_ := w; orderBy := o; limit := Some (Num.of_nat lim);
       offset := Some (Num.of_nat off) |}
  = bind (filter_stage w records)
         (fun kept => Ok (page lim off (sort_stage o kept))).
Proof.
  unfold applyQueryOptions, filter_stage, sort_stage, page.
  cbn [where_ orderBy limit offset].
  destruct (match w with
            | Some w0 => filterRecords records w0
            | None => Ok records
            end) as [kept| |]; cbn [bind]; try reflexivity.
  f_equal. apply SliceFacts.slice_nat.
  - apply SliceFacts.integer_offset.
  - apply SliceFacts.integer_add;
      [apply SliceFacts.integer_offset | apply SliceFacts.integer_of_Z].
Qed.

Lemma page_next (records : list object) n m k :
  page n k records ++ page m (k + n) records = page (n + m) k records.
Proof.
  unfold page. rewrite Nat.add_comm, <- skipn_skipn.
  apply ListFacts.firstn_more.
Qed.

End WithHost.
End PageLaws.

(** ** Laws of the defaults *)
Module DefaultLaws.
Import JS Utils Described Notions.
Section WithHost.
Context `{Host}.

Lemma defaulted_settled r w entry :
  settled r entry -> defaulted (r, w) entry = (r, w).
Proof.
  destruct entry as [field s]. unfold settled, defaulted. cbn [fst snd].
  intros [Hdef | [-> | ->]].
  - destruct (get r field); try reflexivity. congruence.
  - destruct (negb (is_undefined (get r field))); reflexivity.
  - destruct (negb (is_undefined (get r field))); reflexivity.
Qed.

Lemma defaulted_loop_settled entries : forall r w,
  (forall entry, In entry entries -> settled r entry) ->
  fold_left defaulted entries (r, w) = (r, w).
Proof.
  induction entries as [|entry entries IH]; intros r w Hall; [reflexivity|].
  cbn [fold_left]. rewrite defaulted_settled by (apply Hall; now left).
  apply IH. intros e He. apply Hall. now right.
Qed.

(** After its turn a field with a static default is settled. *)
Lemma defaulted_settles r w entry :
  static (snd entry) = true ->
  settled (fst (defaulted (r, w) entry)) entry
  /\ snd (defaulted (r, w) entry) = w.
Proof.
  destruct entry as [field s]. unfold static, settled, defaulted.
  cbn [fst snd]. intros Hs.
  destruct (get r field) eqn:Hv; cbn [is_undefined negb fst snd];
    try (split; [left; congruence | reflexivity]).
  destruct (defaultValue s) as [[v | g]|]; try discriminate.
  - destruct (is_undefined v) eqn:Hu; cbn [fst snd].
    + split; [|reflexivity]. right. right. destruct v; try discriminate.
      reflexivity.
    + split; [|reflexivity]. left. rewrite StoreFacts.get_set_same.
      intros ->. discriminate.
  - split; [|reflexivity]. right. now left.
Qed.

Lemma settled_kept r w entries entry :
  settled r entry ->
  settled (fst (fold_left defaulted entries (r, w))) entry.
Proof.
  unfold settled. intros [Hdef | Hrest]; [left | now right].
  now rewrite StoreFacts.defaulted_loop_defined.
Qed.

Lemma defaulted_loop_settles entries : forall r w,
  (forall entry, In entry entries -> static (snd entry) = true) ->
  (forall entry, In entry entries ->
                 settled (fst (fold_left defaulted entries (r, w))) entry)
  /\ snd (fold_left defaulted entries (r, w)) = w.
Proof.
  induction entries as [|entry entries IH]; intros r w Hst.
  - split; [intros e [] | reflexivity].
  - cbn [fold_left].
    destruct (defaulted_settles r w entry (Hst entry (or_introl eq_refl)))
      as [Hentry Hw].
    destruct (defaulted (r, w) entry) as [r1 w1]. cbn [fst snd] in *.
    subst w1.
    destruct (IH r1 w (fun e He => Hst e (or_intror He))) as [Hall Hw'].
    split; [|exact Hw'].
    intros e [<- | He]; [now apply settled_kept | now apply Hall].
Qed.

End WithHost.
End DefaultLaws.

(** ** The header row and the rows of a model *)
Module RowFacts.
Import JS Utils.
Import Model (push_new, column_step, convert_entry, select_step).

Lemma push_new_NoDup headers name :
  NoDup headers -> NoDup (push_new headers name).
Proof.
  intros Hnd. unfold push_new.
  destruct (existsb (String.eqb name) headers) eqn:Hex; [exact Hnd|].
  apply NoDup_app; [exact Hnd | repeat constructor; intros [] |].
  intros x Hx [<- | []].
  apply ListFacts.existsb_eqb in Hx. congruence.
Qed.

Lemma push_new_In headers name : In name (push_new headers name).
Proof.
  unfold push_new.
  destruct (existsb (String.eqb name) headers) eqn:Hex.
  - now apply ListFacts.existsb_eqb.
  - apply in_or_app. right. now left.
Qed.

Lemma push_new_added headers name :
  exists added,
    push_new headers name = headers ++ added
    /\ forall c, In c added -> c = name.
Proof.
  unfold push_new.
  destruct (existsb (String.eqb name) headers).
  - exists []. split; [now rewrite app_nil_r | intros c []].
  - exists [name]. split; [reflexivity|]. intros c [<- | []]. reflexivity.
Qed.

(** The loop of [_createColumnMap] from the index [index] on. *)
Lemma column_loop keys : forall map index,
  snd (fold_left column_step keys (map, index)) = (index + List.length keys)%nat
  /\ (forall key,
         Builtins.startsWith key "_" = true \/ ~ In key keys ->
         get (fst (fold_left column_step keys (map, index))) key
         = get map key)
  /\ (NoDup keys ->
      forall i key,
        nth_error keys i = Some key ->
        Builtins.startsWith key "_" = false ->
        get (fst (fold_left column_step keys (map, index))) key
        = VNum (Num.of_nat (index + i))).
Proof.
  induction keys as [|k keys IH]; intros map index.
  - cbn [fold_left fst snd List.length]. split; [lia|]. split; [reflexivity|].
    intros _ [|i] key; discriminate.
  - cbn [fold_left]. unfold column_step at 2 4 6.
    set (map' := if Builtins.startsWith k "_" then map
                 else set map k (VNum (Num.of_nat index))).
    destruct (IH map' (S index)) as (Hlen & Hskip & Hpos).
    split; [rewrite Hlen; cbn [List.length]; lia|].
    split.
    + intros key Hkey. rewrite Hskip.
      * unfold map'. destruct (Builtins.startsWith k "_") eqn:Hk;
          [reflexivity|].
        apply StoreFacts.get_set_other. intros ->.
        destruct Hkey as [Hs | Hnotin]; [congruence|].
        apply Hnotin. now left.
      * destruct Hkey as [Hs | Hnotin]; [now left | right].
        intros Hin. apply Hnotin. now right.
    + intros Hnd [|i] key Hnth Hs.
      * cbn in Hnth. injection Hnth as ->.
        apply NoDup_cons_iff in Hnd. destruct Hnd as [Hnotin _].
        rewrite Hskip by now right.
        unfold map'. rewrite Hs, StoreFacts.get_set_same.
        do 2 f_equal. lia.
      * cbn in Hnth. apply NoDup_cons_iff in Hnd. destruct Hnd as [_ Hnd].
        rewrite (Hpos Hnd i key Hnth Hs). do 2 f_equal. lia.
Qed.

Section WithHost.
Context `{Host}.

(** The loop of [Model._rowToObject] from the identity [fresh] on. *)
Lemma convert_loop schema row : forall obj fresh,
  (forall key,
      Builtins.startsWith key "_" = true \/ ~ In key (map fst row) ->
      get (fst (fold_left (convert_entry schema) row (obj, fresh))) key
      = get obj key)
  /\ (NoDup (map fst row) ->
      forall i key value,
        nth_error row i = Some (key, value) ->
        Builtins.startsWith key "_" = false ->
        get (fst (fold_left (convert_entry schema) row (obj, fresh))) key
        = Model._convertValueType schema (fresh + i) key value).
Proof.
  induction row as [|[k v] row IH]; intros obj fresh.
  - split; [reflexivity|]. intros _ [|i] key value; discriminate.
  - cbn [fold_left].
    set (obj' := if Builtins.startsWith k "_" then obj
                 else set obj k (Model._convertValueType schema fresh k v)).
    assert (Hstep : convert_entry schema (obj, fresh) (k, v)
                    = @pair object ident obj' (S fresh)).
    { unfold convert_entry, obj'.
      destruct (Builtins.startsWith k "_"); reflexivity. }
    rewrite Hstep.
    destruct (IH obj' (S fresh)) as (Hskip & Hpos).
    split.
    + intros key Hkey. rewrite Hskip.
      * unfold obj'. destruct (Builtins.startsWith k "_") eqn:Hk;
          [reflexivity|].
        apply StoreFacts.get_set_other. intros ->.
        destruct Hkey as [Hs | Hnotin]; [congruence|].
        apply Hnotin. now left.
      * destruct Hkey as [Hs | Hnotin]; [now left | right].
        intros Hin. apply Hnotin. now right.
    + intros Hnd [|i] key value Hnth Hs;
        change (NoDup (k :: map fst row)) in Hnd.
      * cbn in Hnth. injection Hnth as -> ->.
        apply NoDup_cons_iff in Hnd. destruct Hnd as [Hnotin _].
        rewrite (Hskip key (or_intror Hnotin)).
        unfold obj'. rewrite Hs, StoreFacts.get_set_same.
        now rewrite Nat.add_0_r.
      * cbn in Hnth. apply NoDup_cons_iff in Hnd. destruct Hnd as [_ Hnd].
        rewrite (Hpos Hnd i key value Hnth Hs). f_equal. lia.
Qed.

(** What the loop of [_selectFields] has selected. *)
Lemma select_loop obj fields : forall selected key,
  get (fold_left (select_step obj) fields selected) key
  = if existsb (String.eqb key) (map ToString fields)
       && negb (is_undefined (get obj key))
    then get obj key
    else get selected key.
Proof.
  induction fields as [|field fields IH]; intros selected key;
    [reflexivity|].
  cbn [fold_left map existsb]. rewrite IH.
  destruct (negb (is_undefined (get obj key))) eqn:Hd;
    rewrite ?andb_false_r, ?andb_true_r.
  - destruct (existsb (String.eqb key) (map ToString fields));
      rewrite ?orb_true_r, ?orb_false_r; [reflexivity|].
    unfold select_step.
    destruct (String.eqb_spec key (ToString field)) as [-> | Hne].
    + rewrite Hd. apply StoreFacts.get_set_same.
    + destruct (negb (is_undefined (get obj (ToString field))));
        [|reflexivity].
      apply StoreFacts.get_set_other. congruence.
  - unfold select_step.
    destruct (negb (is_undefined (get obj (ToString field)))) eqn:Hf;
      [|reflexivity].
    apply StoreFacts.get_set_other. intros Heq. subst key. congruence.
Qed.

End WithHost.
End RowFacts.

(** ** The search of a model *)
Module SearchFacts.
Import JS Utils Notions.
Import Model (operator_holds, row_matches, _filterRows).

Section WithHost.
Context `{Host}.

Lemma _filterRows_filter rows search :
  _filterRows rows search
  = List.filter (fun row => forallb (row_matches row) search) rows.
Proof.
  destruct search as [|entry search]; [|reflexivity].
  cbn [_filterRows forallb].
  induction rows as [|row rows IH]; [reflexivity|].
  cbn [List.filter]. now rewrite <- IH.
Qed.

Lemma operator_unknown value op target :
  ~ In op operators -> operator_holds value (op, target) = false.
Proof.
  intros Hnotin. unfold operator_holds.
  repeat match goal with
         | |- context [String.eqb op ?name] =>
             destruct (String.eqb_spec op name) as [-> | _];
             [exfalso; apply Hnotin; unfold operators; simpl; tauto|]
         end.
  reflexivity.
Qed.

Lemma row_matches_unknown row field id props op target :
  In (op, target) props -> ~ In op operators ->
  row_matches row (field, VObj id props) = false.
Proof.
  intros Hin Hop. cbn [row_matches].
  apply not_true_is_false. intros Hall.
  rewrite forallb_forall in Hall. specialize (Hall _ Hin).
  now rewrite operator_unknown in Hall.
Qed.

End WithHost.
End SearchFacts.

(** ** The records of the base model *)
Module RecordFacts.
Import JS Utils Described Notions.
Import BaseModel (copy_entry, convert_field).

Section WithHost.
Context `{Host}.

Lemma copy_loop row : forall obj key,
  Builtins.startsWith key "_" = true \/ ~ In key (map fst row) ->
  get (fold_left copy_entry row obj) key = get obj key.
Proof.
  induction row as [|[k v] row IH]; intros obj key Hkey; [reflexivity|].
  cbn [fold_left]. rewrite IH.
  - unfold copy_entry. destruct (Builtins.startsWith k "_") eqn:Hk;
      [reflexivity|].
    apply StoreFacts.get_set_other. intros ->.
    destruct Hkey as [Hs | Hnotin]; [congruence|].
    apply Hnotin. now left.
  - destruct Hkey as [Hs | Hnotin]; [now left | right].
    intros Hin. apply Hnotin. now right.
Qed.

Lemma copy_loop_value row : forall obj i key value,
  NoDup (map fst row) ->
  nth_error row i = Some (key, value) ->
  Builtins.startsWith key "_" = false ->
  get (fold_left copy_entry row obj) key = value.
Proof.
  induction row as [|[k v] row IH]; intros obj [|i] key value Hnd Hnth Hs;
    try discriminate; change (NoDup (k :: map fst row)) in Hnd;
    apply NoDup_cons_iff in Hnd; destruct Hnd as [Hnotin Hnd];
    cbn in Hnth; cbn [fold_left].
  - injection Hnth as -> ->.
    rewrite copy_loop by now right.
    unfold copy_entry. rewrite Hs. apply StoreFacts.get_set_same.
  - now apply (IH _ i).
Qed.

Lemma convert_field_next obj fresh entry :
  snd (convert_field (obj, fresh) entry) = S fresh.
Proof. destruct entry. reflexivity. Qed.

Lemma convert_field_other obj fresh field s k :
  k <> field ->
  get (fst (convert_field (obj, fresh) (field, s))) k = get obj k.
Proof.
  intros Hne. unfold convert_field. cbn [fst].
  destruct (type s) as [ty|]; [|reflexivity].
  destruct (negb (is_undefined (get obj field)) && negb (String.eqb ty ""));
    [|reflexivity].
  cbv zeta.
  destruct (String.eqb (Chars.toLowerCase ty) "number");
    [apply StoreFacts.get_set_other; congruence|].
  destruct (String.eqb (Chars.toLowerCase ty) "boolean").
  { destruct (typeof (get obj field)); try reflexivity;
      apply StoreFacts.get_set_other; congruence. }
  destruct (String.eqb (Chars.toLowerCase ty) "date"); [|reflexivity].
  destruct (get obj field); try reflexivity;
    apply StoreFacts.get_set_other; congruence.
Qed.

Lemma convert_fields_other entries : forall obj fresh k,
  ~ In k (map fst entries) ->
  get (fst (fold_left convert_field entries (obj, fresh))) k = get obj k.
Proof.
  induction entries as [|[field s] entries IH]; intros obj fresh k Hnotin;
    [reflexivity|].
  cbn [fold_left].
  destruct (convert_field (obj, fresh) (field, s)) as [obj1 fresh1] eqn:Hstep.
  rewrite IH by (intros Hin; apply Hnotin; now right).
  change obj1 with (fst (obj1, fresh1)). rewrite <- Hstep.
  apply convert_field_other. intros ->. apply Hnotin. now left.
Qed.

(** After its turn a field of such a type is undefined or of its type. *)
Lemma convert_field_typed obj fresh field s ty :
  type s = Some ty ->
  converted_type ty = true ->
  get (fst (convert_field (obj, fresh) (field, s))) field = VUndefined
  \/ type_valid ty (get (fst (convert_field (obj, fresh) (field, s))) field)
     = true.
Proof.
  intros Hty Hconv. unfold convert_field. cbn [fst]. rewrite Hty.
  unfold converted_type in Hconv. cbv zeta in Hconv.
  assert (Hne : String.eqb ty "" = false).
  { destruct ty; [discriminate Hconv | reflexivity]. }
  rewrite Hne. cbn [negb]. rewrite andb_true_r.
  destruct (is_undefined (get obj field)) eqn:Hu; cbn [negb].
  { left. destruct (get obj field); try discriminate. reflexivity. }
  right. unfold type_valid. cbv zeta.
  destruct (String.eqb_spec (Chars.toLowerCase ty) "number") as [Ht | _].
  { rewrite StoreFacts.get_set_same, Ht. reflexivity. }
  destruct (String.eqb_spec (Chars.toLowerCase ty) "boolean") as [Ht | _].
  { rewrite Ht. cbn [String.eqb Ascii.eqb Bool.eqb].
    destruct (get obj field) eqn:Hv; cbn [typeof];
      rewrite ?StoreFacts.get_set_same, ?Hv; reflexivity. }
  destruct (String.eqb_spec (Chars.toLowerCase ty) "date") as [Ht | _];
    [|discriminate Hconv].
  rewrite Ht. cbn [String.eqb Ascii.eqb Bool.eqb].
  destruct (get obj field) eqn:Hv;
    rewrite ?StoreFacts.get_set_same, ?Hv; try reflexivity;
    match goal with
    | |- context [Date_new fresh ?v] =>
        destruct (CoercionFacts.Date_new_is_date fresh v) as [t ->]
    end; reflexivity.
Qed.

Lemma convert_fields_typed before field s after obj fresh ty :
  NoDup (map fst (before ++ (field, s) :: after)) ->
  type s = Some ty ->
  converted_type ty = true ->
  let result :=
    fst (fold_left convert_field (before ++ (field, s) :: after)
           (obj, fresh)) in
  get result field = VUndefined \/ type_valid ty (get result field) = true.
Proof.
  intros Hnd Hty Hconv result. unfold result.
  rewrite map_app in Hnd. cbn [map fst] in Hnd.
  pose proof (NoDup_remove_2 _ _ _ Hnd) as Hnotin.
  rewrite fold_left_app. cbn [fold_left].
  destruct (fold_left convert_field before (obj, fresh)) as [obj1 fresh1].
  destruct (convert_field (obj1, fresh1) (field, s)) as [obj2 fresh2]
    eqn:Hstep.
  rewrite convert_fields_other
    by (intros Hin; apply Hnotin; apply in_or_app; now right).
  change obj2 with (fst (obj2, fresh2)). rewrite <- Hstep.
  now apply convert_field_typed.
Qed.

End WithHost.
End RecordFacts.

(** ** The order of the rows, and [orderBy] *)

Module SortRowsFacts.
Import JS Utils Described Notions.
Import Model (compare_rows).

Lemma cell_le_trans x y z :
  orderable x = true -> orderable y = true -> orderable z = true ->
  cell_le x y = true -> cell_le y z = true -> cell_le x z = true.
Proof.
  destruct x as [| |?|n1|?|? ?|? ?|? ?], y as [| |?|n2|?|? ?|? ?|? ?],
    z as [| |?|n3|?|? ?|? ?|? ?];
    cbn; try discriminate; try reflexivity.
  apply SortLaws.le_trans_finite.
Qed.

Section WithHost.
Context `{Host}.

(** The conversion of a cell to null or to a number does not depend on the
    identity that it may give. *)
Lemma orderable_any_identity schema fresh fresh' field raw :
  orderable (Model._convertValueType schema fresh field raw) = true ->
  Model._convertValueType schema fresh' field raw
  = Model._convertValueType schema fresh field raw.
Proof.
  unfold Model._convertValueType.
  destruct (lookup schema field) as [s|]; [|reflexivity].
  destruct (type s) as [ty|]; [|reflexivity].
  destruct (String.eqb ty "" || is_null raw || is_undefined raw);
    [reflexivity|].
  unfold Model.convert.
  destruct (String.eqb (Chars.toLowerCase ty) "number"); [reflexivity|].
  destruct (String.eqb (Chars.toLowerCase ty) "boolean"); [reflexivity|].
  destruct (String.eqb (Chars.toLowerCase ty) "date"); [|reflexivity].
  destruct (truthy raw); [|reflexivity].
  destruct (CoercionFacts.Date_new_is_date fresh raw) as [t ->].
  discriminate.
Qed.

Lemma lt_numbers a b :
  Builtins.lt (VNum a) (VNum b) = Num.lt a b.
Proof.
  unfold Builtins.lt, Builtins.IsLessThan, Num.lt.
  cbn [Builtins.ToPrimitiveNumber ToNumber].
  destruct (Num.compare a b) as [[| |]|]; reflexivity.
Qed.

(** The comparator on two orderable cells. *)
Lemma sort_gt_cells schema fresh field isDesc a b :
  let key row := Model._convertValueType schema fresh field (get row field) in
  orderable (key a) = true -> orderable (key b) = true ->
  sort_gt (compare_rows schema fresh field isDesc) a b
  = if isDesc then negb (cell_le (key b) (key a))
    else negb (cell_le (key a) (key b)).
Proof.
  intros key Ha Hb. unfold sort_gt, compare_rows.
  assert (Hb' : orderable
                  (Model._convertValueType schema (S fresh) field
                     (get b field)) = true)
    by now rewrite (orderable_any_identity _ fresh).
  rewrite (orderable_any_identity _ fresh (S fresh) _ _ Hb).
  fold (key a) (key b).
  destruct (key a) as [| |?|n1|?|? ?|? ?|? ?],
    (key b) as [| |?|n2|?|? ?|? ?|? ?];
    try discriminate; cbn [strict_eq is_null cell_le orderable] in *.
  - destruct isDesc; reflexivity.
  - destruct isDesc; reflexivity.
  - destruct isDesc; reflexivity.
  - rewrite lt_numbers.
    destruct (SortLaws.compare_opp_finite _ _ Ha Hb) as (c & Hxy & Hyx).
    unfold Num.eq, Num.lt, Num.le. rewrite Hxy, Hyx.
    destruct c, isDesc; reflexivity.
Qed.

End WithHost.
End SortRowsFacts.

Module SplitFacts.
Import Chars.

Lemma split_chars_piece sep piece rest :
  existsb (Ascii.eqb sep) piece = false ->
  Builtins.split_chars sep (piece ++ sep :: rest)
  = piece :: Builtins.split_chars sep rest.
Proof.
  induction piece as [|c piece IH]; intros Hno; cbn [app Builtins.split_chars].
  - now rewrite Ascii.eqb_refl.
  - cbn [existsb] in Hno. apply orb_false_elim in Hno.
    destruct Hno as [Hc Hrest]. rewrite Ascii.eqb_sym, Hc.
    now rewrite IH.
Qed.

Lemma split_chars_whole sep piece :
  existsb (Ascii.eqb sep) piece = false ->
  Builtins.split_chars sep piece = [piece].
Proof.
  induction piece as [|c piece IH]; intros Hno; cbn [Builtins.split_chars];
    [reflexivity|].
  cbn [existsb] in Hno. apply orb_false_elim in Hno.
  destruct Hno as [Hc Hrest]. rewrite Ascii.eqb_sym, Hc.
  now rewrite IH.
Qed.

Lemma of_string_app a b : of_string (a ++ b) = of_string a ++ of_string b.
Proof.
  unfold of_string.
  induction a as [|c a IH]; [reflexivity|].
  cbn. now rewrite IH.
Qed.

End SplitFacts.

(** ** The models of a connection *)
Module RegistryFacts.
Import JS.

Lemma lookup_put_same {M} (models : list (string * M)) name m :
  lookup (ORM.put models name m) name = Some m.
Proof.
  induction models as [|[name' m'] models IH]; cbn [ORM.put lookup].
  - now rewrite String.eqb_refl.
  - destruct (String.eqb name' name) eqn:Hn; cbn [lookup].
    + now rewrite String.eqb_refl.
    + now rewrite Hn.
Qed.

Lemma lookup_put_other {M} (models : list (string * M)) name m other :
  other <> name ->
  lookup (ORM.put models name m) other = lookup models other.
Proof.
  intros Hne. apply not_eq_sym in Hne. apply String.eqb_neq in Hne.
  induction models as [|[name' m'] models IH]; cbn [ORM.put lookup].
  - now rewrite Hne.
  - destruct (String.eqb name' name) eqn:Hn; cbn [lookup].
    + apply String.eqb_eq in Hn. subst name'. now rewrite Hne.
    + destruct (String.eqb name' other); [reflexivity | exact IH].
Qed.

Lemma or_else_filled x y : y <> "" -> BaseModel.or_else x y <> "".
Proof.
  intros Hy. unfold BaseModel.or_else.
  destruct x as [s|]; [|exact Hy].
  destruct (String.eqb_spec s ""); [exact Hy | assumption].
Qed.
End RegistryFacts.

(** * The claims *)

Import JS Utils Described.

(** C1, as stated, fails for json: the text ["false"] is coerced to the
    boolean [false], and [false] is coerced to null. *)
Lemma json_coercion_is_not_idempotent :
  Model._convertValueType Examples.typed_schema 1 "tags" (VStr "false")
  = VBool false
  /\ Model._convertValueType Examples.typed_schema 2 "tags" (VBool false)
     = VNull
  /\ ~ equivalent
         (Model._convertValueType Examples.typed_schema 2 "tags"
            (Model._convertValueType Examples.typed_schema 1 "tags"
               (VStr "false")))
         (Model._convertValueType Examples.typed_schema 1 "tags"
            (VStr "false")).
Proof. repeat split. discriminate. Qed.

(** C1, amended. Coercion is idempotent for every field whose declared
    type is not json, and for the fields without an entry or a type in the
    schema: coercing the result of a coercion returns an equivalent value,
    a Date of the same time and a number of the same value. *)
Theorem coercion_is_idempotent_but_for_json `{Host} :
  forall schema fresh fresh' field raw,
    (forall s ty,
        lookup schema field = Some s -> type s = Some ty ->
        Chars.toLowerCase ty <> "json") ->
    equivalent
      (Model._convertValueType schema fresh' field
         (Model._convertValueType schema fresh field raw))
      (Model._convertValueType schema fresh field raw).
Proof.
  intros schema fresh fresh' field raw Hjson.
  unfold Model._convertValueType.
  destruct (lookup schema field) as [s|]; [|reflexivity].
  destruct (type s) as [ty|] eqn:Hty; [|reflexivity].
  specialize (Hjson s ty eq_refl Hty).
  apply String.eqb_neq in Hjson.
  destruct (String.eqb ty ""); [reflexivity|]. cbn [orb].
  destruct (is_null raw || is_undefined raw) eqn:Hraw.
  - rewrite Hraw. reflexivity.
  - now apply CoercionFacts.convert_again.
Qed.

(** The cell ["12.50"] of a field declared number. *)
Lemma coercion_is_idempotent_but_for_json_witness :
  equivalent
    (Model._convertValueType Examples.typed_schema 2 "age"
       (Model._convertValueType Examples.typed_schema 1 "age"
          (VStr "12.50")))
    (Model._convertValueType Examples.typed_schema 1 "age" (VStr "12.50")).
Proof.
  apply (coercion_is_idempotent_but_for_json (H := Reference.host)).
  intros s ty [= <-] [= <-]. discriminate.
Defined.

(** C2, as stated, fails: the condition [{ $regex: 'x' }] has none of the
    recognized operators, and the filter keeps the record whose value is
    the string ["[object Object]"]. *)
Lemma unknown_operator_keeps_a_record :
  no_operator [("$regex", VStr "x")] = true
  /\ filterRecords [[("note", VStr "[object Object]")]]
       [("note", VObj 1 [("$regex", VStr "x")])]
     = Ok [[("note", VStr "[object Object]")]].
Proof. split; reflexivity. Qed.

(** C2, amended. A condition that is an object with none of the
    recognized operator keys is compared with the value of the record by
    loose equality, without error: the filter keeps the records whose value
    is that very object or the string ["[object Object]"], and excludes
    every other record. *)
Theorem unknown_operator_is_loose_equality `{Host} :
  forall id props,
    no_operator props = true ->
    (forall record key,
        matches_entry record (key, VObj id props)
        = Ok (loose_eq (get record key) (VObj id props)))
    /\ (forall records key,
           filterRecords records [(key, VObj id props)]
           = Ok (List.filter (equals_object id key) records)).
Proof.
  intros id props Hno. split.
  - intros record key.
    rewrite FilterFacts.matches_entry_no_operator by exact Hno.
    unfold equals_object. now rewrite FilterFacts.loose_eq_object.
  - intros records key. apply FilterFacts.filterRecords_single.
    intros record. now apply FilterFacts.matches_entry_no_operator.
Qed.

(** The condition [{ $regex: 'x' }] on two records. *)
Lemma unknown_operator_is_loose_equality_witness :
  filterRecords [[("note", VStr "x")]; [("note", VStr "[object Object]")]]
    [("note", VObj 1 [("$regex", VStr "x")])]
  = Ok [[("note", VStr "[object Object]")]].
Proof.
  exact (proj2 (unknown_operator_is_loose_equality (H := Reference.host)
                  1%nat [("$regex", VStr "x")] eq_refl)
           [[("note", VStr "x")]; [("note", VStr "[object Object]")]]
           "note").
Defined.

(** C3, as stated, fails: the bound [""] parses to NaN as a floating-point
    number, and [{ $gt: "" }] keeps the record whose value is 5, because
    the comparison converts the bound to 0. *)
Lemma empty_bound_keeps_a_record :
  parseFloat (VStr "") = Num.NaN
  /\ filterRecords [[("age", VNum (Num.Fin 5 0))]]
       [("age", VObj 1 [("$gt", VStr "")])]
     = Ok [[("age", VNum (Num.Fin 5 0))]].
Proof. split; reflexivity. Qed.

(** C3, amended. For a condition whose honored operator is [$gt], [$gte],
    [$lt] or [$lte], the stored value is parsed as a floating-point number
    with parseFloat and compared with the bound as the comparison operator
    converts it (ToNumber, not parseFloat); when the parsed value or the
    converted bound is NaN the comparison is false and the record is
    excluded. *)
Theorem comparison_parses_the_stored_value `{Host} :
  forall op id props bound record key,
    honored props = Some (relop_name op, bound) ->
    matches_entry record (key, VObj id props)
    = Ok (relop_holds op (parseFloat (get record key)) (ToNumber bound))
    /\ (Num.isNaN (parseFloat (get record key)) = true
        \/ Num.isNaN (ToNumber bound) = true ->
        filterRecords [record] [(key, VObj id props)] = Ok []).
Proof.
  intros op id props bound record key Hop.
  pose proof (FilterFacts.matches_entry_relop op id props bound record key
                Hop) as Hentry.
  split; [exact Hentry|].
  intros Hnan. unfold filterRecords. cbn [filter every].
  rewrite Hentry. cbn [bind].
  now rewrite (FilterFacts.relop_NaN op _ _ Hnan).
Qed.

(** [{ $gte: 25 }] on the ages 30 and ["n/a"]. *)
Lemma comparison_parses_the_stored_value_witness :
  matches_entry [("age", VNum (Num.Fin 3 1))]
    ("age", VObj 1 [("$gte", VNum (Num.Fin 25 0))]) = Ok true
  /\ filterRecords [[("age", VStr "n/a")]]
       [("age", VObj 1 [("$gte", VNum (Num.Fin 25 0))])] = Ok [].
Proof.
  split.
  - exact (proj1 (comparison_parses_the_stored_value (H := Reference.host)
                    op_gte 1%nat [("$gte", VNum (Num.Fin 25 0))]
                    (VNum (Num.Fin 25 0)) [("age", VNum (Num.Fin 3 1))]
                    "age" eq_refl)).
  - exact (proj2 (comparison_parses_the_stored_value (H := Reference.host)
                    op_gte 1%nat [("$gte", VNum (Num.Fin 25 0))]
                    (VNum (Num.Fin 25 0)) [("age", VStr "n/a")]
                    "age" eq_refl) (or_introl eq_refl)).
Defined.

(** C4, as stated, fails: the characters of the pattern other than [%]
    are not all matched literally, and [%] does not stand for any
    character.  The pattern ["^a"] of the test suite keeps ["Alice"], which
    does not contain it, and ["a%b"] does not keep an [a] and a [b] on two
    lines. *)
Lemma like_is_a_regular_expression :
  let two_lines := String "a" (String (ascii_of_nat 10) "b") in
  like_any "^a" "Alice" = false
  /\ filterRecords [[("name", VStr "Alice")]]
       [("name", VObj 1 [("$like", VStr "^a")])]
     = Ok [[("name", VStr "Alice")]]
  /\ like_any "a%b" two_lines = true
  /\ filterRecords [[("name", VStr two_lines)]]
       [("name", VObj 1 [("$like", VStr "a%b")])]
     = Ok [].
Proof. repeat split; reflexivity. Qed.

(** C4, amended. The pattern of [$like], with each [%] replaced by [.*],
    is a regular expression searched in the text of the value without
    regard to case and without anchoring.  When the pattern has no syntax
    character of regular expressions, each [%] matches zero or more
    characters other than line terminators and every other character
    matches itself up to case; syntax characters keep their meaning, as
    [^] does in the test suite.  In particular ["J%"] matches ["jane"] and
    ["John"] and not ["Ann"]. *)
Theorem like_matches_plain_patterns `{Host} :
  forall id props pattern record key,
    honored props = Some ("$like", VStr pattern) ->
    plain pattern = true ->
    matches_entry record (key, VObj id props)
    = Ok (like_line pattern (ToString (get record key)))
    /\ like (VStr "J%") (VStr "jane") = Ok true
    /\ like (VStr "J%") (VStr "John") = Ok true
    /\ like (VStr "J%") (VStr "Ann") = Ok false
    /\ like (VStr "^a") (VStr "Alice") = Ok true
    /\ like (VStr "^a") (VStr "Diana") = Ok false.
Proof.
  intros id props pattern record key Hop Hp.
  split; [|repeat split; reflexivity].
  rewrite (FilterFacts.matches_entry_like _ _ _ _ _ Hop).
  now apply LikeFacts.like_plain.
Qed.

(** The condition [{ $like: '%li%' }] on the name ["Alice"]. *)
Lemma like_matches_plain_patterns_witness :
  matches_entry [("name", VStr "Alice")]
    ("name", VObj 1 [("$like", VStr "%li%")])
  = Ok (like_line "%li%" "Alice").
Proof.
  exact (proj1 (like_matches_plain_patterns (H := Reference.host)
                  1%nat [("$like", VStr "%li%")] "%li%"
                  [("name", VStr "Alice")] "name" eq_refl eq_refl)).
Defined.

(** C5, as stated, fails: a value that parses to an infinity is not a
    finite number, yet it is compared as a number.  Minus infinity sorts
    before -5, where the comparison of the strings ["-Infinity"] and ["-5"]
    puts it after. *)
Lemma infinite_values_are_compared_as_numbers :
  let a := [("score", VNum (Num.Infty true))] in
  let b := [("score", VNum (Num.Fin (-5) 0))] in
  key_verdict_finite a b ("score", "asc") = Second
  /\ verdict_of (compare_key a b ("score", "asc")) = First
  /\ sortRecords [b; a] [("score", "asc")] = [a; b].
Proof. repeat split; reflexivity. Qed.

(** C5, amended. On one key the comparator compares the two values as
    numbers when neither parses to NaN with parseFloat, be they finite or
    infinite (two equal infinities apart), and otherwise compares with
    localeCompare the strings of the values, a missing, null or otherwise
    falsy value counting as the empty string; the order is reversed when
    the direction is desc in any case of letters. *)
Theorem comparator_verdict_on_a_key `{Host} :
  forall a b field direction,
    (forall c,
        Num.compare (parseFloat (get a field)) (parseFloat (get b field))
        = Some c ->
        c <> Eq \/ finite (parseFloat (get a field)) = true ->
        verdict_of (compare_key a b (field, direction))
        = directed (descending direction) c)
    /\ (Num.isNaN (parseFloat (get a field)) = true
        \/ Num.isNaN (parseFloat (get b field)) = true ->
        verdict_of (compare_key a b (field, direction))
        = string_verdict (descending direction) (get a field) (get b field))
    /\ or_empty VUndefined = VStr ""
    /\ or_empty VNull = VStr "".
Proof.
  intros a b field direction.
  rewrite SortFacts.compare_key_verdict. unfold key_verdict.
  split; [|split; [|split; reflexivity]].
  - intros c Hc Hcase. rewrite Hc.
    destruct c; try reflexivity.
    destruct Hcase as [Hne | Hfin]; [congruence|].
    now rewrite Hfin.
  - intros Hnan.
    assert (Hc : Num.compare (parseFloat (get a field))
                             (parseFloat (get b field)) = None).
    { destruct Hnan as [Hx | Hy].
      - destruct (parseFloat (get a field)); try discriminate. reflexivity.
      - destruct (parseFloat (get b field)); try discriminate.
        apply FilterFacts.compare_NaN_r. }
    now rewrite Hc.
Qed.

(** C6. [applyQueryOptions] filters when [where] is there, then sorts when
    [orderBy] is there, then, when [limit] is there, keeps [limit] records
    starting at [offset], or at the first one without [offset]; and two
    records asked for at the offset of the length of the list are an empty
    list, without error. *)
Theorem applyQueryOptions_stages `{Host} :
  (forall records w o (lim off : nat),
      applyQueryOptions records
        {| where_ := w; orderBy := o; limit := Some (Num.of_nat lim);
           offset := Some (Num.of_nat off) |}
      = bind (filter_stage w records)
             (fun kept => Ok (page lim off (sort_stage o kept))))
  /\ (forall records w o (lim : nat),
         applyQueryOptions records
           {| where_ := w; orderBy := o; limit := Some (Num.of_nat lim);
              offset := None |}
         = bind (filter_stage w records)
                (fun kept => Ok (page lim 0 (sort_stage o kept))))
  /\ (forall records w o off,
         applyQueryOptions records
           {| where_ := w; orderBy := o; limit := None; offset := off |}
         = bind (filter_stage w records)
                (fun kept => Ok (sort_stage o kept)))
  /\ (forall records,
         applyQueryOptions records
           {| where_ := None; orderBy := None; limit := Some (Num.of_nat 2);
              offset := Some (Num.of_nat (List.length records)) |}
         = Ok []).
Proof.
  assert (Hpage : forall records w o (lim off : nat),
    applyQueryOptions records
      {| where_ := w; orderBy := o; limit := Some (Num.of_nat lim);
         offset := Some (Num.of_nat off) |}
    = bind (filter_stage w records)
           (fun kept => Ok (page lim off (sort_stage o kept)))).
  { intros records w o lim off.
    unfold applyQueryOptions, filter_stage, sort_stage, page.
    cbn [where_ orderBy limit offset].
    destruct (match w with
              | Some w0 => filterRecords records w0
              | None => Ok records
              end) as [kept| |]; cbn [bind]; try reflexivity.
    f_equal. apply SliceFacts.slice_nat.
    - apply SliceFacts.integer_offset.
    - apply SliceFacts.integer_add;
        [apply SliceFacts.integer_offset | apply SliceFacts.integer_of_Z]. }
  split; [exact Hpage|]. split; [|split].
  - intros records w o lim.
    unfold applyQueryOptions, filter_stage, sort_stage, page.
    cbn [where_ orderBy limit offset].
    destruct (match w with
              | Some w0 => filterRecords records w0
              | None => Ok records
              end) as [kept| |]; cbn [bind]; try reflexivity.
    f_equal. apply (SliceFacts.slice_nat _ _ _ 0 lim).
    + exists 0, 0. repeat split; lia.
    + apply (SliceFacts.integer_add _ _ 0 (Z.of_nat lim)).
      * exists 0, 0. repeat split; lia.
      * apply SliceFacts.integer_of_Z.
  - intros records w o off.
    unfold applyQueryOptions, filter_stage, sort_stage.
    cbn [where_ orderBy limit offset].
    destruct (match w with
              | Some w0 => filterRecords records w0
              | None => Ok records
              end) as [kept| |]; reflexivity.
  - intros records. rewrite Hpage. unfold filter_stage, sort_stage, page.
    cbn [bind]. now rewrite skipn_all, firstn_nil.
Qed.



(** C8, as stated, fails: [true] and [null] are neither numeric values nor
    strings that parse as a finite number, and the validator accepts them
    for a field declared number. *)
Lemma number_accepts_true_and_null :
  number_accepts (VBool true) = false
  /\ validateData [("age", VBool true)] [("age", number_field "number")]
       false = Ok true
  /\ number_accepts VNull = false
  /\ validateData [("age", VNull)] [("age", number_field "number")] false
     = Ok true.
Proof. repeat split; reflexivity. Qed.

(** C8, amended. A present value of a field declared number passes the
    type check exactly when it is of type number or [Number(value)] is not
    NaN, and otherwise yields the type message of the field.  Besides
    numbers and the strings that convert to a number, among them
    ["Infinity"] and the empty string, that accepts null and the
    booleans. *)
Theorem number_type_check `{Host} :
  (forall data field ty,
      Chars.toLowerCase ty = "number" ->
      get data field <> VUndefined ->
      validateData data [(field, number_field ty)] false
      = if match get data field with
           | VNum _ => true
           | v => negb (Num.isNaN (Number v))
           end
        then Ok true
        else Throws (Error ("Validation failed: " ++ msg_type field ty)))
  /\ Number VNull = Num.zero
  /\ (forall b, Num.isNaN (Number (VBool b)) = false)
  /\ Number (VStr "") = Num.zero
  /\ Number (VStr "Infinity") = Num.Infty false
  /\ (forall id props, Num.isNaN (Number (VObj id props)) = true).
Proof.
  split; [|repeat split; try reflexivity; intros []; reflexivity].
  intros data field ty Hty Hdef.
  rewrite ValidatorFacts.validateData_violations.
  unfold violations, flat_map, field_violations, type_rule, number_rules,
    string_rules, bound_rule, number_field, declared, accepts.
  cbn [type required min max minLength maxLength]. cbv zeta.
  rewrite Hty.
  assert (Hne : String.eqb ty "" = false).
  { destruct ty; [discriminate Hty | reflexivity]. }
  rewrite Hne.
  destruct (get data field) eqn:Hv; try congruence;
    cbn [is_undefined typeof negb andb when app String.eqb Ascii.eqb
         Bool.eqb];
    unfold Number;
    repeat match goal with
           | |- context [String.eqb ?a ?b] => destruct (String.eqb a b)
           | |- context [Num.isNaN ?a] => destruct (Num.isNaN a)
           end; reflexivity.
Qed.

(** The field [age] of the test schema, with the string ["thirty"]. *)
Lemma number_type_check_witness :
  validateData [("age", VStr "thirty")] [("age", number_field "number")]
    false
  = Throws (Error ("Validation failed: " ++ msg_type "age" "number")).
Proof.
  exact (proj1 (number_type_check (H := Reference.host))
           [("age", VStr "thirty")] "age" "number" eq_refl
           ltac:(discriminate)).
Defined.

(** C9. [applyDefaults] returns a new mapping and writes to nothing else:
    the candidate is as it was.  The new mapping agrees with the candidate
    on every field that is defined in the candidate and on every field
    that the schema does not have, and a field of the schema that is
    undefined in the candidate has the default of the schema: the declared
    value, or what the generator returns when it is called, at this call,
    in the state of the runtime that the generators before it have
    left. *)
Theorem applyDefaults_fills_undefined_fields `{Host} :
  forall h w data o schema,
    read h data = Some o ->
    NoDup (map fst schema) ->
    exists h' o',
      applyDefaults data schema h w
      = Some (List.length h, h', world_after o schema w)
      /\ read h (List.length h) = None
      /\ (forall l, l <> List.length h -> read h' l = read h l)
      /\ read h' data = Some o
      /\ read h' (List.length h) = Some o'
      /\ (forall k, get o k <> VUndefined -> get o' k = get o k)
      /\ (forall k, ~ In k (map fst schema) -> get o' k = get o k)
      /\ (forall before k s after,
             schema = before ++ (k, s) :: after ->
             get o k = VUndefined ->
             get o' k = default_of s (world_after o before w)).
Proof.
  intros h w data o schema Hdata Hnd.
  set (result := List.length h).
  set (h1 := h ++ [o]).
  assert (Hnew : read h1 result = Some o) by apply StoreFacts.read_spread_new.
  assert (Hne : data <> result).
  { intros Heq. rewrite Heq in Hdata. unfold result in Hdata.
    rewrite StoreFacts.read_fresh in Hdata. discriminate. }
  pose proof (StoreFacts.default_loop h1 result o schema o w Hnew) as Hloop.
  rewrite (StoreFacts.write_read _ _ _ Hnew) in Hloop.
  set (o' := fst (fold_left defaulted schema (o, w))) in *.
  exists (write h1 result o'), o'.
  split.
  { unfold applyDefaults. rewrite Hdata. unfold spread.
    fold result h1. rewrite Hloop.
    now rewrite StoreFacts.defaulted_loop_world. }
  split; [apply StoreFacts.read_fresh|].
  assert (Hold : forall l, l <> result ->
                           read (write h1 result o') l = read h l).
  { intros l Hl. rewrite StoreFacts.read_write_other by congruence.
    now apply StoreFacts.read_spread_old. }
  split; [exact Hold|].
  split; [rewrite Hold by exact Hne; exact Hdata|].
  split; [now apply (StoreFacts.read_write_same _ _ _ o)|].
  split; [intros k Hk; now apply StoreFacts.defaulted_loop_defined|].
  split; [intros k Hk; now apply StoreFacts.defaulted_loop_other|].
  intros before k s after -> Hu.
  now apply StoreFacts.defaulted_loop_field.
Qed.

(** A candidate of the tests, at address 0 of the store, at time 1000. *)
Lemma applyDefaults_fills_undefined_fields_witness :
  exists h' o',
    applyDefaults 0 Examples.user_schema [[("name", VStr "Test User")]]
      (1000 : Z)
    = Some (1%nat, h', (1001 : Z))
    /\ read h' 0 = Some [("name", VStr "Test User")]
    /\ read h' 1 = Some o'
    /\ get o' "name" = VStr "Test User"
    /\ get o' "age" = VNum Num.zero
    /\ get o' "createdAt" = VDate 1000 (Num.Fin 1 3).
Proof.
  assert (Hnd : NoDup (map fst Examples.user_schema)).
  { repeat constructor; simpl; intuition discriminate. }
  destruct (applyDefaults_fills_undefined_fields (H := Reference.host)
              [[("name", VStr "Test User")]] (1000 : Z) 0%nat
              [("name", VStr "Test User")] Examples.user_schema
              eq_refl Hnd)
    as (h' & o' & Happly & _ & _ & Hdata & Hresult & Hdefined & _ & Hfill).
  exists h', o'.
  split; [exact Happly|]. split; [exact Hdata|]. split; [exact Hresult|].
  split; [apply Hdefined; discriminate|].
  split.
  - exact (Hfill [("name", Examples.field "string" None)] "age" _
             [("active", _); ("createdAt", _)] eq_refl eq_refl).
  - exact (Hfill [("name", _); ("age", _); ("active", _)] "createdAt" _ []
             eq_refl eq_refl).
Defined.

(** C10. In full validation a null value is present, and every check
    runs on it: the required rule fires, the type check runs on null, the
    bounds of a field declared number are compared with 0 and the lengths
    of a field declared string with the length of ["null"].  The error
    has these messages at the place of the field, between those of the
    fields before and after it; so a required field of type date or
    string whose value is null is reported as required and, next, as of
    the wrong type, and a required number below its minimum as required
    and as too small. *)
Theorem null_is_required_and_mistyped `{Host} :
  forall data before field s after,
    get data field = VNull ->
    validateData data (before ++ (field, s) :: after) false
    = verdict_on (reported data before ++ null_violations field s
                  ++ reported data after)
    /\ (forall ty,
           required s = true ->
           type s = Some ty ->
           ty = "date" \/ ty = "string" ->
           validateData data (before ++ (field, s) :: after) false
           = Throws
               (Error
                  ("Validation failed: "
                   ++ Chars.join ", "
                        (reported data before
                         ++ msg_required field
                            :: msg_type field ty
                            :: (if String.eqb ty "string"
                                then bound_rule (Num.lt (Num.of_nat 4))
                                       (msg_minLength field) (minLength s)
                                     ++ bound_rule (Num.gt (Num.of_nat 4))
                                          (msg_maxLength field)
                                          (maxLength s)
                                else [])
                            ++ reported data after))))
    /\ (required s = true ->
        type s = Some "number" ->
        validateData data (before ++ (field, s) :: after) false
        = Throws
            (Error
               ("Validation failed: "
                ++ Chars.join ", "
                     (reported data before
                      ++ msg_required field
                         :: (bound_rule (Num.lt Num.zero) (msg_min field)
                               (min s)
                             ++ bound_rule (Num.gt Num.zero) (msg_max field)
                                  (max s))
                         ++ reported data after)))).
Proof.
  intros data before field s after Hnull.
  assert (Hall : validateData data (before ++ (field, s) :: after) false
                 = verdict_on (reported data before
                               ++ null_violations field s
                               ++ reported data after)).
  { rewrite ValidatorFacts.validateData_violations.
    unfold reported. rewrite !ValidatorFacts.validate_loop. cbn [app].
    unfold violations. rewrite flat_map_app. cbn [flat_map].
    rewrite (ValidatorFacts.field_violations_null _ _ _ Hnull).
    unfold verdict_on.
    destruct (flat_map (field_violations data false) before
              ++ null_violations field s
              ++ flat_map (field_violations data false) after);
      reflexivity. }
  split; [exact Hall|]. split.
  - intros ty Hreq Hty Hcase. rewrite Hall.
    unfold null_violations, declared. rewrite Hreq, Hty.
    destruct Hcase as [-> | ->]; cbn [when null_mistyped app String.eqb
      Ascii.eqb Bool.eqb Chars.toLowerCase];
      destruct (reported data before); reflexivity.
  - intros Hreq Hty. rewrite Hall.
    unfold null_violations, declared. rewrite Hreq, Hty.
    cbn [when null_mistyped app String.eqb Ascii.eqb Bool.eqb].
    rewrite app_nil_r.
    destruct (reported data before); reflexivity.
Qed.

(** A required date of a model, and a required number that is at least
    1, both null in the candidate. *)
Lemma null_is_required_and_mistyped_witness :
  let born :=
    {| type := Some "date"; required := true; defaultValue := None;
       min := None; max := None; minLength := None; maxLength := None;
       validate := None |} in
  let age :=
    {| type := Some "number"; required := true; defaultValue := None;
       min := Some (Num.Fin 1 0); max := None; minLength := None;
       maxLength := None; validate := None |} in
  validateData [("born", VNull)] [("born", born)] false
  = Throws (Error ("Validation failed: Field 'born' is required, "
                   ++ "Field 'born' should be of type date"))
  /\ validateData [("age", VNull)] [("age", age)] false
     = Throws (Error ("Validation failed: Field 'age' is required, "
                      ++ "Field 'age' must be at least 1")).
Proof.
  intros born age. split.
  - exact (proj1 (proj2 (null_is_required_and_mistyped
                           (H := Reference.host)
                           [("born", VNull)] [] "born" born [] eq_refl))
             "date" eq_refl eq_refl (or_introl eq_refl)).
  - exact (proj2 (proj2 (null_is_required_and_mistyped
                           (H := Reference.host)
                           [("age", VNull)] [] "age" age [] eq_refl))
             eq_refl eq_refl).
Defined.

(** * Further properties *)

Import Notions.

(** X1. When [filterRecords] returns, it returns the records that satisfy
    every entry of the criteria, in the order of the list: a record is
    kept exactly when it is in the list and each entry holds of it. *)
Theorem filterRecords_keeps_the_matching_records `{Host} :
  forall records criteria kept,
    filterRecords records criteria = Ok kept ->
    kept = List.filter
             (fun record => forallb (holds (matches_entry record)) criteria)
             records
    /\ (forall record,
           In record kept
           <-> In record records
               /\ forall entry, In entry criteria ->
                                matches_entry record entry = Ok true).
Proof.
  intros records criteria kept Hk. unfold filterRecords in Hk.
  destruct (FilterLaws.filter_ok _ _ _ Hk) as [-> Hall].
  assert (Hsame : forall record, In record records ->
            holds (fun record => every (matches_entry record) criteria) record
            = forallb (holds (matches_entry record)) criteria).
  { intros record Hin. apply FilterLaws.every_holds. now apply Hall. }
  split; [now apply filter_ext_in|].
  intros record. rewrite filter_In. split.
  - intros [Hin Hholds]. split; [exact Hin|].
    apply FilterLaws.every_true. rewrite (Hall record Hin). now rewrite Hholds.
  - intros [Hin Hentries]. split; [exact Hin|].
    unfold holds. now rewrite (proj2 (FilterLaws.every_true _ _) Hentries).
Qed.

(** The people of the tests who are not active. *)
Lemma filterRecords_keeps_the_matching_records_witness :
  [Examples.charlie]
  = List.filter
      (fun record =>
         forallb (holds (matches_entry record)) [("active", VBool false)])
      Examples.people
  /\ (forall record,
         In record [Examples.charlie]
         <-> In record Examples.people
             /\ forall entry, In entry [("active", VBool false)] ->
                              matches_entry record entry = Ok true).
Proof.
  apply (filterRecords_keeps_the_matching_records (H := Reference.host)).
  reflexivity.
Defined.

(** X2. The entries of the criteria are applied in turn: filtering by the
    entries [first ++ second] returns a list exactly when filtering by
    [first] returns one and filtering that one by [second] returns the
    same list. *)
Theorem filterRecords_applies_criteria_in_turn `{Host} :
  forall records first second kept,
    filterRecords records (first ++ second) = Ok kept
    <-> exists passed,
          filterRecords records first = Ok passed
          /\ filterRecords passed second = Ok kept.
Proof.
  intros records first second.
  unfold filterRecords.
  induction records as [|r records IH]; intros kept; cbn [filter].
  - split.
    + intros [= <-]. exists []. split; reflexivity.
    + intros (mid & [= <-] & Hk). exact Hk.
  - rewrite FilterLaws.every_app.
    destruct (every (matches_entry r) first) as [[|]| |] eqn:H1; cbn [bind].
    + split.
      * intros Hk.
        destruct (every (matches_entry r) second) as [b| |] eqn:H2;
          cbn [bind] in Hk; try discriminate.
        destruct (filter (fun record => every (matches_entry record)
                                          (first ++ second)) records)
          as [kept'| |] eqn:Hrest; cbn [bind] in Hk; try discriminate.
        destruct (proj1 (IH kept') eq_refl) as (mid & Hmid & Hkept').
        exists (r :: mid). rewrite Hmid. cbn [bind]. split; [reflexivity|].
        cbn [filter]. rewrite H2, Hkept'. exact Hk.
      * intros (mid & Hmid & Hk).
        destruct (filter (fun record => every (matches_entry record) first)
                    records) as [mid'| |] eqn:Hrest;
          cbn [bind] in Hmid; try discriminate.
        injection Hmid as <-. cbn [filter] in Hk.
        destruct (every (matches_entry r) second) as [b| |];
          cbn [bind] in Hk |- *; try discriminate.
        destruct (filter (fun record => every (matches_entry record) second)
                    mid') as [kept'| |] eqn:Hk';
          cbn [bind] in Hk; try discriminate.
        rewrite (proj2 (IH kept'))
          by (exists mid'; split; [reflexivity | exact Hk']).
        exact Hk.
    + split.
      * intros Hk.
        destruct (filter (fun record => every (matches_entry record)
                                          (first ++ second)) records)
          as [kept'| |] eqn:Hrest; cbn [bind] in Hk; try discriminate.
        injection Hk as <-.
        destruct (proj1 (IH kept') eq_refl) as (mid & Hmid & Hkept').
        exists mid. rewrite Hmid. split; [reflexivity | exact Hkept'].
      * intros (mid & Hmid & Hk).
        destruct (filter (fun record => every (matches_entry record) first)
                    records) as [mid'| |] eqn:Hrest;
          cbn [bind] in Hmid; try discriminate.
        injection Hmid as <-.
        rewrite (proj2 (IH kept))
          by (exists mid'; split; [reflexivity | exact Hk]).
        reflexivity.
    + split; [discriminate | intros (mid & Hmid & _); discriminate].
    + split; [discriminate | intros (mid & Hmid & _); discriminate].
Qed.

(** X3. A condition that is a value means [{ $eq: value }]: for a value
    that is defined and is not an object with an operator key, both keep
    the records whose value is loosely equal to it. *)
Theorem plain_condition_is_the_eq_operator `{Host} :
  forall records key id v,
    v <> VUndefined ->
    (forall i props, v = VObj i props -> no_operator props = true) ->
    filterRecords records [(key, v)]
    = Ok (List.filter (fun record => loose_eq (get record key) v) records)
    /\ filterRecords records [(key, VObj id [("$eq", v)])]
       = filterRecords records [(key, v)].
Proof.
  intros records key id v Hdef Hplain.
  assert (Hv : filterRecords records [(key, v)]
               = Ok (List.filter
                       (fun record => loose_eq (get record key) v) records)).
  { apply FilterFacts.filterRecords_single. intros record.
    destruct v as [| |b|n|s|i t|i elems|i props];
      try (apply FilterLaws.matches_entry_primitive; reflexivity);
      try (apply FilterLaws.matches_entry_no_prop; reflexivity).
    rewrite FilterFacts.matches_entry_no_operator by now apply (Hplain i).
    unfold equals_object. now rewrite FilterFacts.loose_eq_object. }
  split; [exact Hv|]. rewrite Hv.
  apply FilterFacts.filterRecords_single. intros record.
  now apply FilterLaws.matches_entry_eq.
Qed.

(** The age ["25"] as a condition on the people of the tests. *)
Lemma plain_condition_is_the_eq_operator_witness :
  filterRecords Examples.people [("age", VStr "25")]
  = Ok (List.filter
          (fun record => loose_eq (get record "age") (VStr "25"))
          Examples.people)
  /\ filterRecords Examples.people [("age", VObj 1 [("$eq", VStr "25")])]
     = filterRecords Examples.people [("age", VStr "25")].
Proof.
  apply (plain_condition_is_the_eq_operator (H := Reference.host));
    [discriminate | intros i props; discriminate].
Defined.

(** X4. [filterRecords] does not throw on criteria whose conditions are
    testable: the operand of [$in] or [$nin] is an array or a string, the
    operand of [$like] is a plain pattern, any other operator or value is
    as it comes.  It then keeps the records on which every entry holds. *)
Theorem filterRecords_returns_on_testable_criteria `{Host} :
  forall records criteria,
    forallb (fun entry => testable (snd entry)) criteria = true ->
    filterRecords records criteria
    = Ok (List.filter
            (fun record => forallb (holds (matches_entry record)) criteria)
            records).
Proof.
  intros records criteria Ht. rewrite forallb_forall in Ht.
  assert (Hentry : forall record entry, In entry criteria ->
                     exists b, matches_entry record entry = Ok b).
  { intros record [key condition] Hin.
    apply FilterLaws.matches_entry_testable. exact (Ht _ Hin). }
  unfold filterRecords.
  rewrite FilterLaws.filter_all_ok.
  - f_equal. apply List.filter_ext. intros record.
    unfold holds at 1.
    now rewrite (FilterLaws.every_all_ok _ _ (Hentry record)).
  - intros record _. eexists.
    apply (FilterLaws.every_all_ok _ _ (Hentry record)).
Qed.

(** A department among two and a name like ["%li%"]. *)
Lemma filterRecords_returns_on_testable_criteria_witness :
  filterRecords Examples.people
    [("dept", Examples.cond "$in" (VArr 2 [VStr "HR"; VStr "Sales"]));
     ("name", Examples.cond "$like" (VStr "%li%"))]
  = Ok (List.filter
          (fun record =>
             forallb (holds (matches_entry record))
               [("dept",
                 Examples.cond "$in" (VArr 2 [VStr "HR"; VStr "Sales"]));
                ("name", Examples.cond "$like" (VStr "%li%"))])
          Examples.people).
Proof.
  apply (filterRecords_returns_on_testable_criteria (H := Reference.host)).
  reflexivity.
Defined.

(** X5. With a criteria of one entry, an operand of the wrong type is a
    TypeError as soon as there is a record to test: [$in] or [$nin] with
    an operand that is neither an array nor a string, [$like] with an
    operand that is not a string.  An empty list of records is returned
    as it is. *)
Theorem filterRecords_throws_on_a_wrong_operand `{Host} :
  forall id props op operand key record records,
    honored props = Some (op, operand) ->
    wrong_operand op operand = true ->
    filterRecords (record :: records) [(key, VObj id props)]
    = Throws TypeError
    /\ filterRecords [] [(key, VObj id props)] = Ok [].
Proof.
  intros id props op operand key record records Hop Hwrong.
  split; [|reflexivity].
  unfold filterRecords. cbn [filter every].
  now rewrite (FilterLaws.matches_entry_wrong_operand _ _ _ _ _ _ Hop Hwrong).
Qed.

(** [{ $in: 30 }] on two people, and on nobody. *)
Lemma filterRecords_throws_on_a_wrong_operand_witness :
  filterRecords (Examples.alice :: [Examples.bob])
    [("age", VObj 1 [("$in", VNum (Num.Fin 3 1))])]
  = Throws TypeError
  /\ filterRecords [] [("age", VObj 1 [("$in", VNum (Num.Fin 3 1))])]
     = Ok [].
Proof.
  apply (filterRecords_throws_on_a_wrong_operand (H := Reference.host)
           1%nat [("$in", VNum (Num.Fin 3 1))] "$in" (VNum (Num.Fin 3 1)));
    reflexivity.
Defined.

(** X6. [sortRecords] returns the records of the list, each as often as
    the list has it, whatever the keys. *)
Theorem sortRecords_permutes_the_records `{Host} :
  forall records orderBy,
    Permutation (sortRecords records orderBy) records
    /\ List.length (sortRecords records orderBy) = List.length records.
Proof.
  intros records orderBy.
  assert (Hp : Permutation (sortRecords records orderBy) records)
    by apply SortLaws.sort_perm.
  split; [exact Hp | now apply Permutation_length].
Qed.

(** X7. [sortRecords] is stable: when the comparator finds no record of
    the list before or after another, as when they all agree on the keys,
    the records stay in the order of the list. *)
Theorem sortRecords_keeps_the_order_of_ties `{Host} :
  forall records orderBy,
    (forall a b, In a records -> In b records ->
                 Num.lt (comparator orderBy a b) Num.zero = false
                 /\ Num.gt (comparator orderBy a b) Num.zero = false) ->
    sortRecords records orderBy = records.
Proof.
  intros records orderBy Hties. apply SortLaws.sort_stable.
  intros a b Ha Hb. exact (proj2 (Hties a b Ha Hb)).
Qed.

(** Two people of the same department, sorted by department. *)
Lemma sortRecords_keeps_the_order_of_ties_witness :
  sortRecords [Examples.diana; Examples.bob] [("dept", "asc")]
  = [Examples.diana; Examples.bob].
Proof.
  apply (sortRecords_keeps_the_order_of_ties (H := Reference.host)).
  intros a b [<- | [<- | []]] [<- | [<- | []]]; split; reflexivity.
Defined.

(** X8. Sorting by one key whose values all parse to finite numbers
    orders the records by these numbers, ascending, or descending when
    the direction is desc. *)
Theorem sortRecords_orders_numbers `{Host} :
  forall records field direction,
    (forall record, In record records ->
                    finite (parseFloat (get record field)) = true) ->
    StronglySorted
      (fun a b =>
         (if descending direction
          then Num.le (parseFloat (get b field)) (parseFloat (get a field))
          else Num.le (parseFloat (get a field)) (parseFloat (get b field)))
         = true)
      (sortRecords records [(field, direction)]).
Proof.
  intros records field direction Hfin.
  apply (SortLaws.sort_sorted (comparator [(field, direction)])
           (fun record => finite (parseFloat (get record field)) = true)).
  - intros x y z Hx Hy Hz.
    destruct (descending direction); intros Hxy Hyz.
    + now apply (SortLaws.le_trans_finite _ (parseFloat (get y field))).
    + now apply (SortLaws.le_trans_finite _ (parseFloat (get y field))).
  - intros x y Hx Hy. rewrite (SortLaws.sort_gt_numeric y x) by assumption.
    destruct (SortLaws.compare_opp_finite _ _ Hy Hx) as (c & Hyx & Hxy).
    unfold Num.le. rewrite Hyx, Hxy.
    destruct c, (descending direction); cbn; congruence.
  - intros x y Hx Hy. rewrite (SortLaws.sort_gt_numeric y x) by assumption.
    destruct (SortLaws.compare_opp_finite _ _ Hy Hx) as (c & Hyx & Hxy).
    unfold Num.le. rewrite Hyx, Hxy.
    destruct c, (descending direction); cbn; congruence.
  - now apply Forall_forall.
Qed.

(** The people of the tests by age, in the direction ["DESC"]. *)
Lemma sortRecords_orders_numbers_witness :
  StronglySorted
    (fun a b =>
       (if descending "DESC"
        then Num.le (parseFloat (get b "age")) (parseFloat (get a "age"))
        else Num.le (parseFloat (get a "age")) (parseFloat (get b "age")))
       = true)
    (sortRecords Examples.people [("age", "DESC")]).
Proof.
  apply (sortRecords_orders_numbers (H := Reference.host)).
  intros record Hin. simpl in Hin.
  repeat (destruct Hin as [<- | Hin]; [reflexivity|]). destruct Hin.
Defined.

(** X9. Pages follow each other: the page of [first] records at
    [start] followed by the page of [second] records at [start + first]
    is the page of [first + second] records at [start], and a page has at
    most as many records as its limit. *)
Theorem applyQueryOptions_pages_follow_each_other `{Host} :
  forall records w o (first second start : nat) page1 page2,
    applyQueryOptions records
      {| where_ := w; orderBy := o; limit := Some (Num.of_nat first);
         offset := Some (Num.of_nat start) |} = Ok page1 ->
    applyQueryOptions records
      {| where_ := w; orderBy := o; limit := Some (Num.of_nat second);
         offset := Some (Num.of_nat (start + first)) |} = Ok page2 ->
    applyQueryOptions records
      {| where_ := w; orderBy := o;
         limit := Some (Num.of_nat (first + second));
         offset := Some (Num.of_nat start) |} = Ok (page1 ++ page2)
    /\ (List.length page1 <= first)%nat.
Proof.
  intros records w o first second start page1 page2.
  rewrite !PageLaws.applyQueryOptions_page.
  destruct (filter_stage w records) as [kept| |]; cbn [bind];
    try discriminate.
  intros [= <-] [= <-]. split.
  - now rewrite PageLaws.page_next.
  - unfold page. rewrite length_firstn. lia.
Qed.

(** Two pages of two people by age, from the second one on. *)
Lemma applyQueryOptions_pages_follow_each_other_witness :
  applyQueryOptions Examples.people
    {| where_ := None; orderBy := Some [("age", "asc")];
       limit := Some (Num.of_nat (2 + 2));
       offset := Some (Num.of_nat 1) |}
  = Ok ([Examples.bob; Examples.alice] ++ [Examples.diana; Examples.charlie])
  /\ (List.length [Examples.bob; Examples.alice] <= 2)%nat.
Proof.
  apply (applyQueryOptions_pages_follow_each_other (H := Reference.host)
           Examples.people None (Some [("age", "asc")]) 2%nat 2%nat 1%nat);
    reflexivity.
Defined.

(** X10. A candidate that full validation accepts is accepted by partial
    validation. *)
Theorem valid_for_create_is_valid_for_update `{Host} :
  forall data schema,
    validateData data schema false = Ok true ->
    validateData data schema true = Ok true.
Proof.
  intros data schema. rewrite !ValidatorFacts.validateData_violations.
  destruct (violations data false schema) eqn:Hfull; [|discriminate].
  intros _. now rewrite (ValidatorLaws.violations_partial_nil _ _ Hfull).
Qed.

(** An account of the tests with its required fields. *)
Lemma valid_for_create_is_valid_for_update_witness :
  validateData
    [("id", VStr "7"); ("name", VStr "Ann"); ("email", VStr "a@b.c")]
    Examples.account_schema true
  = Ok true.
Proof.
  apply (valid_for_create_is_valid_for_update (H := Reference.host)).
  reflexivity.
Defined.

(** X11. Partial validation looks at the fields that the candidate has:
    the entries of the schema whose field is undefined in the candidate
    can be left out, and the empty candidate is valid for any schema. *)
Theorem partial_validation_ignores_absent_fields `{Host} :
  forall data schema,
    validateData data schema true
    = validateData data
        (List.filter (fun entry => defined (get data (fst entry))) schema)
        true
    /\ validateData [] schema true = Ok true.
Proof.
  intros data schema. rewrite !ValidatorFacts.validateData_violations.
  split.
  - now rewrite <- ValidatorLaws.violations_present.
  - rewrite ValidatorLaws.violations_present.
    replace (List.filter (fun entry => defined (get [] (fst entry))) schema)
      with (@nil (string * settings)); [reflexivity|].
    induction schema as [|entry schema IH]; [reflexivity | exact IH].
Qed.

(** X12. With a schema whose defaults are values, applying the defaults
    to the result of [applyDefaults] changes nothing: the second result is
    a new object with the properties of the first, and the state of the
    runtime is as it was. *)
Theorem applyDefaults_twice_is_applyDefaults_once `{Host} :
  forall h w data o schema,
    read h data = Some o ->
    (forall entry, In entry schema -> static (snd entry) = true) ->
    exists h1 h2 o1,
      applyDefaults data schema h w = Some (List.length h, h1, w)
      /\ applyDefaults (List.length h) schema h1 w
         = Some (S (List.length h), h2, w)
      /\ read h2 (List.length h) = Some o1
      /\ read h2 (S (List.length h)) = Some o1.
Proof.
  intros h w data o schema Hdata Hst.
  set (r1 := List.length h).
  set (h0 := h ++ [o]).
  assert (Hr1 : read h0 r1 = Some o) by apply StoreFacts.read_spread_new.
  pose proof (StoreFacts.default_loop h0 r1 o schema o w Hr1) as Hloop.
  rewrite (StoreFacts.write_read _ _ _ Hr1) in Hloop.
  destruct (DefaultLaws.defaulted_loop_settles schema o w Hst)
    as [Hsettled Hw].
  set (o1 := fst (fold_left defaulted schema (o, w))) in *.
  rewrite Hw in Hloop.
  set (h1 := write h0 r1 o1) in *.
  assert (Hlen : forall (s : store) l x,
            List.length (write s l x) = List.length s).
  { induction s as [|y s IH]; intros [|l] x; cbn; try reflexivity.
    now rewrite IH. }
  assert (Hlen1 : List.length h1 = S r1).
  { unfold h1, h0. rewrite Hlen, length_app. cbn. unfold r1. lia. }
  assert (Hread1 : read h1 r1 = Some o1)
    by (unfold h1; now apply (StoreFacts.read_write_same _ _ _ o)).
  set (h2 := h1 ++ [o1]).
  assert (Hr2 : read h2 (S r1) = Some o1).
  { unfold h2. rewrite <- Hlen1. apply StoreFacts.read_spread_new. }
  pose proof (StoreFacts.default_loop h2 (S r1) o1 schema o1 w Hr2) as Hloop2.
  rewrite (StoreFacts.write_read _ _ _ Hr2) in Hloop2.
  rewrite (DefaultLaws.defaulted_loop_settled schema o1 w Hsettled) in Hloop2.
  cbn [fst snd] in Hloop2.
  rewrite (StoreFacts.write_read _ _ _ Hr2) in Hloop2.
  exists h1, h2, o1.
  split.
  { unfold applyDefaults. rewrite Hdata. unfold spread.
    fold r1 h0. now rewrite Hloop. }
  split.
  { unfold applyDefaults. rewrite Hread1. unfold spread.
    rewrite Hlen1. fold h2. now rewrite Hloop2. }
  split; [|exact Hr2].
  unfold h2. rewrite StoreFacts.read_spread_old by lia. exact Hread1.
Qed.

(** A candidate at address 0 of the store and a default age. *)
Lemma applyDefaults_twice_is_applyDefaults_once_witness :
  exists h1 h2 o1,
    applyDefaults 0 [("age", Examples.field "number"
                               (Some (Static (VNum Num.zero))))]
      [[("name", VStr "Test User")]] (1000 : Z)
    = Some (1%nat, h1, (1000 : Z))
    /\ applyDefaults 1 [("age", Examples.field "number"
                                  (Some (Static (VNum Num.zero))))]
         h1 (1000 : Z)
       = Some (2%nat, h2, (1000 : Z))
    /\ read h2 1 = Some o1
    /\ read h2 2 = Some o1.
Proof.
  apply (applyDefaults_twice_is_applyDefaults_once (H := Reference.host)
           [[("name", VStr "Test User")]] (1000 : Z) 0%nat
           [("name", VStr "Test User")]); [reflexivity|].
  intros entry [<- | []]. reflexivity.
Defined.

(** X13. The header values of a model are the fields of the schema, in
    their order, followed by [createdAt] and [updatedAt] when timestamps
    are on and the schema does not have them; no column comes twice. *)
Theorem header_values_are_the_columns `{Host} :
  forall schema timestamps,
    NoDup (map fst schema) ->
    NoDup (Model._getHeaderValues schema timestamps)
    /\ (exists added,
           Model._getHeaderValues schema timestamps = map fst schema ++ added
           /\ forall column, In column added ->
                timestamps = true
                /\ (column = "createdAt" \/ column = "updatedAt"))
    /\ (timestamps = true ->
        In "createdAt" (Model._getHeaderValues schema timestamps)
        /\ In "updatedAt" (Model._getHeaderValues schema timestamps)).
Proof.
  intros schema timestamps Hnd. unfold Model._getHeaderValues.
  destruct timestamps.
  - split; [now do 2 apply RowFacts.push_new_NoDup|]. split.
    + destruct (RowFacts.push_new_added (map fst schema) "createdAt")
        as (a1 & -> & H1).
      destruct (RowFacts.push_new_added (map fst schema ++ a1) "updatedAt")
        as (a2 & -> & H2).
      exists (a1 ++ a2). rewrite app_assoc. split; [reflexivity|].
      intros column Hin. split; [reflexivity|].
      apply in_app_or in Hin. destruct Hin as [Hin | Hin]; auto.
    + intros _. split; [|apply RowFacts.push_new_In].
      destruct (RowFacts.push_new_added
                  (Model.push_new (map fst schema) "createdAt") "updatedAt")
        as (a2 & -> & _).
      apply in_or_app. left. apply RowFacts.push_new_In.
  - split; [exact Hnd|]. split; [|discriminate].
    exists []. split; [now rewrite app_nil_r | intros column []].
Qed.

(** The schema of the tests, with timestamps. *)
Lemma header_values_are_the_columns_witness :
  NoDup (Model._getHeaderValues Examples.user_schema true).
Proof.
  refine (proj1 (header_values_are_the_columns (H := Reference.host)
                   Examples.user_schema true _)).
  repeat constructor; simpl; intuition discriminate.
Defined.

(** X14. The column map gives each key of the header row that does not
    start with an underscore its position among all the keys of the row,
    and has nothing for the other keys. *)
Theorem column_map_gives_positions `{Host} :
  forall headerRow,
    NoDup (map fst headerRow) ->
    (forall i key,
        nth_error (map fst headerRow) i = Some key ->
        Builtins.startsWith key "_" = false ->
        get (Model._createColumnMap headerRow) key = VNum (Num.of_nat i))
    /\ (forall key,
           Builtins.startsWith key "_" = true
           \/ ~ In key (map fst headerRow) ->
           get (Model._createColumnMap headerRow) key = VUndefined).
Proof.
  intros headerRow Hnd. unfold Model._createColumnMap.
  destruct (RowFacts.column_loop (map fst headerRow) [] O)
    as (_ & Hskip & Hpos).
  split.
  - intros i key Hnth Hs. exact (Hpos Hnd i key Hnth Hs).
  - intros key Hkey. now rewrite Hskip.
Qed.

(** A header row whose first property is internal. *)
Lemma column_map_gives_positions_witness :
  get (Model._createColumnMap
         [("_sheet", VNull); ("id", VStr "id"); ("name", VStr "name")])
      "name"
  = VNum (Num.of_nat 2).
Proof.
  refine (proj1 (column_map_gives_positions (H := Reference.host)
                   [("_sheet", VNull); ("id", VStr "id");
                    ("name", VStr "name")] _)
            2%nat "name" eq_refl eq_refl).
  repeat constructor; simpl; intuition discriminate.
Defined.

(** X15. The object of a row has, for each cell whose key does not start
    with an underscore, the cell converted to the type of its field, the
    row itself under [_row], and no other property. *)
Theorem row_object_has_the_converted_cells `{Host} :
  forall schema fresh id row,
    NoDup (map fst row) ->
    get (Model._rowToObject schema fresh id row) "_row" = VObj id row
    /\ (forall i key value,
           nth_error row i = Some (key, value) ->
           Builtins.startsWith key "_" = false ->
           get (Model._rowToObject schema fresh id row) key
           = Model._convertValueType schema (fresh + i) key value)
    /\ (forall key,
           key <> "_row" ->
           Builtins.startsWith key "_" = true \/ ~ In key (map fst row) ->
           get (Model._rowToObject schema fresh id row) key = VUndefined).
Proof.
  intros schema fresh id row Hnd. unfold Model._rowToObject.
  destruct (RowFacts.convert_loop schema row [] fresh) as (Hskip & Hpos).
  split; [apply StoreFacts.get_set_same|]. split.
  - intros i key value Hnth Hs.
    rewrite StoreFacts.get_set_other by (intros <-; discriminate Hs).
    exact (Hpos Hnd i key value Hnth Hs).
  - intros key Hne Hkey.
    rewrite StoreFacts.get_set_other by congruence.
    now rewrite Hskip.
Qed.

(** The cell ["30"] of the column [age], third of its row. *)
Lemma row_object_has_the_converted_cells_witness :
  get (Model._rowToObject Examples.typed_schema 10 7
         [("_sheet", VNull); ("name", VStr "Ann"); ("age", VStr "30")])
      "age"
  = Model._convertValueType Examples.typed_schema (10 + 2) "age" (VStr "30").
Proof.
  refine (proj1 (proj2 (row_object_has_the_converted_cells
                          (H := Reference.host) Examples.typed_schema
                          10%nat 7%nat
                          [("_sheet", VNull); ("name", VStr "Ann");
                           ("age", VStr "30")] _))
            2%nat "age" (VStr "30") eq_refl eq_refl).
  repeat constructor; simpl; intuition discriminate.
Defined.

(** X16. The entries of a search are applied in turn: [_filterRows] with
    the entries [first ++ second] is [_filterRows] with [second] of
    [_filterRows] with [first]. *)
Theorem filterRows_applies_searches_in_turn `{Host} :
  forall rows first second,
    Model._filterRows rows (first ++ second)
    = Model._filterRows (Model._filterRows rows first) second.
Proof.
  intros rows first second.
  rewrite !SearchFacts._filterRows_filter, ListFacts.filter_filter.
  apply List.filter_ext. intros row. apply forallb_app.
Qed.

(** X17. An operator that [_filterRows] does not know rejects every row:
    a search with a condition that has such a key returns no row. *)
Theorem filterRows_rejects_unknown_operators `{Host} :
  forall rows search field id props op target,
    In (field, VObj id props) search ->
    In (op, target) props ->
    ~ In op operators ->
    Model._filterRows rows search = [].
Proof.
  intros rows search field id props op target Hcond Hop Hunknown.
  rewrite SearchFacts._filterRows_filter.
  apply ListFacts.filter_none. intros row _.
  apply not_true_is_false. intros Hall.
  rewrite forallb_forall in Hall. specialize (Hall _ Hcond).
  now rewrite (SearchFacts.row_matches_unknown _ _ _ _ _ _ Hop Hunknown)
    in Hall.
Qed.

(** A condition with [gte] and with the [$gt] of [filterRecords]. *)
Lemma filterRows_rejects_unknown_operators_witness :
  Model._filterRows [Examples.alice; Examples.bob]
    [("age", VObj 1 [("gte", VNum (Num.Fin 1 0));
                     ("$gt", VNum (Num.Fin 1 0))])]
  = [].
Proof.
  apply (filterRows_rejects_unknown_operators (H := Reference.host)
           _ _ "age" 1%nat
           [("gte", VNum (Num.Fin 1 0)); ("$gt", VNum (Num.Fin 1 0))]
           "$gt" (VNum (Num.Fin 1 0))).
  - now left.
  - right. now left.
  - unfold operators. simpl. intuition discriminate.
Defined.

(** X18. The operators of [_filterRows] come with their complements: the
    rows that [eq] keeps and the rows that [ne] keeps are all the rows,
    each once, and so for [exists] true and false, and for [in] and [nin]
    with an array. *)
Theorem filterRows_operators_have_complements `{Host} :
  forall rows field id target,
    Permutation
      (Model._filterRows rows [(field, VObj id [("eq", target)])]
       ++ Model._filterRows rows [(field, VObj id [("ne", target)])])
      rows
    /\ Permutation
         (Model._filterRows rows [(field, VObj id [("exists", VBool true)])]
          ++ Model._filterRows rows
               [(field, VObj id [("exists", VBool false)])])
         rows
    /\ (forall j elems,
           Permutation
             (Model._filterRows rows
                [(field, VObj id [("in", VArr j elems)])]
              ++ Model._filterRows rows
                   [(field, VObj id [("nin", VArr j elems)])])
             rows).
Proof.
  intros rows field id target.
  rewrite !SearchFacts._filterRows_filter.
  split; [|split; [|intros j elems; rewrite !SearchFacts._filterRows_filter]];
    apply ListFacts.filter_split; intros row _; cbn;
    rewrite ?andb_true_r; try reflexivity.
  rewrite negb_andb, !negb_involutive. reflexivity.
Qed.

(** X19. The selection of [_selectFields] has the properties of the
    object that the fields name, with their values, and no other. *)
Theorem selectFields_keeps_the_named_fields `{Host} :
  forall obj id field fields key,
    get (Model._selectFields obj (VArr id (field :: fields))) key
    = if existsb (String.eqb key) (map ToString (field :: fields))
      then get obj key
      else VUndefined.
Proof.
  intros obj id field fields key. cbn [Model._selectFields].
  rewrite RowFacts.select_loop.
  destruct (existsb (String.eqb key) (map ToString (field :: fields)));
    [|reflexivity].
  cbn [andb get lookup].
  destruct (get obj key); reflexivity.
Qed.

(** X20. Selecting the same fields from a selection returns it. *)
Theorem selectFields_twice_is_selectFields_once `{Host} :
  forall obj fields,
    Model._selectFields (Model._selectFields obj fields) fields
    = Model._selectFields obj fields.
Proof.
  intros obj fields.
  destruct fields as [| | | | | |id [|field rest]|]; try reflexivity.
  set (selected := Model._selectFields obj (VArr id (field :: rest))).
  cbn [Model._selectFields]. 
  apply ListFacts.fold_left_ext. intros acc f Hin.
  unfold Model.select_step.
  assert (Hsame : get selected (ToString f) = get obj (ToString f)).
  { unfold selected. cbn [Model._selectFields].
    rewrite RowFacts.select_loop.
    replace (existsb (String.eqb (ToString f))
               (map ToString (field :: rest))) with true.
    - cbn [andb get lookup]. destruct (get obj (ToString f)); reflexivity.
    - symmetry. apply ListFacts.existsb_eqb. now apply in_map. }
  now rewrite Hsame.
Qed.

(** X21. The record that the base model makes of a row has, at each field
    of the schema of type number, boolean or date, [_row] apart, no value
    or a value that passes the type check of [validateData]. *)
Theorem record_fields_have_their_types `{Host} :
  forall self fresh id row field s ty,
    NoDup (map fst (BaseModel.schema self)) ->
    In (field, s) (BaseModel.schema self) ->
    type s = Some ty ->
    converted_type ty = true ->
    field <> "_row" ->
    get (BaseModel._rowToObject self fresh id row) field = VUndefined
    \/ type_valid ty (get (BaseModel._rowToObject self fresh id row) field)
       = true.
Proof.
  intros self fresh id row field s ty Hnd Hin Hty Hconv Hne.
  unfold BaseModel._rowToObject.
  rewrite StoreFacts.get_set_other by congruence.
  destruct (in_split _ _ Hin) as (before & after & Hschema).
  rewrite Hschema in Hnd |- *.
  now apply RecordFacts.convert_fields_typed.
Qed.

(** The cell ["abc"] of the column [age] of the tests. *)
Lemma record_fields_have_their_types_witness :
  let record :=
    BaseModel._rowToObject Examples.test_model 100 1
      (Examples.sheet_row "1" "Alice" "abc" "true") in
  get record "age" = VUndefined
  \/ type_valid "number" (get record "age") = true.
Proof.
  apply (record_fields_have_their_types (H := Reference.host)
           Examples.test_model 100%nat 1%nat
           (Examples.sheet_row "1" "Alice" "abc" "true") "age"
           (Examples.field "number" (Some (Static (VNum Num.zero))))
           "number").
  - repeat constructor; simpl; intuition discriminate.
  - simpl. tauto.
  - reflexivity.
  - reflexivity.
  - discriminate.
Defined.

(** X22. The record that the base model makes of a row has the cells of
    the fields that the schema does not have as they are in the row. *)
Theorem record_keeps_the_other_cells `{Host} :
  forall self fresh id row i key value,
    NoDup (map fst row) ->
    nth_error row i = Some (key, value) ->
    Builtins.startsWith key "_" = false ->
    ~ In key (map fst (BaseModel.schema self)) ->
    get (BaseModel._rowToObject self fresh id row) key = value.
Proof.
  intros self fresh id row i key value Hnd Hnth Hs Hnotin.
  unfold BaseModel._rowToObject.
  rewrite StoreFacts.get_set_other by (intros <-; discriminate Hs).
  rewrite RecordFacts.convert_fields_other by exact Hnotin.
  now apply (RecordFacts.copy_loop_value row [] i).
Qed.

(** A cell of a column that the schema of the tests does not have. *)
Lemma record_keeps_the_other_cells_witness :
  get (BaseModel._rowToObject Examples.test_model 100 1
         [("id", VStr "1"); ("note", VStr "007")])
      "note"
  = VStr "007".
Proof.
  apply (record_keeps_the_other_cells (H := Reference.host)
           Examples.test_model 100%nat 1%nat
           [("id", VStr "1"); ("note", VStr "007")] 1%nat "note"
           (VStr "007")).
  - repeat constructor; simpl; intuition discriminate.
  - reflexivity.
  - reflexivity.
  - simpl. intuition discriminate.
Defined.

(** X23. [findById] with an identifier that is not an object does not
    throw and returns the first record, in the order of the rows, whose
    primary key is loosely equal to the identifier, or null. *)
Theorem findById_returns_the_first_match `{Host} :
  forall self fresh rows id,
    is_object id = false ->
    BaseModel.findById self fresh rows id
    = Ok (List.find
            (fun record => loose_eq (get record (BaseModel.primaryKey self)) id)
            (BaseModel.objects self fresh rows)).
Proof.
  intros self fresh rows id Hid.
  unfold BaseModel.findById, BaseModel.findAll, applyQueryOptions.
  cbn [where_ orderBy limit offset].
  rewrite (FilterFacts.filterRecords_single _ _
             (fun record =>
                loose_eq (get record (BaseModel.primaryKey self)) id))
    by (intros record; now apply FilterLaws.matches_entry_primitive).
  cbn [bind BaseModel.rethrow]. now rewrite ListFacts.hd_filter.
Qed.

(** The number 2 finds the row whose cell [id] is the string ["2"]. *)
Lemma findById_returns_the_first_match_witness :
  BaseModel.findById Examples.test_model 100 Examples.sheet_rows
    (VNum (Num.Fin 2 0))
  = Ok (List.find
          (fun record =>
             loose_eq (get record (BaseModel.primaryKey Examples.test_model))
               (VNum (Num.Fin 2 0)))
          (BaseModel.objects Examples.test_model 100 Examples.sheet_rows)).
Proof.
  apply (findById_returns_the_first_match (H := Reference.host)).
  reflexivity.
Defined.

(** X24. [validateData] reads the candidate at the fields of the schema
    only: two candidates that agree on these fields get the same
    verdict. *)
Theorem validateData_reads_the_fields_of_the_schema `{Host} :
  forall data other schema partial,
    (forall field, In field (map fst schema) ->
                   get data field = get other field) ->
    validateData data schema partial = validateData other schema partial.
Proof.
  intros data other schema partial Hsame.
  rewrite !ValidatorFacts.validateData_violations.
  now rewrite (ValidatorLaws.violations_ext _ _ _ _ Hsame).
Qed.

(** A candidate with a property that the schema does not have. *)
Lemma validateData_reads_the_fields_of_the_schema_witness :
  validateData [("id", VStr "7"); ("nickname", VNum Num.zero)]
    [("id", Examples.rule "string" true None None None None)] false
  = validateData [("id", VStr "7")]
      [("id", Examples.rule "string" true None None None None)] false.
Proof.
  apply (validateData_reads_the_fields_of_the_schema (H := Reference.host)).
  intros field [<- | []]. reflexivity.
Defined.

(** X25. What [applyQueryOptions] returns are records of the list, none
    more often than the list has it, and so at most as many. *)
Theorem applyQueryOptions_returns_records_of_the_list `{Host} :
  forall records options results,
    applyQueryOptions records options = Ok results ->
    (exists others, Permutation (results ++ others) records)
    /\ (List.length results <= List.length records)%nat.
Proof.
  intros records options results Hq.
  assert (Hpart : exists others, Permutation (results ++ others) records).
  { unfold applyQueryOptions in Hq.
    assert (Hkept : forall kept,
              match where_ options with
              | Some w => filterRecords records w
              | None => Ok records
              end = Ok kept ->
              exists dropped, Permutation (kept ++ dropped) records).
    { intros kept Hk. destruct (where_ options) as [w|].
      - destruct (FilterLaws.filter_ok _ _ _ Hk) as [-> _].
        apply PageLaws.filter_part.
      - injection Hk as <-. exists []. now rewrite app_nil_r. }
    destruct (match where_ options with
              | Some w => filterRecords records w
              | None => Ok records
              end) as [kept| |]; cbn [bind] in Hq; try discriminate.
    destruct (Hkept kept eq_refl) as [dropped Hdropped].
    injection Hq as <-.
    set (sorted := match orderBy options with
                   | Some o => sortRecords kept o
                   | None => kept
                   end).
    assert (Hsorted : Permutation sorted kept).
    { unfold sorted. destruct (orderBy options);
        [apply SortLaws.sort_perm | reflexivity]. }
    destruct (limit options) as [lim|].
    - match goal with
      | |- context [slice sorted ?a ?b] =>
          destruct (PageLaws.slice_part sorted a b) as [cut Hcut];
          exists (cut ++ dropped)
      end.
      rewrite app_assoc, Hcut, Hsorted. exact Hdropped.
    - exists dropped. now rewrite Hsorted. }
  split; [exact Hpart|].
  destruct Hpart as [others Hp].
  rewrite <- (Permutation_length Hp), length_app. lia.
Qed.

(** The two oldest active people of the tests. *)
Lemma applyQueryOptions_returns_records_of_the_list_witness :
  (exists others,
      Permutation ([Examples.diana; Examples.alice] ++ others)
        Examples.people)
  /\ (List.length [Examples.diana; Examples.alice]
      <= List.length Examples.people)%nat.
Proof.
  apply (applyQueryOptions_returns_records_of_the_list (H := Reference.host)
           Examples.people
           {| where_ := Some [("active", VBool true)];
              orderBy := Some [("age", "desc")];
              limit := Some (Num.Fin 2 0);
              offset := None |}).
  reflexivity.
Defined.

(** X26. A cell that is neither null nor undefined, converted for a field
    of type number or boolean, or of type date when the cell is truthy,
    passes the type check of [validateData] for this field. *)
Theorem converted_cells_have_their_types `{Host} :
  forall schema fresh field s ty raw,
    lookup schema field = Some s ->
    type s = Some ty ->
    raw <> VUndefined ->
    raw <> VNull ->
    Chars.toLowerCase ty = "number"
    \/ Chars.toLowerCase ty = "boolean"
    \/ (Chars.toLowerCase ty = "date" /\ truthy raw = true) ->
    type_valid ty (Model._convertValueType schema fresh field raw) = true.
Proof.
  intros schema fresh field s ty raw Hs Hty Hu Hn Hcase.
  unfold Model._convertValueType. rewrite Hs, Hty.
  assert (Hne : String.eqb ty "" = false).
  { destruct ty; [|reflexivity].
    destruct Hcase as [Hc | [Hc | [Hc _]]]; discriminate Hc. }
  assert (Hraw : is_null raw || is_undefined raw = false)
    by (destruct raw; try reflexivity; congruence).
  rewrite Hne. cbn [orb]. rewrite Hraw.
  unfold Model.convert, type_valid. cbv zeta.
  destruct Hcase as [-> | [-> | [-> Htruthy]]];
    cbn [String.eqb Ascii.eqb Bool.eqb].
  - destruct (strict_eq raw (VStr "")); reflexivity.
  - reflexivity.
  - rewrite Htruthy.
    destruct (CoercionFacts.Date_new_is_date fresh raw) as [t ->].
    reflexivity.
Qed.

(** The cell ["abc"] of a column of type number, converted to NaN. *)
Lemma converted_cells_have_their_types_witness :
  type_valid "number"
    (Model._convertValueType Examples.typed_schema 1 "age" (VStr "abc"))
  = true.
Proof.
  apply (converted_cells_have_their_types (H := Reference.host)
           Examples.typed_schema 1%nat "age" _ "number" (VStr "abc")
           eq_refl eq_refl);
    [discriminate | discriminate | left; reflexivity].
Defined.

(** X27. [_sortRows] on a field whose converted cells are finite numbers
    or null returns the rows ordered by these numbers with the nulls
    last, or, for the direction desc, the nulls first and the numbers
    descending. *)
Theorem sortRows_orders_numbers_then_nulls `{Host} :
  forall schema fresh rows orderBy field isDesc,
    Model.order_of orderBy = (field, isDesc) ->
    Model.parsed schema field = false ->
    (forall row, In row rows ->
       orderable (Model._convertValueType schema fresh field (get row field))
       = true) ->
    exists sorted,
      Model._sortRows schema fresh rows orderBy = Ok sorted
      /\ Permutation sorted rows
      /\ StronglySorted
           (fun a b =>
              let key row :=
                Model._convertValueType schema fresh field (get row field) in
              (if isDesc then cell_le (key b) (key a)
               else cell_le (key a) (key b)) = true)
           sorted.
Proof.
  intros schema fresh rows orderBy field isDesc Horder Hparsed Hcells.
  unfold Model._sortRows. rewrite Horder, Hparsed.
  eexists. split; [reflexivity|]. split; [apply SortLaws.sort_perm|].
  set (key row := Model._convertValueType schema fresh field (get row field)).
  apply (SortLaws.sort_sorted _ (fun row => orderable (key row) = true)).
  - intros x y z Hx Hy Hz. cbv zeta. fold (key x) (key y) (key z).
    destruct isDesc; intros Hxy Hyz.
    + now apply (SortRowsFacts.cell_le_trans _ (key y)).
    + now apply (SortRowsFacts.cell_le_trans _ (key y)).
  - intros x y Hx Hy.
    rewrite (SortRowsFacts.sort_gt_cells _ _ _ _ y x Hy Hx).
    cbv zeta. fold (key x) (key y).
    destruct isDesc; intros Hgt; apply negb_true_iff in Hgt;
      destruct (key x) as [| |?|n1|?|? ?|? ?|? ?],
        (key y) as [| |?|n2|?|? ?|? ?|? ?];
      try discriminate; try reflexivity;
      cbn [cell_le orderable] in *;
      destruct (SortLaws.compare_opp_finite _ _ Hx Hy) as (c & Hxy & Hyx);
      unfold Num.le in *; rewrite ?Hxy, ?Hyx in *; destruct c;
      try discriminate; reflexivity.
  - intros x y Hx Hy.
    rewrite (SortRowsFacts.sort_gt_cells _ _ _ _ y x Hy Hx).
    cbv zeta. fold (key x) (key y).
    destruct isDesc; intros Hgt; apply negb_false_iff in Hgt; exact Hgt.
  - apply Forall_forall. exact Hcells.
Qed.

(** Three rows, one with an empty cell, ordered by ["age:DESC"]. *)
Lemma sortRows_orders_numbers_then_nulls_witness :
  exists sorted,
    Model._sortRows Examples.typed_schema 1
      [[("age", VStr "30")]; [("age", VStr "")]; [("age", VStr "4.5")]]
      "age:DESC"
    = Ok sorted
    /\ Permutation sorted
         [[("age", VStr "30")]; [("age", VStr "")]; [("age", VStr "4.5")]]
    /\ StronglySorted
         (fun a b =>
            let key row :=
              Model._convertValueType Examples.typed_schema 1 "age"
                (get row "age") in
            (if true then cell_le (key b) (key a)
             else cell_le (key a) (key b)) = true)
         sorted.
Proof.
  apply (sortRows_orders_numbers_then_nulls (H := Reference.host)
           Examples.typed_schema 1%nat _ "age:DESC" "age" true eq_refl
           eq_refl).
  intros row [<- | [<- | [<- | []]]]; reflexivity.
Defined.

(** X28. The value of [orderBy] is a field, sorted ascending, or a field
    and a direction separated by a colon, sorted descending when the
    direction is desc in any case of letters. *)
Theorem orderBy_is_a_field_and_a_direction :
  forall field direction,
    existsb (Ascii.eqb ":") (Chars.of_string field) = false ->
    existsb (Ascii.eqb ":") (Chars.of_string direction) = false ->
    Model.order_of field = (field, false)
    /\ Model.order_of (field ++ ":" ++ direction)
       = (field, descending direction).
Proof.
  intros field direction Hf Hd. unfold Model.order_of, Builtins.split.
  split.
  - rewrite (SplitFacts.split_chars_whole _ _ Hf).
    cbn [map hd tl]. now rewrite LikeFacts.to_of_string.
  - rewrite SplitFacts.of_string_app.
    change (Chars.of_string (":" ++ direction))
      with (":"%char :: Chars.of_string direction).
    rewrite (SplitFacts.split_chars_piece _ _ _ Hf).
    rewrite (SplitFacts.split_chars_whole _ _ Hd).
    cbn [map hd tl]. now rewrite !LikeFacts.to_of_string.
Qed.

(** ["age"] and ["age:Desc"]. *)
Lemma orderBy_is_a_field_and_a_direction_witness :
  Model.order_of "age" = ("age", false)
  /\ Model.order_of ("age" ++ ":" ++ "Desc") = ("age", descending "Desc").
Proof.
  apply orderBy_is_a_field_and_a_direction; reflexivity.
Defined.

(** X29. A model that [defineModel] has defined is what [model] returns
    for its name; the other names are as they were, and the name cannot
    be defined again. *)
Theorem defined_model_is_found_and_not_redefined `{Host} :
  forall models name options models' created,
    ORM.defineModel models name options = Ok (models', created) ->
    ORM.model models' name = Ok created
    /\ (forall other, other <> name ->
                      ORM.model models' other = ORM.model models other)
    /\ (forall options',
           ORM.defineModel models' name options'
           = Throws (Error ("Model '" ++ name ++ "' already defined"))).
Proof.
  intros models name options models' created. unfold ORM.defineModel.
  destruct (existsb (String.eqb name) ORM.inherited) eqn:Hin;
    [discriminate|].
  destruct (lookup models name) eqn:Hfree; [discriminate|].
  intros [= <- <-]. unfold ORM.model. rewrite Hin.
  rewrite RegistryFacts.lookup_put_same.
  split; [reflexivity|]. split; [|reflexivity].
  intros other Hne. now rewrite RegistryFacts.lookup_put_other.
Qed.

(** The model [User] of a connection without models. *)
Lemma defined_model_is_found_and_not_redefined_witness :
  let created :=
    {| BaseModel.sheetName := "User";
       BaseModel.primaryKey := "id";
       BaseModel.schema := Examples.user_schema;
       BaseModel.timestamps := true |} in
  ORM.model [("User", created)] "User" = Ok created
  /\ (forall other, other <> "User" ->
        ORM.model [("User", created)] other = ORM.model [] other)
  /\ (forall options,
         ORM.defineModel [("User", created)] "User" options
         = Throws (Error "Model 'User' already defined")).
Proof.
  apply (defined_model_is_found_and_not_redefined (H := Reference.host)
           [] "User"
           {| BaseModel.opt_sheetName := None;
              BaseModel.opt_primaryKey := None;
              BaseModel.opt_schema := Some Examples.user_schema;
              BaseModel.opt_timestamps := VUndefined |}).
  reflexivity.
Defined.

(** X30. A model that [defineModel] has defined has a primary key and a
    sheet name that are not empty; the sheet name is the one of the
    options or else the name of the model, and timestamps are off only
    when the option is false. *)
Theorem defined_model_has_a_sheet_and_a_key `{Host} :
  forall models name options models' created,
    ORM.defineModel models name options = Ok (models', created) ->
    BaseModel.primaryKey created <> ""
    /\ BaseModel.sheetName created <> ""
    /\ (name <> "" ->
        BaseModel.sheetName created
        = BaseModel.or_else (BaseModel.opt_sheetName options) name)
    /\ (BaseModel.timestamps created = false
        <-> BaseModel.opt_timestamps options = VBool false).
Proof.
  intros models name options models' created. unfold ORM.defineModel.
  destruct (existsb (String.eqb name) ORM.inherited); [discriminate|].
  destruct (lookup models name); [discriminate|].
  intros [= _ <-]. unfold BaseModel.new.
  cbn [BaseModel.primaryKey BaseModel.sheetName BaseModel.timestamps
       BaseModel.opt_sheetName BaseModel.opt_primaryKey
       BaseModel.opt_timestamps].
  split; [apply RegistryFacts.or_else_filled; discriminate|].
  split; [apply RegistryFacts.or_else_filled; discriminate|].
  split.
  - intros Hname.
    pose proof (RegistryFacts.or_else_filled
                  (BaseModel.opt_sheetName options) name Hname) as Hfilled.
    unfold BaseModel.or_else at 1.
    destruct (String.eqb_spec
                (BaseModel.or_else (BaseModel.opt_sheetName options) name)
                ""); [contradiction | reflexivity].
  - destruct (BaseModel.opt_timestamps options) as [| |[|]| | | | |];
      cbn; split; congruence.
Qed.

(** The model [Task] of a connection without models, defined without
    options. *)
Lemma defined_model_has_a_sheet_and_a_key_witness :
  let created :=
    {| BaseModel.sheetName := "Task";
       BaseModel.primaryKey := "id";
       BaseModel.schema := [];
       BaseModel.timestamps := true |} in
  BaseModel.primaryKey created <> ""
  /\ BaseModel.sheetName created <> ""
  /\ ("Task" <> "" ->
      BaseModel.sheetName created = BaseModel.or_else None "Task")
  /\ (BaseModel.timestamps created = false <-> VUndefined = VBool false).
Proof.
  intros created.
  apply (defined_model_has_a_sheet_and_a_key (H := Reference.host)
           [] "Task"
           {| BaseModel.opt_sheetName := None;
              BaseModel.opt_primaryKey := None;
              BaseModel.opt_schema := None;
              BaseModel.opt_timestamps := VUndefined |}
           [("Task", created)] created).
  reflexivity.
Defined.
